(** * PlayQ core: variable store, locator resolver and text wait

    A shallow embedding of the string-resolution core of the PlayQ
    test-automation toolkit:

    - [bundle/vars]: [getValue], [getConfigValue], [setValue],
      [replaceVariables], [parseLooseJson], [flattenConfig], [loadDefaults];
    - [fixtures/webLocFixture]: [webLocResolver];
    - [actions/web/waitActions]: [waitForTextAtLocation];
    - [actions/comm/commonActions]: [attachLog], [storeValue];
    - [actions/web/screenshotActions]: [processScreenshot];
    - [browsers/browserManager]: [invokeBrowser];
    - the schema generator of [bin]: [safeIdent].

    Conventions of the embedding.

    - A JavaScript string is a [string] holding the bytes of its UTF-8 text.
      White space ([trim], [\s], [Number]) is the white space of the
      language, in one, two or three bytes.  Lower case is given where the
      source compares with an ASCII literal, for which [A] to [Z] and the
      Kelvin sign are all that matters; the case folding of two arbitrary
      texts in the wait is a function of the runtime.
    - The module-level variables [storedVars] and [loggedMissingKeys], the
      process environment and the persisted [var.static.json] form an explicit
      [State] that every operation threads; a thrown exception keeps the
      state reached so far.
    - Collaborators that live outside the repository (the decryption utility,
      the browser driver, the delegated engines, the reporting sink) are
      fields of records the operations take as arguments. *)

From Stdlib Require Import ZArith Ascii String List Bool Lia.
From stdpp Require Import gmap strings list.

Set Warnings "-register-all".
Local Open Scope string_scope.

(** ** Strings *)

Module Str.

Definition dquote : string := String (ascii_of_nat 34) EmptyString.
Definition squote : string := String (ascii_of_nat 39) EmptyString.
Definition backslash : string := String (ascii_of_nat 92) EmptyString.

Definition code (c : ascii) : N := N_of_ascii c.

(** White space is the WhiteSpace and LineTerminator of the language:
    U+0009 to U+000D, U+0020, U+00A0, U+1680, U+2000 to U+200A, U+2028,
    U+2029, U+202F, U+205F, U+3000 and U+FEFF.  It is what [trim], [\s] and
    [Number] strip.  In UTF-8 these are the six characters of one byte, one
    of two bytes and the others of three. *)

(** TAB, LF, VT, FF, CR and SPACE. *)
Definition is_space1 (c : ascii) : bool :=
  let n := code c in ((9 <=? n) && (n <=? 13))%N || (n =? 32)%N.

(** The first byte of a white-space character of two or three bytes. *)
Definition is_space_lead (c : ascii) : bool :=
  let n := code c in
  ((n =? 194) || (n =? 225) || (n =? 226) || (n =? 227) || (n =? 239))%N.

(** U+00A0 *)
Definition is_space2 (c1 c2 : ascii) : bool :=
  ((code c1 =? 194) && (code c2 =? 160))%N.

(** U+1680; U+2000 to U+200A, U+2028, U+2029 and U+202F; U+205F; U+3000;
    U+FEFF. *)
Definition is_space3 (c1 c2 c3 : ascii) : bool :=
  let a := code c1 in
  let b := code c2 in
  let c := code c3 in
  (((a =? 225) && (b =? 154) && (c =? 128))
   || ((a =? 226) && (b =? 128)
       && (((128 <=? c) && (c <=? 138)) || (c =? 168) || (c =? 169) || (c =? 175)))
   || ((a =? 226) && (b =? 129) && (c =? 159))
   || ((a =? 227) && (b =? 128) && (c =? 128))
   || ((a =? 239) && (b =? 187) && (c =? 191)))%N.

(** The text after the white-space character that [s] starts with, when it
    starts with one. *)
Definition white (s : string) : option string :=
  match s with
  | EmptyString => None
  | String c1 r1 =>
      if is_space1 c1 then Some r1
      else if is_space_lead c1 then
        match r1 with
        | String c2 r2 =>
            if is_space2 c1 c2 then Some r2
            else match r2 with
                 | String c3 r3 => if is_space3 c1 c2 c3 then Some r3 else None
                 | EmptyString => None
                 end
        | EmptyString => None
        end
      else None
  end.

(** [s] is one white-space character. *)
Definition is_white (s : string) : bool :=
  match white s with
  | Some EmptyString => true
  | _ => false
  end.

Definition is_digit (c : ascii) : bool :=
  let n := code c in ((48 <=? n) && (n <=? 57))%N.

Definition is_upper (c : ascii) : bool :=
  let n := code c in ((65 <=? n) && (n <=? 90))%N.

Definition is_lower (c : ascii) : bool :=
  let n := code c in ((97 <=? n) && (n <=? 122))%N.

(** The class [[a-zA-Z0-9_]], which is also [\w]. *)
Definition is_word (c : ascii) : bool :=
  is_digit c || is_upper c || is_lower c || (code c =? 95)%N.

Definition is_empty (s : string) : bool :=
  match s with EmptyString => true | String _ _ => false end.

Fixpoint startsWith (p s : string) : bool :=
  match p, s with
  | EmptyString, _ => true
  | String _ _, EmptyString => false
  | String a p', String b s' => Ascii.eqb a b && startsWith p' s'
  end.

(** [s.slice(n)] for [0 <= n]. *)
Fixpoint slice (n : nat) (s : string) : string :=
  match n, s with
  | O, _ => s
  | S _, EmptyString => EmptyString
  | S n', String _ s' => slice n' s'
  end.

Fixpoint rev_append (s acc : string) : string :=
  match s with
  | EmptyString => acc
  | String c s' => rev_append s' (String c acc)
  end.

Definition rev (s : string) : string := rev_append s EmptyString.

Definition endsWith (p s : string) : bool := startsWith (rev p) (rev s).

Fixpoint includes (sub s : string) : bool :=
  startsWith sub s ||
  match s with
  | EmptyString => false
  | String _ s' => includes sub s'
  end.

(** The longest prefix of white-space characters, which is what [\s*]
    matches, and the rest. *)
Fixpoint span_white (s : string) : string * string :=
  match s with
  | EmptyString => (EmptyString, EmptyString)
  | String c1 r1 =>
      if is_space1 c1 then
        let '(a, b) := span_white r1 in (String c1 a, b)
      else if is_space_lead c1 then
        match r1 with
        | String c2 r2 =>
            if is_space2 c1 c2 then
              let '(a, b) := span_white r2 in (String c1 (String c2 a), b)
            else
              match r2 with
              | String c3 r3 =>
                  if is_space3 c1 c2 c3 then
                    let '(a, b) := span_white r3 in
                    (String c1 (String c2 (String c3 a)), b)
                  else (EmptyString, s)
              | EmptyString => (EmptyString, s)
              end
        | EmptyString => (EmptyString, s)
        end
      else (EmptyString, s)
  end.

Definition trimStart (s : string) : string := snd (span_white s).

(** The text without the white-space characters it ends with: what is
    kept of [c] and the rest is nothing when [c] and what is kept of the
    rest make one white-space character. *)
Fixpoint trimEnd (s : string) : string :=
  match s with
  | EmptyString => EmptyString
  | String c s' =>
      let t := trimEnd s' in
      if is_white (String c t) then EmptyString else String c t
  end.

Definition trim (s : string) : string := trimEnd (trimStart s).

Definition lower (c : ascii) : ascii :=
  if is_upper c then ascii_of_N (code c + 32) else c.

(** [s.toLowerCase()] on the letters whose lower case is an ASCII letter:
    [A] to [Z] and the Kelvin sign U+212A, which becomes [k]; every other
    character is left as it is.  No other character has a lower case in
    ASCII, so for every [s] the comparison of [s.toLowerCase()], trimmed or
    not, with a text of ASCII characters, which is what the resolver makes,
    is decided by this function. *)
Fixpoint toLowerCase (s : string) : string :=
  match s with
  | EmptyString => EmptyString
  | String c1 r1 =>
      match r1 with
      | String c2 (String c3 r3) =>
          if ((code c1 =? 226) && (code c2 =? 132) && (code c3 =? 170))%N
          then String "k" (toLowerCase r3)
          else String (lower c1) (toLowerCase r1)
      | _ => String (lower c1) (toLowerCase r1)
      end
  end.

(** [s.split(sep)] for a one-character separator. *)
Fixpoint split (sep : ascii) (s : string) : list string :=
  match s with
  | EmptyString => [EmptyString]
  | String c s' =>
      if Ascii.eqb c sep then EmptyString :: split sep s'
      else match split sep s' with
           | h :: t => String c h :: t
           | [] => [String c EmptyString]
           end
  end.

(** The longest prefix of [s] whose characters satisfy [p], and the rest. *)
Fixpoint span (p : ascii -> bool) (s : string) : string * string :=
  match s with
  | EmptyString => (EmptyString, EmptyString)
  | String c s' =>
      if p c then let '(a, b) := span p s' in (String c a, b)
      else (EmptyString, s)
  end.

(** [m s] is the attempt to match a pattern at the head of [s]: the
    replacement text and the input left after the match.  [guard p s k]
    continues with the rest when [s] starts with the literal [p]. *)
Definition guard {A} (p s : string) (k : string -> option A) : option A :=
  if startsWith p s then k (slice (String.length p) s) else None.

(** [s.replace(re, f)] for a global pattern that matches no empty string:
    the scan tries the pattern at each position from the left and resumes
    after a match.  The result lists the unmatched characters and the
    matches in order.  [fuel] bounds the number of positions visited;
    [String.length s] is enough. *)
Fixpoint scan {A} (fuel : nat) (m : string -> option (A * string)) (s : string)
  : list (ascii + A) :=
  match fuel with
  | O => []
  | S fuel' =>
      match s with
      | EmptyString => []
      | String c s' =>
          match m s with
          | Some (x, rest) => inr x :: scan fuel' m rest
          | None => inl c :: scan fuel' m s'
          end
      end
  end.

Fixpoint unscan (l : list (ascii + string)) : string :=
  match l with
  | [] => EmptyString
  | inl c :: l' => String c (unscan l')
  | inr x :: l' => x +:+ unscan l'
  end.

Definition replaceAll (m : string -> option (string * string)) (s : string) : string :=
  unscan (scan (String.length s) m s).

(** The first position at which [pat] occurs in [s]: the text before it
    and the text after it. *)
Fixpoint find (pat s : string) : option (string * string) :=
  if startsWith pat s then Some (EmptyString, slice (String.length pat) s)
  else match s with
       | EmptyString => None
       | String c s' =>
           match find pat s' with
           | Some (before, after) => Some (String c before, after)
           | None => None
           end
       end.

(** GetSubstitution for a string pattern (no capture groups): [$$] is a
    dollar, [$&] the match, [$`] the text before it, [$'] the text after
    it; any other dollar stands for itself. *)
Fixpoint substitution (matched before after templ : string) : string :=
  match templ with
  | EmptyString => EmptyString
  | String c t =>
      if Ascii.eqb c "$" then
        match t with
        | String d t' =>
            if Ascii.eqb d "$" then String "$" (substitution matched before after t')
            else if Ascii.eqb d "&" then matched +:+ substitution matched before after t'
            else if Ascii.eqb d "`" then before +:+ substitution matched before after t'
            else if Ascii.eqb d "'" then after +:+ substitution matched before after t'
            else String c (substitution matched before after t)
        | EmptyString => String c EmptyString
        end
      else String c (substitution matched before after t)
  end.

(** [s.replace(pat, templ)] with a string pattern: only the first
    occurrence is replaced. *)
Definition replaceFirst (pat templ s : string) : string :=
  match find pat s with
  | Some (before, after) => before +:+ substitution pat before after templ +:+ after
  | None => s
  end.

End Str.

(** ** JavaScript values and plain objects *)

(** The values the store operations hand around: a string, or a member that
    a plain object inherits from [Object.prototype] (a built-in function, or
    the prototype object itself for [__proto__]). *)
Inductive jsval : Type :=
| JStr (s : string)
| JProto (name : string).

(** [ToString] of a value; built-in functions print the way V8 prints
    them, under their own name, which for [constructor] is [Object]. *)
Definition ToString (v : jsval) : string :=
  match v with
  | JStr s => s
  | JProto name =>
      if String.eqb name "__proto__" then "[object Object]"
      else "function " +:+ (if String.eqb name "constructor" then "Object" else name)
           +:+ "() { [native code] }"
  end.

(** The truthiness of a value. *)
Definition truthy (v : jsval) : bool :=
  match v with
  | JStr s => negb (Str.is_empty s)
  | JProto _ => true
  end.

(** The property names of [Object.prototype]. *)
Definition Object_prototype : list string :=
  [ "constructor"; "__defineGetter__"; "__defineSetter__"; "hasOwnProperty";
    "__lookupGetter__"; "__lookupSetter__"; "isPrototypeOf";
    "propertyIsEnumerable"; "toString"; "valueOf"; "__proto__";
    "toLocaleString" ].

Definition inherited (k : string) : bool :=
  existsb (String.eqb k) Object_prototype.

(** A plain object with string-valued own properties, as [storedVars] and
    [process.env] are: [o !! k] is the own property [k]. *)

(** [k in o] *)
Definition obj_in (k : string) (o : gmap string string) : bool :=
  match o !! k with
  | Some _ => true
  | None => inherited k
  end.

(** [o[k]]; [None] is [undefined]. *)
Definition obj_get (o : gmap string string) (k : string) : option jsval :=
  match o !! k with
  | Some v => Some (JStr v)
  | None => if inherited k then Some (JProto k) else None
  end.

(** [o[k] = v]: the inherited [__proto__] setter ignores a string. *)
Definition obj_set (o : gmap string string) (k v : string) : gmap string string :=
  if String.eqb k "__proto__" then o else <[k := v]> o.

(** ** Numbers

    [Number(s)] on a string.  The embedding computes the value when [s]
    denotes a decimal integer of magnitude at most [2^53], which a double
    holds exactly and [ToString] prints in full; a string that is no
    StringNumericLiteral is [NaN]; any other numeric literal (a fraction, an
    exponent, a hexadecimal, octal or binary literal, a larger integer,
    [Infinity]) is kept as written. *)
Inductive jsnum : Type :=
| NaN
| Int (z : Z)
| Inexact (literal : string).

Fixpoint digits_value (s : string) (acc : Z) : Z :=
  match s with
  | EmptyString => acc
  | String c s' => digits_value s' (10 * acc + Z.of_N (Str.code c - 48))
  end.

(** ExponentPart, optional: [[eE][+-]?[0-9]+] up to the end of the input. *)
Definition exponent_opt (s : string) : bool :=
  match s with
  | EmptyString => true
  | String c r =>
      (Ascii.eqb c "e" || Ascii.eqb c "E") &&
      let r := match r with
               | String d r' => if Ascii.eqb d "+" || Ascii.eqb d "-" then r' else r
               | EmptyString => r
               end in
      let '(ds, rest) := Str.span Str.is_digit r in
      negb (Str.is_empty ds) && Str.is_empty rest
  end.

(** StrUnsignedDecimalLiteral *)
Definition unsigned_decimal (s : string) : bool :=
  String.eqb s "Infinity" ||
  let '(int, r1) := Str.span Str.is_digit s in
  match r1 with
  | EmptyString => negb (Str.is_empty int)
  | String c r2 =>
      if Ascii.eqb c "." then
        let '(frac, r3) := Str.span Str.is_digit r2 in
        (negb (Str.is_empty int) || negb (Str.is_empty frac)) && exponent_opt r3
      else negb (Str.is_empty int) && exponent_opt r1
  end.

Definition strip_sign (s : string) : string :=
  match s with
  | String c r => if Ascii.eqb c "+" || Ascii.eqb c "-" then r else s
  | EmptyString => s
  end.

Definition is_hex (c : ascii) : bool :=
  let n := Str.code c in
  Str.is_digit c || ((65 <=? n) && (n <=? 70))%N || ((97 <=? n) && (n <=? 102))%N.

Definition is_octal (c : ascii) : bool :=
  let n := Str.code c in ((48 <=? n) && (n <=? 55))%N.

Definition is_binary (c : ascii) : bool :=
  let n := Str.code c in ((48 <=? n) && (n <=? 49))%N.

(** NonDecimalIntegerLiteral: [0x], [0o] or [0b] and at least one digit. *)
Definition non_decimal (s : string) : bool :=
  match s with
  | String z (String k ds) =>
      Ascii.eqb z "0" && negb (Str.is_empty ds) &&
      let all p := Str.is_empty (snd (Str.span p ds)) in
      if Ascii.eqb k "x" || Ascii.eqb k "X" then all is_hex
      else if Ascii.eqb k "o" || Ascii.eqb k "O" then all is_octal
      else if Ascii.eqb k "b" || Ascii.eqb k "B" then all is_binary
      else false
  | _ => false
  end.

(** StrNumericLiteral *)
Definition numeric_literal (s : string) : bool :=
  unsigned_decimal (strip_sign s) || non_decimal s.

Definition Number (s : string) : jsnum :=
  let t := Str.trim s in
  if Str.is_empty t then Int 0
  else
    let u := strip_sign t in
    let '(ds, rest) := Str.span Str.is_digit u in
    if negb (Str.is_empty ds) && Str.is_empty rest then
      let v := digits_value ds 0 in
      if (v <=? 2 ^ 53)%Z then Int (if Str.startsWith "-" t then - v else v)
      else Inexact t
    else if numeric_literal t then Inexact t
    else NaN.

(** [Number(v)]: a built-in function or the prototype object is [NaN]. *)
Definition ToNumber (v : jsval) : jsnum :=
  match v with
  | JStr s => Number s
  | JProto _ => NaN
  end.

Fixpoint decimal_digits (fuel : nat) (n : Z) (acc : string) : string :=
  match fuel with
  | O => acc
  | S fuel' =>
      let acc := String (ascii_of_N (Z.to_N (n mod 10) + 48)) acc in
      if (n <? 10)%Z then acc else decimal_digits fuel' (n / 10) acc
  end.

(** The decimal text of an integer, as [ToString] prints it. *)
Definition Z_text (z : Z) : string :=
  let a := Z.abs z in
  let ds := decimal_digits (S (Z.to_nat (Z.log2 a))) a EmptyString in
  if (z <? 0)%Z then String "-" ds else ds.

(** ** Exceptions, state and the monad of the operations *)

Inductive Error : Type :=
| JsError (message : string)      (* new Error(message) *)
| TypeError (message : string).

Definition message (e : Error) : string :=
  match e with JsError m | TypeError m => m end.

Inductive Result (A : Type) : Type :=
| Ok (a : A)
| Throw (e : Error).
Arguments Ok {A} a.
Arguments Throw {A} e.

(** [resources/var.static.json] as [updateVarStaticJson] reads it: absent,
    present but rejected by [JSON.parse], an object of strings with no
    member of its own named [__proto__], or any other JSON value: [null],
    an array, a scalar, an object that holds other values than strings or
    a member named [__proto__].  For such a value the embedding keeps what
    the update makes of it: [assign key value] is the error that
    [data[key]] and [data[key] = value] throw (a TypeError on [null]), or
    the content that is handed to the write. *)
Inductive StaticFile : Type :=
| NoFile
| Unparsable (reason : string)
| Parsed (data : gmap string string)
| ParsedOther (assign : string -> string -> Result StaticFile).

Record State : Type := mkState {
  storedVars : gmap string string;
  loggedMissingKeys : gset string;
  process_env : gmap string string;
  var_static_json : StaticFile;
  (** the error of the file system when the directory or the file cannot be
      written, if any *)
  fs_write_fails : option Error;
  (** the arguments of the [console.warn] calls so far, latest first *)
  warnings : list (list string);
  (** [Date.now()], in milliseconds *)
  now : Z;
}.

Definition M (A : Type) : Type := State -> Result A * State.

Definition ret {A} (a : A) : M A := fun st => (Ok a, st).

Definition bind {A B} (m : M A) (k : A -> M B) : M B :=
  fun st =>
    match m st with
    | (Ok a, st') => k a st'
    | (Throw e, st') => (Throw e, st')
    end.

Definition throw {A} (e : Error) : M A := fun st => (Throw e, st).

(** [try { m } catch (error) { h error }] *)
Definition try_catch {A} (m : M A) (h : Error -> M A) : M A :=
  fun st =>
    match m st with
    | (Ok a, st') => (Ok a, st')
    | (Throw e, st') => h e st'
    end.

Definition get : M State := fun st => (Ok st, st).

Definition modify (f : State -> State) : M unit := fun st => (Ok tt, f st).

Declare Scope js_scope.
Delimit Scope js_scope with js.
Notation "x <- m ;; k" := (bind m (fun x => k))
  (at level 100, m at next level, right associativity) : js_scope.
Notation "m ;;; k" := (bind m (fun _ => k))
  (at level 100, right associativity) : js_scope.
Local Open Scope js_scope.

Definition console_warn (args : list string) : M unit :=
  modify (fun st =>
    mkState (storedVars st) (loggedMissingKeys st) (process_env st)
            (var_static_json st) (fs_write_fails st) (args :: warnings st) (now st)).

Definition set_storedVars (o : gmap string string) : M unit :=
  modify (fun st =>
    mkState o (loggedMissingKeys st) (process_env st)
            (var_static_json st) (fs_write_fails st) (warnings st) (now st)).

Definition set_loggedMissingKeys (s : gset string) : M unit :=
  modify (fun st =>
    mkState (storedVars st) s (process_env st)
            (var_static_json st) (fs_write_fails st) (warnings st) (now st)).

Definition set_var_static_json (f : StaticFile) : M unit :=
  modify (fun st =>
    mkState (storedVars st) (loggedMissingKeys st) (process_env st)
            f (fs_write_fails st) (warnings st) (now st)).

Definition set_now (t : Z) : M unit :=
  modify (fun st =>
    mkState (storedVars st) (loggedMissingKeys st) (process_env st)
            (var_static_json st) (fs_write_fails st) (warnings st) t).

(** ** The variable store ([bundle/vars]) *)

Module Vars.

Definition warn_empty_key : list string :=
  ["⚠️ Empty key provided to getValue"].

Definition warn_not_found (key : string) : list string :=
  ["⚠️ Variable not found for key: " +:+ Str.dquote +:+ key +:+ Str.dquote].

(** [ifEmpty] left out is [false].  The result is typed [string] in the
    source; it is a [jsval] because [key in storedVars] also holds for the
    members a plain object inherits. *)
Definition getValue (key : string) (ifEmpty : bool) : M jsval :=
  if Str.is_empty key then
    console_warn warn_empty_key ;;;
    ret (JStr (if ifEmpty then EmptyString else key))
  else
    let key := Str.trim key in
    if Str.startsWith "env." key then
      let envKey := Str.slice 4 key in
      st <- get ;;
      match obj_get (process_env st) envKey with
      | Some envValue =>
          if truthy envValue then ret envValue
          else ret (JStr (if ifEmpty then EmptyString else key))
      | None => ret (JStr (if ifEmpty then EmptyString else key))
      end
    else
      st <- get ;;
      match obj_get (storedVars st) key with
      | Some v =>
          (* key in storedVars *)
          ret (match v with
               | JStr s => if ifEmpty && String.eqb s key then JStr EmptyString else v
               | JProto _ => v
               end)
      | None =>
          (if negb ifEmpty && negb (bool_decide (key ∈ loggedMissingKeys st)) then
             console_warn (warn_not_found key) ;;;
             set_loggedMissingKeys ({[ key ]} ∪ loggedMissingKeys st)
           else ret tt) ;;;
          ret (JStr (if ifEmpty then EmptyString else key))
      end.

(** [rawKey.replace(/\./g, '__')] *)
Definition dots_to_underscores (s : string) : string :=
  Str.replaceAll
    (fun s => Str.guard "." s (fun rest => Some ("__", rest))) s.

Definition getConfigValue (key : string) (ifEmpty : bool) : M jsval :=
  let rawKey := Str.trim key in
  let envKey := "PLAYQ__" +:+ dots_to_underscores rawKey in
  let fullKey := "config." +:+ rawKey in
  let lookup : M jsval :=
    st <- get ;;
    match obj_get (storedVars st) fullKey with
    | Some v => ret v
    | None =>
        if negb (bool_decide (fullKey ∈ loggedMissingKeys st)) then
          set_loggedMissingKeys ({[ fullKey ]} ∪ loggedMissingKeys st) ;;;
          if ifEmpty then ret (JStr EmptyString) else ret (JStr fullKey)
        else ret (JStr fullKey)
    end in
  st <- get ;;
  match obj_get (process_env st) envKey with
  | Some v => if truthy v then ret v else lookup
  | None => lookup
  end.

(** The read-modify-write of [resources/var.static.json].  The debug
    prints are left out; creating the directory and writing the file fail
    together, with the error of the file system. *)
Definition updateVarStaticJson (key value : string) : M unit :=
  st <- get ;;
  data <- match var_static_json st with
          | Parsed data => ret (Parsed (obj_set data key value))
          | Unparsable reason =>
              console_warn ["Warning: Could not parse existing var.static.json:"; reason] ;;;
              ret (Parsed (obj_set ∅ key value))
          | NoFile => ret (Parsed (obj_set ∅ key value))
          | ParsedOther assign => fun st' => (assign key value, st')
          end ;;
  match fs_write_fails st with
  | Some error => throw error
  | None => set_var_static_json data
  end.

Definition setValue (key value : string) : M unit :=
  st <- get ;;
  set_storedVars (obj_set (storedVars st) key value) ;;;
  if Str.startsWith "var.static." key then
    updateVarStaticJson (Str.slice 11 key) value
  else ret tt.

(** The collaborators of the store that live outside the repository. *)
Record Host : Type := mkHost {
  (** [require("../util/utilities/cryptoUtil").decrypt(text)]; a failing
      [require] is a throw as well *)
  decrypt : string -> Result string;
  (** [String(Number(s))] for a numeric literal the embedding keeps as
      written *)
  inexact_text : string -> string;
  (** the message of the SyntaxError of [JSON.parse] on a text it rejects *)
  JSON_parse_message : string -> string;
}.

Definition Number_text (h : Host) (n : jsnum) : string :=
  match n with
  | NaN => "NaN"
  | Int z => Z_text z
  | Inexact literal => inexact_text h literal
  end.

Definition lift {A} (r : Result A) : M A := fun st => (r, st).

(** The pattern [/\#\{([^}]+)\}/] at the head of [s]: the captured
    expression and the input after the closing brace. *)
Definition placeholder_at (s : string) : option (string * string) :=
  Str.guard "#{" s (fun r =>
    let '(varName, r') := Str.span (fun c => negb (Ascii.eqb c "}")) r in
    if Str.is_empty varName then None
    else Str.guard "}" r' (fun rest => Some (varName, rest))).

(** The callback of [replaceVariables], with the conversion of its result
    to a string that [String.prototype.replace] performs. *)
Definition resolve (h : Host) (varName : string) : M string :=
  if Str.startsWith "pwd." varName then
    let encryptedValue := Str.slice 4 varName in
    try_catch (lift (decrypt h encryptedValue))
      (fun error =>
         console_warn ["Warning: Could not decrypt pwd value:"; message error] ;;;
         ret varName)
  else if Str.startsWith "enc." varName then
    let encryptedValue := Str.slice 4 varName in
    try_catch (lift (decrypt h encryptedValue))
      (fun error =>
         console_warn ["Warning: Could not decrypt enc value:"; message error] ;;;
         ret varName)
  else if Str.endsWith ".(toNumber)" varName then
    let baseVar := Str.replaceFirst ".(toNumber)" EmptyString varName in
    value <- getValue baseVar false ;;
    ret (match value with
         | JStr EmptyString => EmptyString
         | _ => Number_text h (ToNumber value)
         end)
  else
    value <- getValue varName false ;;
    ret (ToString value).

Fixpoint substitute (h : Host) (pieces : list (ascii + string)) : M string :=
  match pieces with
  | [] => ret EmptyString
  | inl c :: rest =>
      out <- substitute h rest ;;
      ret (String c out)
  | inr varName :: rest =>
      text <- resolve h varName ;;
      out <- substitute h rest ;;
      ret (text +:+ out)
  end.

(** [input] is a string; the source converts any other input with
    [toString] first. *)
Definition replaceVariables (h : Host) (input : string) : M string :=
  substitute h (Str.scan (String.length input) placeholder_at input).

(** *** JSON.parse *)

Inductive json : Type :=
| JNull
| JBool (b : bool)
| JNumber (n : jsnum)
| JString (s : string)
| JArray (elements : list json)
| JObject (properties : list (string * json)).

(** Defining the property [k] of an object under construction: a repeated
    key keeps its place and takes the new value. *)
Fixpoint define (k : string) (v : json) (props : list (string * json))
  : list (string * json) :=
  match props with
  | [] => [(k, v)]
  | (k', v') :: rest =>
      if String.eqb k k' then (k, v) :: rest else (k', v') :: define k v rest
  end.

(** JSON white space: TAB, LF, CR and SPACE. *)
Definition is_json_space (c : ascii) : bool :=
  let n := Str.code c in (n =? 9)%N || (n =? 10)%N || (n =? 13)%N || (n =? 32)%N.

Definition skip_ws (s : string) : string := snd (Str.span is_json_space s).

Definition hex_value (c : ascii) : option N :=
  let n := Str.code c in
  if Str.is_digit c then Some (n - 48)%N
  else if ((65 <=? n) && (n <=? 70))%N then Some (n - 55)%N
  else if ((97 <=? n) && (n <=? 102))%N then Some (n - 87)%N
  else None.

(** The UTF-8 bytes of the code unit [n < 65536]. *)
Definition utf8 (n : N) : string :=
  let byte k := ascii_of_N k in
  if (n <? 128)%N then String (byte n) EmptyString
  else if (n <? 2048)%N then
    String (byte (192 + n / 64)%N) (String (byte (128 + n mod 64)%N) EmptyString)
  else
    String (byte (224 + n / 4096)%N)
      (String (byte (128 + (n / 64) mod 64)%N)
         (String (byte (128 + n mod 64)%N) EmptyString)).

(** The characters of a JSON string after its opening quote, up to the
    closing quote. *)
Fixpoint json_chars (fuel : nat) (s : string) : option (string * string) :=
  match fuel with
  | O => None
  | S fuel' =>
      match s with
      | EmptyString => None
      | String c r =>
          if Ascii.eqb c (ascii_of_nat 34) then Some (EmptyString, r)
          else if Ascii.eqb c (ascii_of_nat 92) then
            match r with
            | String e r' =>
                let simple (x : nat) :=
                  match json_chars fuel' r' with
                  | Some (t, rest) => Some (String (ascii_of_nat x) t, rest)
                  | None => None
                  end in
                if Ascii.eqb e (ascii_of_nat 34) then simple 34%nat
                else if Ascii.eqb e (ascii_of_nat 92) then simple 92%nat
                else if Ascii.eqb e "/" then simple 47%nat
                else if Ascii.eqb e "b" then simple 8%nat
                else if Ascii.eqb e "f" then simple 12%nat
                else if Ascii.eqb e "n" then simple 10%nat
                else if Ascii.eqb e "r" then simple 13%nat
                else if Ascii.eqb e "t" then simple 9%nat
                else if Ascii.eqb e "u" then
                  match r' with
                  | String a (String b (String c' (String d r''))) =>
                      match hex_value a, hex_value b, hex_value c', hex_value d with
                      | Some x3, Some x2, Some x1, Some x0 =>
                          match json_chars fuel' r'' with
                          | Some (t, rest) =>
                              Some (utf8 (4096 * x3 + 256 * x2 + 16 * x1 + x0)%N +:+ t, rest)
                          | None => None
                          end
                      | _, _, _, _ => None
                      end
                  | _ => None
                  end
                else None
            | EmptyString => None
            end
          else if (Str.code c <? 32)%N then None
          else
            match json_chars fuel' r with
            | Some (t, rest) => Some (String c t, rest)
            | None => None
            end
      end
  end.

(** A JSON number at the head of [s]: an optional minus, then a zero or a
    run of digits, then an optional fraction and an optional exponent. *)
Definition json_number (s : string) : option (jsnum * string) :=
  let '(neg, r0) :=
    match s with
    | String c r => if Ascii.eqb c "-" then (true, r) else (false, s)
    | EmptyString => (false, s)
    end in
  let '(int, r1) :=
    match r0 with
    | String c r => if Ascii.eqb c "0" then (String c EmptyString, r)
                    else Str.span Str.is_digit r0
    | EmptyString => (EmptyString, r0)
    end in
  if Str.is_empty int then None
  else
    let frac : option (string * string) :=
      match r1 with
      | String c r =>
          if Ascii.eqb c "." then
            let '(ds, r2) := Str.span Str.is_digit r in
            if Str.is_empty ds then None else Some (String c ds, r2)
          else Some (EmptyString, r1)
      | EmptyString => Some (EmptyString, r1)
      end in
    match frac with
    | None => None
    | Some (fr, r2) =>
        let expo : option (string * string) :=
          match r2 with
          | String c r =>
              if Ascii.eqb c "e" || Ascii.eqb c "E" then
                let '(sign, r3) :=
                  match r with
                  | String d r' =>
                      if Ascii.eqb d "+" || Ascii.eqb d "-"
                      then (String d EmptyString, r') else (EmptyString, r)
                  | EmptyString => (EmptyString, r)
                  end in
                let '(ds, r4) := Str.span Str.is_digit r3 in
                if Str.is_empty ds then None
                else Some (String c (sign +:+ ds), r4)
              else Some (EmptyString, r2)
          | EmptyString => Some (EmptyString, r2)
          end in
        match expo with
        | None => None
        | Some (ex, rest) =>
            let token := (if neg then "-" else EmptyString) +:+ int +:+ fr +:+ ex in
            Some (Number token, rest)
        end
    end.

(** The elements of an array after the first one: each is a comma and a
    value; the closing bracket ends the list. *)
Fixpoint json_elements (value : string -> option (json * string))
  (fuel : nat) (s : string) : option (list json * string) :=
  match fuel with
  | O => None
  | S fuel' =>
      match skip_ws s with
      | String c r =>
          if Ascii.eqb c "]" then Some ([], r)
          else if Ascii.eqb c "," then
            match value r with
            | Some (v, r') =>
                match json_elements value fuel' r' with
                | Some (vs, rest) => Some (v :: vs, rest)
                | None => None
                end
            | None => None
            end
          else None
      | EmptyString => None
      end
  end.

(** One member of an object: a string, a colon and a value. *)
Definition json_member (value : string -> option (json * string)) (s : string)
  : option (string * json * string) :=
  match skip_ws s with
  | String c r =>
      if Ascii.eqb c (ascii_of_nat 34) then
        match json_chars (String.length r) r with
        | Some (k, r1) =>
            match skip_ws r1 with
            | String d r2 =>
                if Ascii.eqb d ":" then
                  match value r2 with
                  | Some (v, rest) => Some (k, v, rest)
                  | None => None
                  end
                else None
            | EmptyString => None
            end
        | None => None
        end
      else None
  | EmptyString => None
  end.

(** The members of an object after the first one. *)
Fixpoint json_members (value : string -> option (json * string))
  (fuel : nat) (s : string) (props : list (string * json))
  : option (list (string * json) * string) :=
  match fuel with
  | O => None
  | S fuel' =>
      match skip_ws s with
      | String c r =>
          if Ascii.eqb c "}" then Some (props, r)
          else if Ascii.eqb c "," then
            match json_member value r with
            | Some (k, v, r') => json_members value fuel' r' (define k v props)
            | None => None
            end
          else None
      | EmptyString => None
      end
  end.

(** A JSON value at the head of [s], white space skipped; [fuel] bounds
    the nesting depth and the number of elements of a collection. *)
Fixpoint json_value (fuel : nat) (s : string) : option (json * string) :=
  match fuel with
  | O => None
  | S fuel' =>
      let s := skip_ws s in
      if Str.startsWith "null" s then Some (JNull, Str.slice 4 s)
      else if Str.startsWith "true" s then Some (JBool true, Str.slice 4 s)
      else if Str.startsWith "false" s then Some (JBool false, Str.slice 5 s)
      else
        match s with
        | EmptyString => None
        | String c r =>
            if Ascii.eqb c (ascii_of_nat 34) then
              match json_chars (String.length r) r with
              | Some (t, rest) => Some (JString t, rest)
              | None => None
              end
            else if Ascii.eqb c "[" then
              match skip_ws r with
              | String d r' =>
                  if Ascii.eqb d "]" then Some (JArray [], r')
                  else
                    match json_value fuel' r with
                    | Some (v, r1) =>
                        match json_elements (json_value fuel') (String.length r1) r1 with
                        | Some (vs, rest) => Some (JArray (v :: vs), rest)
                        | None => None
                        end
                    | None => None
                    end
              | EmptyString => None
              end
            else if Ascii.eqb c "{" then
              match skip_ws r with
              | String d r' =>
                  if Ascii.eqb d "}" then Some (JObject [], r')
                  else
                    match json_member (json_value fuel') r with
                    | Some (k, v, r1) =>
                        match json_members (json_value fuel') (String.length r1) r1 [(k, v)] with
                        | Some (ps, rest) => Some (JObject ps, rest)
                        | None => None
                        end
                    | None => None
                    end
              | EmptyString => None
              end
            else
              match json_number s with
              | Some (n, rest) => Some (JNumber n, rest)
              | None => None
              end
        end
  end.

(** [JSON.parse(text)]; [None] is a SyntaxError. *)
Definition JSON_parse (text : string) : option json :=
  match json_value (S (String.length text)) text with
  | Some (v, rest) => if Str.is_empty (skip_ws rest) then Some v else None
  | None => None
  end.

(** *** parseLooseJson *)

Definition opt_quote (s : string) : string * string :=
  match s with
  | String c r =>
      if Ascii.eqb c (ascii_of_nat 34) || Ascii.eqb c (ascii_of_nat 39)
      then (String c EmptyString, r) else (EmptyString, s)
  | EmptyString => (EmptyString, s)
  end.

(** The class of the characters of a locator expression: anything but a
    comma, a closing brace, LF and CR. *)
Definition locator_char (c : ascii) : bool :=
  negb (Ascii.eqb c "," || Ascii.eqb c "}" ||
        (Str.code c =? 10)%N || (Str.code c =? 13)%N).

(** [locatorRegex] at the head of [s]: the groups [p1] and [p2] and the
    input after the match. *)
Definition locator_at (s : string) : option (string * string * string) :=
  let '(q1, r0) := opt_quote s in
  Str.guard "locator" r0 (fun r1 =>
    let '(q2, r2) := opt_quote r1 in
    let '(w1, r3) := Str.span_white r2 in
    Str.guard ":" r3 (fun r4 =>
      let '(w2, r5) := Str.span_white r4 in
      let p1 := q1 +:+ "locator" +:+ q2 +:+ w1 +:+ ":" +:+ w2 in
      let engine (prefix : string) : option (string * string * string) :=
        Str.guard prefix r5 (fun r6 =>
          let '(body, rest) := Str.span locator_char r6 in
          if Str.is_empty body then None else Some (p1, prefix +:+ body, rest)) in
      match engine "xpath=" with
      | Some m => Some m
      | None =>
          match engine "css=" with
          | Some m => Some m
          | None => engine "chain="
          end
      end)).

Definition placeholder_name (index : nat) : string :=
  "__LOCATOR_PLACEHOLDER_" +:+ Z_text (Z.of_nat index) +:+ "__".

(** The callback of the masking pass over the matches, the [index]-th
    first: the masked text and the values pushed on
    [locatorPlaceholders]. *)
Fixpoint mask (pieces : list (ascii + string * string)) (index : nat)
  : string * list string :=
  match pieces with
  | [] => (EmptyString, [])
  | inl c :: rest =>
      let '(text, values) := mask rest index in (String c text, values)
  | inr (p1, p2) :: rest =>
      let '(text, values) := mask rest (S index) in
      (p1 +:+ placeholder_name index +:+ text,
       (Str.dquote +:+ Str.trim p2 +:+ Str.dquote) :: values)
  end.

Definition mask_locators (wrappedStr : string) : string * list string :=
  mask (Str.scan (String.length wrappedStr)
          (fun s => match locator_at s with
                    | Some (p1, p2, rest) => Some ((p1, p2), rest)
                    | None => None
                    end) wrappedStr) 0.

(** The pattern of a single-quoted value at the head of [s], with its
    replacement: a colon, white space, and the text between two single
    quotes. *)
Definition single_quoted_at (s : string) : option (string * string) :=
  Str.guard ":" s (fun r =>
    let '(_, r1) := Str.span_white r in
    Str.guard Str.squote r1 (fun r2 =>
      let '(p1, r3) := Str.span (fun c => negb (Ascii.eqb c (ascii_of_nat 39))) r2 in
      Str.guard Str.squote r3 (fun rest =>
        Some (": " +:+ Str.dquote +:+ p1 +:+ Str.dquote, rest)))).

(** A bare key after an opening brace or a comma, with its replacement. *)
Definition bare_key_at (s : string) : option (string * string) :=
  match s with
  | String c r =>
      if Ascii.eqb c "{" || Ascii.eqb c "," then
        let '(w, r1) := Str.span_white r in
        let '(name, r2) := Str.span Str.is_word r1 in
        if Str.is_empty name then None
        else
          let '(_, r3) := Str.span_white r2 in
          Str.guard ":" r3 (fun rest =>
            Some (String c w +:+ Str.dquote +:+ name +:+ Str.dquote +:+ ":", rest))
      else None
  | EmptyString => None
  end.

(** A Python literal [word] after a colon, up to a word boundary. *)
Definition literal_at (word replacement : string) (s : string)
  : option (string * string) :=
  Str.guard ":" s (fun r =>
    let '(_, r1) := Str.span_white r in
    Str.guard word r1 (fun rest =>
      match rest with
      | String c _ => if Str.is_word c then None else Some (replacement, rest)
      | EmptyString => Some (replacement, rest)
      end)).

(** A comma before a closing brace or bracket; the comma is dropped. *)
Definition trailing_comma_at (s : string) : option (string * string) :=
  Str.guard "," s (fun r =>
    let '(w, r1) := Str.span_white r in
    match r1 with
    | String c rest =>
        if Ascii.eqb c "}" || Ascii.eqb c "]"
        then Some (w +:+ String c EmptyString, rest) else None
    | EmptyString => None
    end).

Definition requote (maskedStr : string) : string :=
  Str.replaceAll single_quoted_at maskedStr.

Definition normalize (maskedStr : string) : string :=
  Str.replaceAll trailing_comma_at
    (Str.replaceAll (literal_at "None" ": null")
       (Str.replaceAll (literal_at "False" ": false")
          (Str.replaceAll (literal_at "True" ": true")
             (Str.replaceAll bare_key_at maskedStr)))).

(** [locatorPlaceholders.forEach], from the index [index] on. *)
Fixpoint restore (values : list string) (index : nat) (normalized : string) : string :=
  match values with
  | [] => normalized
  | value :: rest =>
      restore rest (S index) (Str.replaceFirst (placeholder_name index) value normalized)
  end.

Definition wrap (str : string) : string :=
  let needsBraces :=
    negb (Str.startsWith "{" (Str.trim str)) || negb (Str.endsWith "}" (Str.trim str)) in
  if needsBraces then "{" +:+ str +:+ "}" else str.

(** The text [parseLooseJson] hands to [JSON.parse]. *)
Definition loose_to_strict (str : string) : string :=
  let '(maskedStr, locatorPlaceholders) := mask_locators (wrap str) in
  restore locatorPlaceholders 0 (normalize (requote maskedStr)).

Definition parseLooseJson (h : Host) (str : string) : Result json :=
  if Str.is_empty str || Str.is_empty (Str.trim str)
     || String.eqb (Str.trim str) (Str.dquote +:+ Str.dquote)
  then Ok (JObject [])
  else
    let normalized := loose_to_strict str in
    match JSON_parse normalized with
    | Some value => Ok value
    | None =>
        Throw (JsError ("❌ Failed to parse options string: " +:+ Str.dquote +:+ str
                        +:+ Str.dquote +:+ ". Error: " +:+ JSON_parse_message h normalized))
    end.

End Vars.

(** ** The locator resolver ([fixtures/webLocFixture]) *)

Module Resolver.

(** A value found in the locator name space or in the engine registry:
    falsy, truthy but not callable, or a function. *)
Inductive Slot (F : Type) : Type :=
| Missing
| NotCallable
| Callable (f : F).
Arguments Missing {F}.
Arguments NotCallable {F}.
Arguments Callable {F} f.

Section Resolver.

(** The page context and the element handles of the browser driver, with
    [page.locator(selector)]. *)
Variables Page Locator : Type.
Variable locator : Page -> string -> Locator.

(** The process-wide objects the resolver reaches for.  [globalThis.loc]
    is a tree of objects [file -> page -> field] whose leaves take the
    page; a JSON locator file is a table [page -> field -> selector]. *)
Record Globals : Type := mkGlobals {
  (** [globalThis.loc]: [None] when it is not defined, else what
      [globalLoc[fileName]?.[pageName]?.[fieldName]] evaluates to for each
      three keys, through own and inherited members alike (the keys
      [toString], [call], [bind] reach a built-in function).  A member
      whose read throws is a leaf whose call throws that error: the source
      calls the leaf as soon as it has read it. *)
  loc : option (string -> string -> string -> Slot (Page -> M (option Locator)));
  (** the module [@resources/locators/json/<file>.json]; [None] when the
      import fails *)
  json_locators : string -> option (gmap string (gmap string string));
  (** [engines.smartAi(page, type, selector, smartAiRefresh)] *)
  smartAi : Slot (Page -> string -> string -> string -> M (option Locator));
  (** [engines.patternIq(page, type, selector, overridePattern, timeout)] *)
  patternIq : Slot (Page -> string -> string -> option string -> option jsnum
                    -> M (option Locator));
  (** [engines.engines.patternIq] *)
  nested_patternIq : Slot (Page -> string -> string -> option string -> option jsnum
                           -> M (option Locator));
}.

(** A destructured array element used as a property key or in a template:
    a missing element is [undefined]. *)
Definition key_of (part : option string) : string :=
  match part with
  | Some k => k
  | None => "undefined"
  end.

(** [globalLoc?.[fileName]?.[pageName]?.[fieldName]] *)
Definition loc_lookup (g : Globals) (fileName pageName fieldName : string)
  : Slot (Page -> M (option Locator)) :=
  match loc g with
  | None => Missing
  | Some member => member fileName pageName fieldName
  end.

(** [s.replace(/^p/, r)] for a literal [p]. *)
Definition replace_prefix (p r s : string) : option string :=
  if Str.startsWith p s then Some (r +:+ Str.slice (String.length p) s) else None.

Definition first_prefix (ps : list string) (r s : string) : string :=
  match omap (fun p => replace_prefix p r s) ps with
  | s' :: _ => s'
  | [] => s
  end.

(** The three rewrites of a prefixed selector: [xpath=\] becomes [xpath=],
    the engine prefix is removed, and every escaped slash loses its
    backslash. *)
Definition rawSelector_of_prefixed (selector : string) : string :=
  let s1 := first_prefix ["xpath=" +:+ Str.backslash; "xpath =" +:+ Str.backslash]
              "xpath=" selector in
  let s2 := first_prefix ["xpath="; "xpath ="; "css="; "css ="] EmptyString s1 in
  Str.replaceAll (fun s => Str.guard (Str.backslash +:+ "/") s (fun rest => Some ("/", rest))) s2.

Definition isPlaywrightPrefixed (selector : string) : bool :=
  Str.startsWith "xpath=" selector || Str.startsWith "xpath =" selector ||
  Str.startsWith "css=" selector || Str.startsWith "css =" selector.

Definition isPlaywrightChainedPrefixed (selector : string) : bool :=
  Str.startsWith "chain=" selector || Str.startsWith "chain =" selector.

Definition isXPath (selector : string) : bool :=
  Str.startsWith "//" (Str.trim selector) || Str.startsWith "(" (Str.trim selector).

Definition isCSS (selector : string) : bool :=
  Str.includes ">" selector || Str.startsWith "." selector || Str.includes "#" selector.

Definition isChained (selector : string) : bool := Str.includes ">>" selector.

Definition isResourceLocator (selector : string) : bool := Str.startsWith "loc." selector.

(** [leaf(page)] for a truthy leaf. *)
Definition call_leaf (leaf : Slot (Page -> M (option Locator))) (page : Page)
  : M (option Locator) :=
  match leaf with
  | Callable f => f page
  | _ => throw (TypeError "globalLoc[fileName][pageName][fieldName] is not a function")
  end.

(** [String(vars.getConfigValue(key)).toLowerCase().trim() === 'true'] *)
Definition config_enabled (key : string) : M bool :=
  v <- Vars.getConfigValue key false ;;
  ret (String.eqb (Str.trim (Str.toLowerCase (ToString v))) "true").

(** The branch of a selector that starts with [loc.]. *)
Definition resolve_resource (h : Vars.Host) (g : Globals) (selector : string)
  (page : Page) : M (option Locator) :=
  let parts := Str.split "." selector in
  if (length parts <? 3)%nat then
    throw (JsError ("❌ Invalid locator format: " +:+ Str.dquote +:+ selector +:+ Str.dquote
                    +:+ ". Expected format: loc.(ts|json).<page>.<field>"))
  else
    let locType := key_of (parts !! 1%nat) in
    if Str.startsWith "loc.json." selector then
      let fileName := key_of (parts !! 2%nat) in
      let pageName := key_of (parts !! 3%nat) in
      let fieldName := key_of (parts !! 4%nat) in
      match json_locators g fileName with
      | None =>
          throw (JsError ("Cannot find module '@resources/locators/json/" +:+ fileName
                          +:+ ".json'"))
      | Some jsonLocatorMap =>
          match jsonLocatorMap !! pageName with
          | None =>
              throw (JsError ("❌ Page " +:+ Str.dquote +:+ pageName +:+ Str.dquote
                              +:+ " not found in " +:+ fileName +:+ ".json"))
          | Some pageObj =>
              let missing :=
                throw (JsError ("❌ Field " +:+ Str.dquote +:+ fieldName +:+ Str.dquote
                                +:+ " not found in " +:+ fileName +:+ ".json["
                                +:+ pageName +:+ "]")) in
              match pageObj !! fieldName with
              | None => missing
              | Some locatorString =>
                  if Str.is_empty locatorString then missing
                  else
                    sel <- Vars.replaceVariables h locatorString ;;
                    ret (Some (locator page sel))
              end
          end
      end
    else
      let unknown : M (option Locator) :=
        throw (JsError ("❌ Unknown locator source type " +:+ Str.dquote +:+ locType
                        +:+ Str.dquote +:+ ". Use loc. or locator.")) in
      let bare : M (option Locator) :=
        (* selector.startsWith("loc.") holds in this branch *)
        let fileName := key_of (parts !! 1%nat) in
        let pageName := key_of (parts !! 2%nat) in
        let fieldName := key_of (parts !! 3%nat) in
        match loc_lookup g fileName pageName fieldName with
        | Missing => unknown
        | leaf => call_leaf leaf page
        end in
      if Str.startsWith "loc.ts." selector then
        let fileName := key_of (parts !! 2%nat) in
        let pageName := key_of (parts !! 3%nat) in
        let fieldName := key_of (parts !! 4%nat) in
        match loc_lookup g fileName pageName fieldName with
        | Missing => bare
        | leaf => call_leaf leaf page
        end
      else bare.

Definition warn_smartAi : list string :=
  ["⚠️ SmartAI enabled but engines.smartAi not available/function. Falling back."].

Definition warn_patternIq : list string :=
  ["⚠️ PatternIQ enabled but engines.patternIq not available/function. Falling back to default locator."].

(** The tail of the resolver, after the escape hatch: engine A, engine B,
    and the default locator. *)
Definition resolve_delegated (g : Globals) (type selector : string) (page : Page)
  (overridePattern : option string) (timeout : option jsnum)
  (smartAiRefresh : string) : M (option Locator) :=
  let default : M (option Locator) := ret (Some (locator page selector)) in
  let pattern : M (option Locator) :=
    isPatternEnabled <- config_enabled "patternIq.enable" ;;
    if isPatternEnabled then
      let patternEngine :=
        match patternIq g with
        | Missing => nested_patternIq g
        | engine => engine
        end in
      match patternEngine with
      | Callable engine => engine page type selector overridePattern timeout
      | _ => console_warn warn_patternIq ;;; default
      end
    else default in
  isSmartAiEnabled <- config_enabled "smartAi.enable" ;;
  if isSmartAiEnabled then
    match smartAi g with
    | Callable engine => engine page type selector smartAiRefresh
    | _ => console_warn warn_smartAi ;;; pattern
    end
  else pattern.

(** [None] is the [undefined] the escape hatch returns. *)
Definition webLocResolver (h : Vars.Host) (g : Globals) (type selector : string)
  (pageArg : Page) (overridePattern : option string) (timeout : option jsnum)
  (smartAiRefresh : string) : M (option Locator) :=
  let page := pageArg in
  if isPlaywrightPrefixed selector then
    ret (Some (locator page (rawSelector_of_prefixed selector)))
  else if isPlaywrightChainedPrefixed selector then
    ret (Some (locator page (first_prefix ["chain="; "chain ="] EmptyString selector)))
  else if (isXPath selector || isCSS selector || isChained selector)
          && negb (isResourceLocator selector) then
    ret (Some (locator page selector))
  else if isResourceLocator selector then
    resolve_resource h g selector page
  else
    let no_check :=
      match overridePattern with
      | Some p => negb (Str.is_empty p) && String.eqb (Str.toLowerCase p) "-no-check-"
      | None => false
      end in
    if no_check then ret None
    else resolve_delegated g type selector page overridePattern timeout smartAiRefresh.

End Resolver.

End Resolver.

(** ** Waiting for a text ([actions/web/waitActions]) *)

Module Wait.

Section Wait.

Variables Page Locator : Type.
Variable locator : Page -> string -> Locator.

(** What a reporting sink is handed: a text, or the buffer of a screenshot,
    which the embedding does not look into. *)
Inductive Attachment : Type :=
| TextBody (text : string)
| ScreenshotBody.

(** The browser driver, the timers and the reporting sinks, as the wait
    observes them.  A call awaited inside the polling loop takes time: it
    is given the instant at which it starts and tells how many milliseconds
    pass until it settles.  The calls awaited outside the loop are taken to
    settle at once. *)
Record World : Type := mkWorld {
  (** [target.innerText()]: how the call settles, and after how long *)
  innerText : Locator -> Z -> Result string * N;
  (** how late a timer armed at the given instant fires *)
  timer_lag : Z -> N;
  (** [webFixture.getWorld()?.attach], called as [attach(body, mimeType)] *)
  world_attach : Resolver.Slot (Attachment -> string -> Result unit);
  (** [page.screenshot({ fullPage })] *)
  page_screenshot : Page -> bool -> Result unit;
  (** [selector.screenshot()] *)
  locator_screenshot : Locator -> Result unit;
  (** [test.info().attach(text, { body, contentType })] of the Playwright
      runner *)
  test_info_attach : string -> Result unit;
  (** [`${field}`] for a handle *)
  Locator_text : Locator -> string;
  (** [n < Number(literal)] for a numeric literal the embedding keeps as
      written *)
  less_than_inexact : Z -> string -> bool;
  (** [text.toLowerCase()] on the texts the wait compares, with the case
      tables of the runtime *)
  lower_case : string -> string;
}.

(** [process.env.TEST_RUNNER === runner] *)
Definition is_runner (runner : string) (st : State) : bool :=
  match obj_get (process_env st) "TEST_RUNNER" with
  | Some (JStr r) => String.eqb r runner
  | _ => false
  end.

(** [attachLog(message, mimeType)] of [actions/comm/commonActions], for a
    text message.  Under the Playwright runner the attachment is made
    inside a [try] whose [catch] only prints. *)
Definition attachLog (w : World) (message mimeType : string) : M unit :=
  if Str.is_empty message then
    console_warn ["⚠️ attachLog: empty message provided; skipping attachment"]
  else
    let mimeType := if Str.is_empty mimeType then "text/plain" else mimeType in
    st <- get ;;
    if is_runner "cucumber" st then
      match world_attach w with
      | Resolver.Callable attach => Vars.lift (attach (TextBody message) mimeType)
      | Resolver.NotCallable => throw (TypeError "world.attach is not a function")
      | Resolver.Missing =>
          console_warn ["⚠️ No World.attach() available in Cucumber context"]
      end
    else if is_runner "playwright" st then ret tt
    else console_warn ["⚠️ attachLog: Unknown runner type"].

(** [processScreenshot(page, shouldTake, text, fullPage, selector)] of
    [actions/web/screenshotActions]; [None] is an argument that is
    [undefined]: no page, the text [Screenshot], the full page, the page
    rather than an element. *)
Definition processScreenshot (w : World) (page : option Page) (shouldTake : bool)
  (text : option string) (fullPage : option bool) (selector : option Locator) : M unit :=
  let text := match text with Some t => t | None => "Screenshot" end in
  let fullPage := match fullPage with Some b => b | None => true end in
  if negb shouldTake then ret tt
  else
    match page with
    | None => throw (JsError "Page not initialized for screenshot")
    | Some page =>
        Vars.lift (match selector with
                   | Some handle => locator_screenshot w handle
                   | None => page_screenshot w page fullPage
                   end) ;;;
        try_catch
          (st <- get ;;
           if is_runner "cucumber" st then
             match world_attach w with
             | Resolver.Callable attach =>
                 Vars.lift (attach ScreenshotBody "image/png") ;;;
                 Vars.lift (attach (TextBody ("Screenshot Text: " +:+ text)) "text/plain")
             | _ => console_warn ["⚠️ No Cucumber World context. Screenshot not attached."]
             end
           else if is_runner "playwright" st then Vars.lift (test_info_attach w text)
           else console_warn ["⚠️ Unknown runner context. Screenshot not attached."])
          (fun error => console_warn ["⚠️ Error attaching screenshot: " +:+ message error])
    end.

(** The options bag after destructuring, each field of its documented
    type; [None] is a field the caller left out. *)
Record Options : Type := mkOptions {
  actionTimeout : option jsnum;
  partialMatch : option bool;
  ignoreCase : option bool;
  screenshot : option bool;
  screenshotText : option string;
  screenshotFullPage : option bool;
  pattern : option string;
}.

(** [elapsed < actionTimeout] *)
Definition less_than (w : World) (elapsed : Z) (actionTimeout : jsnum) : bool :=
  match actionTimeout with
  | NaN => false
  | Int z => (elapsed <? z)%Z
  | Inexact literal => less_than_inexact w elapsed literal
  end.

(** [await] of a call that settles after [d] milliseconds. *)
Definition sleep (d : Z) : M unit :=
  st <- get ;; set_now (now st + d).

Definition matches (w : World) (partialMatch ignoreCase : bool)
  (expectedText actualText : string) : bool :=
  let expected := if negb ignoreCase then lower_case w expectedText else expectedText in
  let actual := if negb ignoreCase then lower_case w actualText else actualText in
  if partialMatch then Str.includes expected actual else String.eqb actual expected.

(** The [while] loop of [doWaitForTextAtLocation]: [Some (found, lastActual)]
    when the loop is left, [None] when [fuel] polls did not leave it. *)
Fixpoint poll (w : World) (fuel : nat) (target : option Locator) (start : Z)
  (actionTimeout : jsnum) (expectedText : string) (partialMatch ignoreCase : bool)
  (lastActual : string) : M (option (bool * string)) :=
  match fuel with
  | O => ret None
  | S fuel' =>
      st <- get ;;
      if less_than w (now st - start) actionTimeout then
        match target with
        | None =>
            throw (TypeError "Cannot read properties of undefined (reading 'innerText')")
        | Some handle =>
            let '(settled, d) := innerText w handle (now st) in
            sleep (Z.of_N d) ;;;
            text <- Vars.lift settled ;;
            let actualText := Str.trim text in
            if matches w partialMatch ignoreCase expectedText actualText then
              ret (Some (true, actualText))
            else
              st' <- get ;;
              sleep (300 + Z.of_N (timer_lag w (now st'))) ;;;
              poll w fuel' target start actionTimeout expectedText
                   partialMatch ignoreCase actualText
        end
      else ret (Some (false, lastActual))
  end.

Definition field_text (w : World) (field : string + Locator) : string :=
  match field with
  | inl selector => selector
  | inr handle => Locator_text w handle
  end.

Definition timeout_message (h : Vars.Host) (w : World) (field : string + Locator)
  (expectedText : string) (actionTimeout : jsnum) (lastActual : string) : string :=
  "❌ Text " +:+ Str.dquote +:+ expectedText +:+ Str.dquote
  +:+ " did not appear at location " +:+ Str.dquote +:+ field_text w field +:+ Str.dquote
  +:+ " within " +:+ Vars.Number_text h actionTimeout +:+ "ms. Last actual: "
  +:+ Str.dquote +:+ lastActual +:+ Str.dquote.

Definition success_message (w : World) (field : string + Locator) (expectedText : string)
  : string :=
  "✅ Text " +:+ Str.dquote +:+ expectedText +:+ Str.dquote
  +:+ " appeared at location " +:+ Str.dquote +:+ field_text w field +:+ Str.dquote.

(** [typeof field === "string" ? await webLocResolver("text", field, page,
    pattern, actionTimeout) : field] *)
Definition target_of_field (h : Vars.Host) (g : Resolver.Globals Page Locator)
  (page : Page) (field : string + Locator) (pattern : option string)
  (actionTimeout : jsnum) : M (option Locator) :=
  match field with
  | inl selector =>
      Resolver.webLocResolver Page Locator locator h g "text" selector page
        pattern (Some actionTimeout) EmptyString
  | inr handle => ret (Some handle)
  end.

(** [None] when [fuel] polls did not leave the loop. *)
Definition doWaitForTextAtLocation (h : Vars.Host) (g : Resolver.Globals Page Locator)
  (w : World) (fuel : nat) (page : Page) (field : string + Locator)
  (expectedText : string) (actionTimeout : jsnum) (partialMatch ignoreCase : bool)
  (screenshot : bool) (screenshotText : string) (screenshotFullPage : bool)
  (pattern : option string) : M (option unit) :=
  target <- target_of_field h g page field pattern actionTimeout ;;
  st <- get ;;
  let start := now st in
  left <- poll w fuel target start actionTimeout expectedText partialMatch ignoreCase
            EmptyString ;;
  match left with
  | None => ret None
  | Some (found, lastActual) =>
      if negb found then
        let msg := timeout_message h w field expectedText actionTimeout lastActual in
        attachLog w msg "text/plain" ;;;
        throw (JsError msg)
      else
        attachLog w (success_message w field expectedText) "text/plain" ;;;
        processScreenshot w (Some page) screenshot
          (Some (if Str.is_empty screenshotText
                 then "Waited for text at location: " +:+ expectedText
                 else screenshotText))
          (Some screenshotFullPage) None ;;;
        ret (Some tt)
  end.

Definition default {A} (o : option A) (d : A) : A :=
  match o with
  | Some a => a
  | None => d
  end.

(** The options bag is taken after parsing and destructuring.  Under the
    Playwright runner the source runs [doWaitForTextAtLocation] through
    [allure.step], which is taken to run it and to pass its outcome on. *)
Definition waitForTextAtLocation (h : Vars.Host) (g : Resolver.Globals Page Locator)
  (w : World) (fuel : nat) (page : option Page) (field : string + Locator)
  (expectedText : string) (options : Options) : M (option unit) :=
  actionTimeout <- match actionTimeout options with
                   | Some t => ret t
                   | None =>
                       v <- Vars.getConfigValue "testExecution.actionTimeout" false ;;
                       ret (ToNumber v)
                   end ;;
  match page with
  | None => throw (JsError "Page not initialized")
  | Some page =>
      doWaitForTextAtLocation h g w fuel page field expectedText actionTimeout
        (default (partialMatch options) false)
        (default (ignoreCase options) true)
        (default (screenshot options) false)
        (default (screenshotText options) EmptyString)
        (default (screenshotFullPage options) true)
        (pattern options)
  end.

End Wait.

End Wait.

(** ** Storing a value ([actions/comm/commonActions]) *)

Module Common.

(** [storeValue(value, varName, options)] for a string value and a string
    name; [options] is [None] when the caller leaves it out or passes an
    object.  Under the Playwright runner the source runs [setValue] through
    [allure.step], which is taken to run it and to pass its outcome on. *)
Definition storeValue (h : Vars.Host) (value varName : string) (options : option string)
  : M unit :=
  match options with
  | Some text => Vars.lift (Vars.parseLooseJson h text) ;;; ret tt
  | None => ret tt
  end ;;;
  if (String.length (Str.trim varName) =? 0)%nat then
    throw (JsError "❌ storeValue: varName must be a non-empty string.")
  else
    resolvedValue <- Vars.replaceVariables h value ;;
    Vars.setValue varName resolvedValue.

End Common.

(** ** Launching the browser ([browsers/browserManager]) *)

Module Browser.

Inductive BrowserType : Type :=
| chromium
| firefox
| webkit.

(** [options]: [{ headless: !true }] *)
Definition headless : bool := negb true.

(** [invokeBrowser()]: the launch it asks the driver for, as the engine and
    the [headless] option. *)
Definition invokeBrowser : M (BrowserType * bool) :=
  v <- Vars.getConfigValue "browser.browserType" false ;;
  let browserType := if truthy v then v else JStr "chromium" in
  let unset : M (BrowserType * bool) :=
    throw (JsError "Please set the proper browser!") in
  match browserType with
  | JStr name =>
      if String.eqb name "chromium" then ret (chromium, headless)
      else if String.eqb name "firefox" then ret (firefox, headless)
      else if String.eqb name "webkit" then ret (webkit, headless)
      else unset
  | JProto _ => unset
  end.

End Browser.

(** ** Identifiers of the schema generator ([bin]) *)

Module OpenApi.

(** [name.replace(/[^a-zA-Z0-9_]/g, "_")], with an underscore put in front
    of a leading digit. *)
Definition safeIdent (name : string) : string :=
  let cleaned :=
    Str.replaceAll
      (fun s => match s with
                | String c rest => if Str.is_word c then None else Some ("_", rest)
                | EmptyString => None
                end) name in
  match cleaned with
  | String c _ => if Str.is_digit c then "_" +:+ cleaned else cleaned
  | EmptyString => cleaned
  end.

End OpenApi.

(** ** Default entries ([bundle/vars]) *)

Module Defaults.

(** What [require('./defaultEntries')] gives: the module cannot be loaded,
    its default export is no array, or it is the list of the entries, each
    a name and a value. *)
Inductive DefaultEntries : Type :=
| NoModule (reason : string)
| NotAnArray
| Entries (items : list (string * string)).

(** The value [loadDefaults] picks for an entry: the environment variable
    of its name, else the stored variable, else the default; each is asked
    for first with an existence check and then read. *)
Definition pick (name value : string) : M jsval :=
  fromEnv <- Vars.getValue ("env." +:+ name) true ;;
  if truthy fromEnv then Vars.getValue ("env." +:+ name) false
  else
    stored <- Vars.getValue name true ;;
    if truthy stored then Vars.getValue name false else ret (JStr value).

(** [setValue(item.name, value)].  [None]: the value picked is a built-in
    of [Object.prototype], which the store of the embedding, holding
    strings, cannot take. *)
Definition store (name : string) (value : jsval) : M (option unit) :=
  match value with
  | JStr text => Vars.setValue name text ;;; ret (Some tt)
  | JProto _ => ret None
  end.

(** [defaultEntries.forEach(...)] *)
Fixpoint forEach (items : list (string * string)) : M (option unit) :=
  match items with
  | [] => ret (Some tt)
  | (name, value) :: rest =>
      picked <- pick name value ;;
      stored <- store name picked ;;
      match stored with
      | Some _ => forEach rest
      | None => ret None
      end
  end.

Definition loadDefaults (defaultEntries : DefaultEntries) : M (option unit) :=
  let warn (error : Error) : M (option unit) :=
    console_warn ["Warning: Could not load default entries:"; message error] ;;;
    ret (Some tt) in
  match defaultEntries with
  | NoModule reason => warn (JsError reason)
  | NotAnArray => ret (Some tt)
  | Entries items => try_catch (forEach items) warn
  end.

End Defaults.

(** ** Flattening a configuration ([bundle/vars]) *)

Module Flatten.

Import Vars.

(** The data is a JSON value; an object holds its own properties in the
    order of their creation, each key once. *)

(** An array index: the canonical decimal text of an integer below
    [2^32 - 1]. *)
Definition array_index (k : string) : option N :=
  match k with
  | EmptyString => None
  | String c r =>
      if forallb Str.is_digit (list_ascii_of_string k)
         && (Str.is_empty r || negb (Ascii.eqb c "0"))
      then
        let n := Z.to_N (digits_value k 0) in
        if (n <? 4294967295)%N then Some n else None
      else None
  end.

Fixpoint insert_by_index {X} (n : N) (p : string * X) (l : list (N * (string * X)))
  : list (N * (string * X)) :=
  match l with
  | [] => [(n, p)]
  | (m, q) :: l' => if (n <? m)%N then (n, p) :: l else (m, q) :: insert_by_index n p l'
  end.

(** The properties whose key is an array index, by ascending index. *)
Fixpoint indexed {X} (props : list (string * X)) : list (N * (string * X)) :=
  match props with
  | [] => []
  | p :: rest =>
      match array_index (fst p) with
      | Some n => insert_by_index n p (indexed rest)
      | None => indexed rest
      end
  end.

(** The other properties, in the order of their creation. *)
Fixpoint named {X} (props : list (string * X)) : list (string * X) :=
  match props with
  | [] => []
  | p :: rest =>
      match array_index (fst p) with
      | Some _ => named rest
      | None => p :: named rest
      end
  end.

(** The order in which [for (const key in obj)] visits the properties. *)
Definition for_in {X} (props : list (string * X)) : list (string * X) :=
  map snd (indexed props) ++ named props.

(** [texts.join(sep)] *)
Fixpoint join (sep : string) (texts : list string) : string :=
  match texts with
  | [] => EmptyString
  | text :: rest =>
      match rest with
      | [] => text
      | _ :: _ => text +:+ sep +:+ join sep rest
      end
  end.

(** The text of an array element in [join]: [null] is the empty string, a
    nested array is joined with commas. *)
Fixpoint element_text (h : Host) (v : json) : string :=
  match v with
  | JNull => EmptyString
  | JBool b => if b then "true" else "false"
  | JNumber n => Number_text h n
  | JString s => s
  | JArray elements => join "," (map (element_text h) elements)
  | JObject _ => "[object Object]"
  end.

(** [Object.assign(entries, part)] over the parts in order, from the empty
    object. *)
Definition merge_all (parts : list (string * gmap string string)) : gmap string string :=
  foldl (fun entries part => snd part ∪ entries) ∅ parts.

(** What one round of the loop adds for the property value [v] under
    [fullKey]: the flattening of a nested object, the joined text of an
    array, the text of anything else. *)
Fixpoint entry (h : Host) (v : json) (fullKey : string) {struct v} : gmap string string :=
  match v with
  | JObject props =>
      merge_all
        (for_in (map (fun p => (fst p, entry h (snd p) (fullKey +:+ "." +:+ fst p))) props))
  | JArray elements => {[ fullKey := join ";" (map (element_text h) elements) ]}
  | JNull => {[ fullKey := "null" ]}
  | JBool _ | JNumber _ | JString _ => {[ fullKey := element_text h v ]}
  end.

(** [flattenConfig(obj, prefix)]: the loop visits the properties of an
    object, the elements of an array and the characters of a string, and
    nothing of a number, a boolean or [null]. *)
Definition flattenConfig (h : Host) (obj : json) (prefix : string) : gmap string string :=
  match obj with
  | JObject _ => entry h obj prefix
  | JArray elements =>
      merge_all
        (imap (fun i x => (Z_text (Z.of_nat i),
                           entry h x (prefix +:+ "." +:+ Z_text (Z.of_nat i)))) elements)
  | JString s =>
      merge_all
        (imap (fun i c => (Z_text (Z.of_nat i),
                           {[ prefix +:+ "." +:+ Z_text (Z.of_nat i) := String c EmptyString ]}))
           (list_ascii_of_string s))
  | JNull | JBool _ | JNumber _ => ∅
  end.



End Flatten.

(** * Properties *)

Local Open Scope js_scope.

(** ** Vocabulary of the statements *)

(** The state of a process that has just started, with nothing stored. *)
Definition fresh_state : State := mkState ∅ ∅ ∅ NoFile None [] 0.

(** A host whose decryption always fails. *)
Definition no_crypto : Vars.Host :=
  Vars.mkHost (fun _ => Throw (JsError "Decryption failed")) (fun s => s)
    (fun _ => "Unexpected token").

(** The name of the environment variable that overrides [config.<k>], the
    way the specification words it: [PLAYQ__] and each dot of [k] doubled
    into underscores. *)
Definition override_name (k : string) : string :=
  "PLAYQ__" +:+ Vars.dots_to_underscores k.

(** The state after [n] calls [getValue(k)] in a row. *)
Fixpoint getValue_times (n : nat) (k : string) (st : State) : State :=
  match n with
  | O => st
  | S n' => getValue_times n' k (snd (Vars.getValue k false st))
  end.

(** How many times the missing-variable warning for [key] was logged. *)
Definition missing_warnings (key : string) (st : State) : nat :=
  length (filter (fun args => args = Vars.warn_not_found key) (warnings st)).

(** The options string of the locator example:
    [{name: "x", locator: xpath=//div[@id=1], count: 3}]. *)
Definition locator_options : string :=
  "{name: " +:+ Str.dquote +:+ "x" +:+ Str.dquote
  +:+ ", locator: xpath=//div[@id=1], count: 3}".

(** A driver whose handles are the selectors themselves, on a page with
    nothing registered: no locator name space, no JSON locator file, no
    engine. *)
Definition selector_handle (_ : unit) (selector : string) : string := selector.

Definition no_globals : Resolver.Globals unit string :=
  Resolver.mkGlobals unit string None (fun _ => None) Resolver.Missing Resolver.Missing Resolver.Missing.

(** A name space made of objects without a prototype, so that no member
    is inherited, in which the lookup finds the one entry [ts.f.p]. *)
Definition ts_globals : Resolver.Globals unit string :=
  Resolver.mkGlobals unit string
    (Some (fun fileName pageName fieldName =>
             if String.eqb fileName "ts" && String.eqb pageName "f"
                && String.eqb fieldName "p"
             then Resolver.Callable (fun _ => ret (Some "found"))
             else Resolver.Missing))
    (fun _ => None) Resolver.Missing Resolver.Missing Resolver.Missing.

(** The instant at which the poll after the one started at [c] starts: the
    read of the text settles, then the timer of 300 ms fires. *)
Definition next_poll {Page Locator : Type} (w : Wait.World Page Locator)
  (handle : Locator) (c : Z) : Z :=
  let d := Z.of_N (snd (Wait.innerText Page Locator w handle c)) in
  c + d + (300 + Z.of_N (Wait.timer_lag Page Locator w (c + d))).

(** The instant of the [i]-th poll of a loop whose first poll starts at
    [c], and the text that poll reads. *)
Fixpoint poll_instant {Page Locator : Type} (w : Wait.World Page Locator)
  (handle : Locator) (c : Z) (i : nat) : Z :=
  match i with
  | O => c
  | S i' => poll_instant w handle (next_poll w handle c) i'
  end.

Definition observed {Page Locator : Type} (w : Wait.World Page Locator)
  (handle : Locator) (c : Z) (i : nat) : Result string :=
  fst (Wait.innerText Page Locator w handle (poll_instant w handle c i)).

(** The value of [lastActual] after [n] polls of a loop whose first poll
    starts at [c]: the trimmed text of the latest poll. *)
Definition last_text {Page Locator : Type} (w : Wait.World Page Locator)
  (handle : Locator) (c : Z) (n : nat) (initial : string) : string :=
  match n with
  | O => initial
  | S m =>
      match observed w handle c m with
      | Ok text => Str.trim text
      | Throw _ => initial
      end
  end.

(** The state [st] at the instant [t]. *)
Definition at_instant (t : Z) (st : State) : State := snd (set_now t st).

(** A page whose element reads [Loading] until the instant [appears] and
    [Welcome back] from then on; reads and timers take no extra time, no
    Cucumber world is attached, and screenshots succeed.  The texts are
    ASCII, on which [Str.toLowerCase] is the lower case of the runtime. *)
Definition page_world (appears : Z) : Wait.World unit string :=
  Wait.mkWorld unit string
    (fun _ t => (Ok (if (appears <=? t)%Z then "Welcome back" else "Loading"), 0%N))
    (fun _ => 0%N)
    Resolver.Missing
    (fun _ _ => Ok tt)
    (fun _ => Ok tt)
    (fun _ => Ok tt)
    (fun handle => handle)
    (fun _ _ => false)
    Str.toLowerCase.

(** A page whose element reads [Loading] for ever. *)
Definition stuck_world : Wait.World unit string :=
  Wait.mkWorld unit string
    (fun _ _ => (Ok "Loading", 0%N))
    (fun _ => 0%N)
    Resolver.Missing
    (fun _ _ => Ok tt)
    (fun _ => Ok tt)
    (fun _ => Ok tt)
    (fun handle => handle)
    (fun _ _ => false)
    Str.toLowerCase.

(** A process configured with an action timeout of 5000 ms. *)
Definition configured_state : State :=
  mkState {[ "config.testExecution.actionTimeout" := "5000" ]} ∅ ∅ NoFile None [] 0.

Definition partial_match : Wait.Options :=
  Wait.mkOptions None (Some true) None None None None None.

(** The state in which the wait loop starts, once the selector [h1] is
    resolved in the configured process. *)
Definition resolved_state : State :=
  snd (Wait.target_of_field unit string selector_handle no_crypto no_globals tt
         (inl "h1") None (Int 5000) configured_state).

(** A matcher consumes when what it leaves is shorter than what it was
    given. *)
Definition consuming {A} (m : string -> option (A * string)) : Prop :=
  forall s x rest, m s = Some (x, rest) -> (String.length rest < String.length s)%nat.

(** One operation of the store, and the state a sequence of them leaves. *)
Inductive StoreOp : Type :=
| OpGetValue (key : string) (ifEmpty : bool)
| OpGetConfigValue (key : string) (ifEmpty : bool)
| OpSetValue (key value : string)
| OpReplaceVariables (input : string).

Definition run_op (h : Vars.Host) (st : State) (op : StoreOp) : State :=
  match op with
  | OpGetValue key ifEmpty => snd (Vars.getValue key ifEmpty st)
  | OpGetConfigValue key ifEmpty => snd (Vars.getConfigValue key ifEmpty st)
  | OpSetValue key value => snd (Vars.setValue key value st)
  | OpReplaceVariables input => snd (Vars.replaceVariables h input st)
  end.

Definition run_ops (h : Vars.Host) (ops : list StoreOp) (st : State) : State :=
  fold_left (run_op h) ops st.

(** No missing-variable warning was logged twice, and a key that was
    warned about is recorded. *)
Definition warned_once (st : State) : Prop :=
  forall t, (missing_warnings t st <= 1)%nat /\
            ((0 < missing_warnings t st)%nat -> t ∈ loggedMissingKeys st).

(** An operation keeps [warned_once]. *)
Definition keeps_warned_once {A} (m : M A) : Prop :=
  forall st, warned_once st -> warned_once (snd (m st)).

(** A byte that white space can hold: TAB to CR, SPACE, or a byte of a
    character outside ASCII. *)
Definition skippable (c : ascii) : bool :=
  Str.is_space1 c || (128 <=? Str.code c)%N.

(** The text starts, after such bytes, with an opening brace. *)
Definition braced (s : string) : Prop :=
  Str.startsWith "{" (snd (Str.span skippable s)) = true.


(** A selector that none of the resolver's syntactic tests recognises: no
    engine prefix, no XPath, CSS or chain marker, no [loc.] prefix. *)
Definition plain_selector (selector : string) : bool :=
  negb (Resolver.isPlaywrightPrefixed selector)
  && negb (Resolver.isPlaywrightChainedPrefixed selector)
  && negb (Resolver.isXPath selector || Resolver.isCSS selector
           || Resolver.isChained selector)
  && negb (Resolver.isResourceLocator selector).

(** A name space made of objects without a prototype, so that no member
    is inherited, in which the lookup finds the one entry
    [login.form.submit]. *)
Definition login_globals : Resolver.Globals unit string :=
  Resolver.mkGlobals unit string
    (Some (fun fileName pageName fieldName =>
             if String.eqb fileName "login" && String.eqb pageName "form"
                && String.eqb fieldName "submit"
             then Resolver.Callable (fun _ => ret (Some "#submit"))
             else Resolver.Missing))
    (fun _ => None) Resolver.Missing Resolver.Missing Resolver.Missing.

(** A process whose configuration enables both engines. *)
Definition engines_enabled_state : State :=
  mkState {[ "config.smartAi.enable" := "true"; "config.patternIq.enable" := "true" ]}
    ∅ ∅ NoFile None [] 0.

(** The variables, the environment, the persisted file, the file system
    and the clock of [st'] are those of [st]: only the record of missing
    keys and the log may differ. *)
Definition same_store (st st' : State) : Prop :=
  storedVars st' = storedVars st /\ process_env st' = process_env st /\
  var_static_json st' = var_static_json st /\ fs_write_fails st' = fs_write_fails st /\
  now st' = now st.

(** An operation that writes no variable. *)
Definition read_only {A} (m : M A) : Prop :=
  forall st, same_store st (snd (m st)).

(** A name made of word characters that does not start with a digit. *)
Definition is_identifier (s : string) : bool :=
  match s with
  | String c _ => negb (Str.is_digit c)
  | EmptyString => false
  end
  && forallb Str.is_word (list_ascii_of_string s).

(** The value a default entry ends up with: the environment variable of
    its name when it is set and not empty, else the stored value when
    there is one that is neither empty nor the name itself, else the
    default. *)
Definition default_choice (st : State) (name value : string) : string :=
  let from_store :=
    match storedVars st !! name with
    | Some s => if Str.is_empty s || String.eqb s name then value else s
    | None => value
    end in
  match process_env st !! name with
  | Some e => if Str.is_empty e then from_store else e
  | None => from_store
  end.

(** A [var.static.json] that holds [null]: reading a member of [null]
    throws. *)
Definition null_file : StaticFile :=
  ParsedOther (fun key _ =>
    Throw (TypeError ("Cannot read properties of null (reading '" +:+ key +:+ "')"))).

(** [var.static.json] is absent, unparsable or an object of strings: the
    three contents to which an entry can always be added. *)
Definition object_file (f : StaticFile) : bool :=
  match f with
  | ParsedOther _ => false
  | _ => true
  end.

(** Persisting an entry goes through: the file system accepts the write
    and [var.static.json], when it exists and parses, holds an object of
    strings. *)
Definition writable (st : State) : Prop :=
  fs_write_fails st = None /\ object_file (var_static_json st) = true.

(** A name [loadDefaults] can take at face value in the state [st]: not
    empty, without surrounding white space, outside the [env.] name space,
    no property of [Object.prototype], and persisted only if persisting
    goes through. *)
Definition default_name (st : State) (name : string) : Prop :=
  name <> EmptyString /\ Str.trim name = name /\
  Str.startsWith "env." name = false /\ inherited name = false /\
  (Str.startsWith "var.static." name = false \/ writable st).

(** A process with [browser] set in its environment and two variables
    stored, one of them under its own name. *)
Definition defaults_state : State :=
  mkState {[ "timeout" := "45"; "locale" := "locale" ]} ∅ {[ "browser" := "firefox" ]}
    NoFile None [] 0.

(** The text under which a setting that is no nested object is stored:
    the elements of an array joined with semicolons, the text of a
    scalar. *)
Definition setting_text (h : Vars.Host) (v : Vars.json) : string :=
  match v with
  | Vars.JArray elements => Flatten.join ";" (map (Flatten.element_text h) elements)
  | Vars.JNull => "null"
  | _ => Flatten.element_text h v
  end.

Definition is_object (v : Vars.json) : bool :=
  match v with
  | Vars.JObject _ => true
  | _ => false
  end.

(** A configuration with a nested section, an array and an index key. *)
Definition sample_config : Vars.json :=
  Vars.JObject
    [ ("browser", Vars.JObject [ ("browserType", Vars.JString "firefox");
                                 ("headless", Vars.JBool false) ]);
      ("tags", Vars.JArray [ Vars.JString "smoke"; Vars.JString "api" ]);
      ("retries", Vars.JNumber (Int 2)) ].



(** A project whose only JSON locator file is [login.json], with the page
    [form] and its field [submit]. *)
Definition json_globals : Resolver.Globals unit string :=
  Resolver.mkGlobals unit string None
    (fun fileName =>
       if String.eqb fileName "login"
       then Some {[ "form" := {[ "submit" := "#submit-#{config.testExecution.actionTimeout}" ]} ]}
       else None)
    Resolver.Missing Resolver.Missing Resolver.Missing.

(** ** Scanning *)

(** For a consuming matcher the scan visits every position of its input
    as soon as the fuel is the length of the input: more fuel changes
    nothing. *)
Lemma scan_fuel {A} (m : string -> option (A * string)) :
  consuming m ->
  forall (fuel fuel' : nat) (s : string),
    (String.length s <= fuel)%nat -> (String.length s <= fuel')%nat ->
    Str.scan fuel m s = Str.scan fuel' m s.
Proof.
  intros Hm fuel. induction fuel as [| fuel IH]; intros fuel' s Hf Hf'.
  - destruct s; [| cbn in Hf; lia]. destruct fuel'; reflexivity.
  - destruct fuel' as [| fuel'].
    + destruct s; [reflexivity | cbn in Hf'; lia].
    + cbn [Str.scan]. destruct s as [| c s]; [reflexivity |].
      cbn [String.length] in Hf, Hf'.
      destruct (m (String c s)) as [[x rest] |] eqn:E.
      * apply Hm in E. cbn [String.length] in E. f_equal. apply IH; lia.
      * f_equal. apply IH; lia.
Qed.

Lemma span_length (p : ascii -> bool) (s : string) :
  String.length s = (String.length (fst (Str.span p s)) + String.length (snd (Str.span p s)))%nat.
Proof.
  induction s as [| c s IH]; [reflexivity |]. cbn [Str.span].
  destruct (p c); [| reflexivity].
  destruct (Str.span p s) as [a b]. cbn [fst snd String.length] in *. lia.
Qed.

Lemma placeholder_at_consuming : consuming Vars.placeholder_at.
Proof.
  intros s x rest. unfold Vars.placeholder_at, Str.guard.
  destruct (Str.startsWith "#{" s) eqn:Hs; [| discriminate].
  destruct s as [| c0 [| c1 s]]; try discriminate.
  cbn [String.length Str.slice].
  pose proof (span_length (fun c => negb (Ascii.eqb c "}")) s) as Hlen.
  destruct (Str.span (fun c => negb (Ascii.eqb c "}")) s) as [varName r'].
  cbn [fst snd] in Hlen.
  destruct (Str.is_empty varName); [discriminate |].
  destruct (Str.startsWith "}" r'); [| discriminate].
  intros [= _ <-]. destruct r'; cbn [String.length] in *; lia.
Qed.

(** ** Reading configuration *)

Lemma truthy_JStr (v : string) : v <> EmptyString -> truthy (JStr v) = true.
Proof. destruct v; [congruence | reflexivity]. Qed.

(** C2, as amended: an override that is set to a non-empty value, under the
    name built from the trimmed key, is what [getConfigValue] returns,
    whatever the store holds; the state is left as it was. *)
Theorem getConfigValue_env_override (k v : string) (ifEmpty : bool) (st : State) :
  process_env st !! override_name (Str.trim k) = Some v ->
  v <> EmptyString ->
  Vars.getConfigValue k ifEmpty st = (Ok (JStr v), st).
Proof.
  intros Hset Hne. unfold Vars.getConfigValue, bind, get.
  unfold override_name in Hset. unfold obj_get at 1. rewrite Hset.
  rewrite (truthy_JStr v Hne). reflexivity.
Qed.

Lemma getConfigValue_env_override_witness :
  Vars.getConfigValue "browser.browserType" false
    (mkState {[ "config.browser.browserType" := "firefox" ]} ∅
             {[ "PLAYQ__browser__browserType" := "webkit" ]} NoFile None [] 0)
  = (Ok (JStr "webkit"),
     mkState {[ "config.browser.browserType" := "firefox" ]} ∅
             {[ "PLAYQ__browser__browserType" := "webkit" ]} NoFile None [] 0).
Proof.
  apply (getConfigValue_env_override "browser.browserType" "webkit").
  - reflexivity.
  - discriminate.
Defined.

(** C2 fails as stated: an override that is set, but to the empty string,
    does not win over the stored value; and for a key with surrounding
    white space the variable that is read is the one of the trimmed key. *)
Lemma getConfigValue_env_override_counterexample :
  (let st := mkState {[ "config.a" := "x" ]} ∅ {[ "PLAYQ__a" := EmptyString ]}
                     NoFile None [] 0 in
   process_env st !! override_name "a" = Some EmptyString /\
   fst (Vars.getConfigValue "a" false st) = Ok (JStr "x") /\
   JStr "x" <> JStr EmptyString) /\
  (let st := mkState ∅ ∅ {[ "PLAYQ__ a" := "v" ]} NoFile None [] 0 in
   process_env st !! override_name " a" = Some "v" /\
   fst (Vars.getConfigValue " a" false st) = Ok (JStr "config.a") /\
   JStr "config.a" <> JStr "v").
Proof. vm_compute. repeat split; discriminate. Qed.

(** C5 at its failing input: in a fresh process the first existence check
    of an unset configuration key answers the empty string, and the very
    same call repeated answers the literal [config.<k>]. *)
Theorem getConfigValue_ifEmpty_second_call :
  let first := Vars.getConfigValue "a" true fresh_state in
  let second := Vars.getConfigValue "a" true (snd first) in
  fst first = Ok (JStr EmptyString) /\
  fst second = Ok (JStr "config.a").
Proof. vm_compute. split; reflexivity. Qed.

(** Once [config.<k>] is recorded in [loggedMissingKeys], whoever recorded
    it, a miss answers the literal key even for an existence check. *)
Lemma getConfigValue_miss_recorded (k : string) (ifEmpty : bool) (st : State) :
  obj_get (process_env st) (override_name (Str.trim k)) = None ->
  storedVars st !! ("config." +:+ Str.trim k) = None ->
  inherited ("config." +:+ Str.trim k) = false ->
  "config." +:+ Str.trim k ∈ loggedMissingKeys st ->
  Vars.getConfigValue k ifEmpty st = (Ok (JStr ("config." +:+ Str.trim k)), st).
Proof.
  intros Henv Hst Hinh Hin. unfold Vars.getConfigValue, bind, get.
  unfold override_name in Henv. rewrite Henv.
  unfold obj_get. rewrite Hst, Hinh.
  rewrite bool_decide_eq_true_2 by exact Hin. reflexivity.
Qed.

(** Without an existence check a miss answers the literal key at every
    call. *)
Lemma getConfigValue_miss_literal (k : string) (st : State) :
  obj_get (process_env st) (override_name (Str.trim k)) = None ->
  obj_get (storedVars st) ("config." +:+ Str.trim k) = None ->
  fst (Vars.getConfigValue k false st) = Ok (JStr ("config." +:+ Str.trim k)).
Proof.
  intros Henv Hst. unfold Vars.getConfigValue, bind, get.
  unfold override_name in Henv. rewrite Henv, Hst.
  destruct (negb _); reflexivity.
Qed.

(** ** Reading and writing the store *)

Lemma setValue_storedVars (k v : string) (st : State) :
  storedVars (snd (Vars.setValue k v st)) = obj_set (storedVars st) k v.
Proof.
  unfold Vars.setValue, Vars.updateVarStaticJson, bind, get, set_storedVars,
    set_var_static_json, console_warn, modify, throw, ret.
  destruct (Str.startsWith "var.static." k); [| reflexivity].
  cbv beta iota. cbn [var_static_json fs_write_fails].
  destruct (var_static_json st) as [| reason | data | assign];
    try destruct (assign (Str.slice 11 k) v);
    destruct (fs_write_fails st); reflexivity.
Qed.

Lemma getValue_stored (k v : string) (st : State) :
  k <> EmptyString ->
  Str.startsWith "env." (Str.trim k) = false ->
  storedVars st !! Str.trim k = Some v ->
  Vars.getValue k false st = (Ok (JStr v), st).
Proof.
  intros Hne Henv Hst. unfold Vars.getValue.
  destruct k as [| c k']; [congruence |]. cbn [Str.is_empty].
  rewrite Henv. unfold bind, get, obj_get. rewrite Hst. reflexivity.
Qed.

(** C7, as amended: a key that is not empty, carries no surrounding white
    space, does not start with [env.] and is not [__proto__] reads back the
    value just written, whether or not persisting it succeeded. *)
Theorem getValue_after_setValue (k v : string) (st : State) :
  k <> EmptyString ->
  Str.trim k = k ->
  Str.startsWith "env." k = false ->
  k <> "__proto__" ->
  let st' := snd (Vars.setValue k v st) in
  Vars.getValue k false st' = (Ok (JStr v), st').
Proof.
  intros Hne Htrim Henv Hproto st'.
  apply getValue_stored; [exact Hne | rewrite Htrim; exact Henv |].
  subst st'. rewrite setValue_storedVars, Htrim. unfold obj_set.
  destruct (String.eqb_spec k "__proto__") as [-> | _]; [congruence |].
  apply lookup_insert_eq.
Qed.

Lemma getValue_after_setValue_witness :
  let st' := snd (Vars.setValue "var.static.centre.code" "0042" fresh_state) in
  Vars.getValue "var.static.centre.code" false st' = (Ok (JStr "0042"), st').
Proof.
  apply (getValue_after_setValue "var.static.centre.code" "0042" fresh_state).
  - discriminate.
  - reflexivity.
  - reflexivity.
  - discriminate.
Defined.

(** C7 fails as stated for four kinds of keys: a key with surrounding white
    space is read back under its trimmed form; a key that starts with
    [env.] is read from the environment; the empty key is answered by
    itself; and [__proto__] cannot be written on a plain object. *)
Lemma getValue_after_setValue_counterexample :
  fst (Vars.getValue " a" false (snd (Vars.setValue " a" "v" fresh_state)))
    = Ok (JStr "a") /\
  fst (Vars.getValue "env.X" false (snd (Vars.setValue "env.X" "v" fresh_state)))
    = Ok (JStr "env.X") /\
  fst (Vars.getValue EmptyString false (snd (Vars.setValue EmptyString "v" fresh_state)))
    = Ok (JStr EmptyString) /\
  fst (Vars.getValue "__proto__" false (snd (Vars.setValue "__proto__" "v" fresh_state)))
    = Ok (JProto "__proto__").
Proof. vm_compute. repeat split. Qed.

(** ** The missing-variable warning *)

Lemma obj_get_absent (o : gmap string string) (k : string) :
  obj_in k o = false -> obj_get o k = None.
Proof.
  unfold obj_in, obj_get. destruct (o !! k); [discriminate |].
  intros ->. reflexivity.
Qed.

Section MissingKey.

Variables (k : string) (st : State).
Let t := Str.trim k.
Hypothesis k_not_empty : k <> EmptyString.
Hypothesis t_not_env : Str.startsWith "env." t = false.
Hypothesis t_absent : obj_in t (storedVars st) = false.

(** The first miss logs the warning and records the key. *)
Lemma getValue_missing_first :
  t ∉ loggedMissingKeys st ->
  Vars.getValue k false st =
    (Ok (JStr t),
     mkState (storedVars st) ({[ t ]} ∪ loggedMissingKeys st) (process_env st)
       (var_static_json st) (fs_write_fails st)
       (Vars.warn_not_found t :: warnings st) (now st)).
Proof.
  intros Hfresh. unfold Vars.getValue.
  destruct k as [| c k'] eqn:Ek; [congruence |]. cbn [Str.is_empty].
  fold t. rewrite t_not_env. unfold bind at 1, get at 1.
  rewrite (obj_get_absent _ _ t_absent).
  rewrite bool_decide_eq_false_2 by exact Hfresh. reflexivity.
Qed.

(** A miss on a recorded key logs nothing and changes nothing. *)
Lemma getValue_missing_again :
  t ∈ loggedMissingKeys st ->
  Vars.getValue k false st = (Ok (JStr t), st).
Proof.
  intros Hseen. unfold Vars.getValue.
  destruct k as [| c k'] eqn:Ek; [congruence |]. cbn [Str.is_empty].
  fold t. rewrite t_not_env. unfold bind at 1, get at 1.
  rewrite (obj_get_absent _ _ t_absent).
  rewrite bool_decide_eq_true_2 by exact Hseen. reflexivity.
Qed.

End MissingKey.

Lemma getValue_times_recorded (k : string) (n : nat) (st : State) :
  k <> EmptyString ->
  Str.startsWith "env." (Str.trim k) = false ->
  obj_in (Str.trim k) (storedVars st) = false ->
  Str.trim k ∈ loggedMissingKeys st ->
  getValue_times n k st = st.
Proof.
  intros Hne Henv Habs Hseen. induction n as [| n IH]; [reflexivity |].
  cbn [getValue_times]. rewrite getValue_missing_again by assumption. exact IH.
Qed.

(** C8, as amended: for a key that is not empty and whose trimmed form [t]
    does not start with [env.], is no property of the store, and is not yet
    recorded in [loggedMissingKeys], the first of any number of calls in a
    row logs the warning for [t], no later call logs anything, and so the
    warning is logged exactly once. *)
Theorem getValue_missing_warned_once (k : string) (st : State) (n : nat) :
  k <> EmptyString ->
  Str.startsWith "env." (Str.trim k) = false ->
  obj_in (Str.trim k) (storedVars st) = false ->
  Str.trim k ∉ loggedMissingKeys st ->
  warnings (getValue_times 1 k st) = Vars.warn_not_found (Str.trim k) :: warnings st /\
  getValue_times (S n) k st = getValue_times 1 k st /\
  missing_warnings (Str.trim k) (getValue_times (S n) k st)
    = S (missing_warnings (Str.trim k) st).
Proof.
  intros Hne Henv Habs Hfresh.
  assert (Hone : getValue_times 1 k st =
            mkState (storedVars st) ({[ Str.trim k ]} ∪ loggedMissingKeys st)
              (process_env st) (var_static_json st) (fs_write_fails st)
              (Vars.warn_not_found (Str.trim k) :: warnings st) (now st)).
  { cbn [getValue_times]. rewrite getValue_missing_first by assumption. reflexivity. }
  assert (Hall : getValue_times (S n) k st = getValue_times 1 k st).
  { change (getValue_times (S n) k st)
      with (getValue_times n k (getValue_times 1 k st)).
    rewrite Hone. apply getValue_times_recorded; cbn; try assumption. set_solver. }
  split; [rewrite Hone; reflexivity |]. split; [exact Hall |].
  rewrite Hall, Hone. unfold missing_warnings. cbn [warnings].
  rewrite filter_cons_True by reflexivity. reflexivity.
Qed.

Lemma getValue_missing_warned_once_witness :
  warnings (getValue_times 1 "var.user" fresh_state)
    = Vars.warn_not_found "var.user" :: warnings fresh_state /\
  getValue_times 100 "var.user" fresh_state = getValue_times 1 "var.user" fresh_state /\
  missing_warnings "var.user" (getValue_times 100 "var.user" fresh_state)
    = S (missing_warnings "var.user" fresh_state).
Proof.
  apply (getValue_missing_warned_once "var.user" fresh_state 99).
  - discriminate.
  - reflexivity.
  - reflexivity.
  - apply not_elem_of_empty.
Defined.

(** C8 fails as stated for keys that are absent from the store and yet
    never warned about: a key that starts with [env.]; the empty key, which
    logs another warning at every call; a [config.] key that an earlier
    [getConfigValue] recorded without logging; a key whose trimmed form is
    stored; and a key a plain object inherits. *)
Lemma getValue_missing_warned_once_counterexample :
  missing_warnings "env.HOME" (getValue_times 100 "env.HOME" fresh_state) = 0 /\
  warnings (getValue_times 2 EmptyString fresh_state)
    = [Vars.warn_empty_key; Vars.warn_empty_key] /\
  (let st := snd (Vars.getConfigValue "a" false fresh_state) in
   storedVars st !! "config.a" = None /\
   warnings (getValue_times 100 "config.a" st) = []) /\
  (let st := mkState {[ "a" := "1" ]} ∅ ∅ NoFile None [] 0 in
   storedVars st !! " a" = None /\
   warnings (getValue_times 100 " a" st) = []) /\
  warnings (getValue_times 100 "toString" fresh_state) = [].
Proof. vm_compute. repeat split. Qed.

(** ** Placeholders *)

(** C4 at its failing input: a [toNumber] placeholder on a key that is
    absent from the store is replaced by the coercion of the key text,
    [NaN], and not by the empty string; a stored value of white space is
    coerced to [0]; only the stored empty string gives the empty string. *)
Theorem replaceVariables_toNumber_missing (h : Vars.Host) :
  fst (Vars.replaceVariables h "#{foo.(toNumber)}" fresh_state) = Ok "NaN" /\
  fst (Vars.replaceVariables h "#{foo.(toNumber)}"
         (mkState {[ "foo" := "  " ]} ∅ ∅ NoFile None [] 0)) = Ok "0" /\
  fst (Vars.replaceVariables h "#{foo.(toNumber)}"
         (mkState {[ "foo" := EmptyString ]} ∅ ∅ NoFile None [] 0)) = Ok EmptyString /\
  fst (Vars.replaceVariables h "#{foo.(toNumber)}"
         (mkState {[ "foo" := "42" ]} ∅ ∅ NoFile None [] 0)) = Ok "42".
Proof. vm_compute. repeat split. Qed.

Lemma getValue_returns (k : string) (ifEmpty : bool) (st : State) :
  exists v st', Vars.getValue k ifEmpty st = (Ok v, st').
Proof.
  unfold Vars.getValue, bind, get, ret, console_warn, set_loggedMissingKeys, modify.
  destruct (Str.is_empty k); [eauto |].
  destruct (Str.startsWith "env." (Str.trim k)).
  - destruct (obj_get (process_env st) _) as [v |]; [| eauto].
    destruct (truthy v); eauto.
  - destruct (obj_get (storedVars st) _) as [v |]; [eauto |].
    destruct (negb ifEmpty && _); eauto.
Qed.

Lemma decrypt_or_literal (h : Vars.Host) (kind text varName : string) (st : State) :
  exists out st',
    try_catch (Vars.lift (Vars.decrypt h text))
      (fun error =>
         console_warn ["Warning: Could not decrypt " +:+ kind +:+ " value:"; message error] ;;;
         ret varName) st = (Ok out, st').
Proof.
  unfold try_catch, Vars.lift, bind, console_warn, modify, ret.
  destruct (Vars.decrypt h text); eauto.
Qed.

Lemma resolve_returns (h : Vars.Host) (varName : string) (st : State) :
  exists out st', Vars.resolve h varName st = (Ok out, st').
Proof.
  unfold Vars.resolve.
  destruct (Str.startsWith "pwd." varName);
    [apply (decrypt_or_literal h "pwd") |].
  destruct (Str.startsWith "enc." varName);
    [apply (decrypt_or_literal h "enc") |].
  destruct (Str.endsWith ".(toNumber)" varName); unfold bind.
  - destruct (getValue_returns (Str.replaceFirst ".(toNumber)" EmptyString varName)
                false st) as (v & st' & ->).
    unfold ret. eauto.
  - destruct (getValue_returns varName false st) as (v & st' & ->).
    unfold ret. eauto.
Qed.

Lemma substitute_returns (h : Vars.Host) (pieces : list (ascii + string)) (st : State) :
  exists out st', Vars.substitute h pieces st = (Ok out, st').
Proof.
  revert st. induction pieces as [| [c | varName] rest IH]; intros st; cbn [Vars.substitute].
  - unfold ret. eauto.
  - unfold bind. destruct (IH st) as (out & st' & ->). unfold ret. eauto.
  - unfold bind. destruct (resolve_returns h varName st) as (text & st1 & ->).
    destruct (IH st1) as (out & st' & ->). unfold ret. eauto.
Qed.

Lemma span_until_brace (v rest : string) :
  Str.includes "}" v = false ->
  Str.span (fun c => negb (Ascii.eqb c "}")) (v +:+ "}" +:+ rest) = (v, "}" +:+ rest).
Proof.
  induction v as [| c v IH]; intros Hno; [reflexivity |].
  cbn [Str.includes Str.startsWith] in Hno.
  apply orb_false_iff in Hno as [Hc Hv].
  rewrite andb_true_r in Hc. rewrite Ascii.eqb_sym in Hc.
  change (String c v +:+ "}" +:+ rest) with (String c (v +:+ "}" +:+ rest)).
  cbn [Str.span]. rewrite Hc. cbn [negb]. rewrite (IH Hv). reflexivity.
Qed.

Lemma placeholder_at_braces (v rest : string) :
  v <> EmptyString ->
  Str.includes "}" v = false ->
  Vars.placeholder_at ("#{" +:+ v +:+ "}" +:+ rest) = Some (v, rest).
Proof.
  intros Hne Hno.
  change ("#{" +:+ v +:+ "}" +:+ rest) with (String "#" (String "{" (v +:+ "}" +:+ rest))).
  unfold Vars.placeholder_at, Str.guard at 1.
  cbn [Str.startsWith Ascii.eqb Bool.eqb andb String.length Str.slice].
  rewrite (span_until_brace v rest Hno).
  destruct v as [| c v]; [congruence |]. reflexivity.
Qed.



Lemma append_empty (s : string) : s +:+ EmptyString = s.
Proof.
  induction s as [| c s IH]; [reflexivity |].
  change (String c s +:+ EmptyString) with (String c (s +:+ EmptyString)).
  rewrite IH. reflexivity.
Qed.



(** ** Loose JSON *)

(** C6: the options string of the example parses to the object with the
    three properties [name], [locator] and [count].  The locator expression
    is masked first; the quote, key, literal and comma rewrites see only
    the placeholder; the expression is restored, quoted, before the text
    is parsed. *)
Theorem parseLooseJson_locator_example (h : Vars.Host) :
  let masked := "{name: " +:+ Str.dquote +:+ "x" +:+ Str.dquote
                +:+ ", locator: __LOCATOR_PLACEHOLDER_0__, count: 3}" in
  let value := Str.dquote +:+ "xpath=//div[@id=1]" +:+ Str.dquote in
  let normalized := "{" +:+ Str.dquote +:+ "name" +:+ Str.dquote +:+ ": "
                    +:+ Str.dquote +:+ "x" +:+ Str.dquote +:+ ", "
                    +:+ Str.dquote +:+ "locator" +:+ Str.dquote
                    +:+ ": __LOCATOR_PLACEHOLDER_0__, "
                    +:+ Str.dquote +:+ "count" +:+ Str.dquote +:+ ": 3}" in
  Vars.mask_locators (Vars.wrap locator_options) = (masked, [value]) /\
  Vars.normalize (Vars.requote masked) = normalized /\
  Vars.restore [value] 0 normalized
    = "{" +:+ Str.dquote +:+ "name" +:+ Str.dquote +:+ ": "
      +:+ Str.dquote +:+ "x" +:+ Str.dquote +:+ ", "
      +:+ Str.dquote +:+ "locator" +:+ Str.dquote +:+ ": " +:+ value +:+ ", "
      +:+ Str.dquote +:+ "count" +:+ Str.dquote +:+ ": 3}" /\
  Vars.parseLooseJson h locator_options
    = Ok (Vars.JObject [ ("name", Vars.JString "x");
                         ("locator", Vars.JString "xpath=//div[@id=1]");
                         ("count", Vars.JNumber (Int 3)) ]).
Proof. vm_compute. repeat split. Qed.

(** ** The locator resolver *)

Section ResolverFacts.

Variables Page Locator : Type.
Variable locator : Page -> string -> Locator.

Lemma loc_not_prefixed (selector : string) :
  Resolver.isResourceLocator selector = true ->
  Resolver.isPlaywrightPrefixed selector = false /\
  Resolver.isPlaywrightChainedPrefixed selector = false.
Proof.
  unfold Resolver.isResourceLocator. destruct selector as [| c s]; [discriminate |].
  cbn [Str.startsWith]. destruct (Ascii.eqb_spec "l" c) as [<- | _]; [| discriminate].
  intros _. split; reflexivity.
Qed.

(** C1, as amended: a selector that starts with [loc.], but not with
    [loc.json.], and whose entry is missing from the name space under the
    bare reading, and for the [loc.ts.] form under the explicit reading as
    well, makes the resolver throw: the format error when it has fewer
    than three segments, the unknown-source error otherwise.  No later
    strategy is tried and the state is left as it was. *)
Theorem webLocResolver_loc_missing_throws
  (h : Vars.Host) (g : Resolver.Globals Page Locator) (type selector : string)
  (page : Page) (overridePattern : option string) (timeout : option jsnum)
  (smartAiRefresh : string) (st : State) :
  let parts := Str.split "." selector in
  Resolver.isResourceLocator selector = true ->
  Str.startsWith "loc.json." selector = false ->
  Resolver.loc_lookup Page Locator g (Resolver.key_of (parts !! 1%nat))
    (Resolver.key_of (parts !! 2%nat)) (Resolver.key_of (parts !! 3%nat)) = Resolver.Missing ->
  (Str.startsWith "loc.ts." selector = true ->
   Resolver.loc_lookup Page Locator g (Resolver.key_of (parts !! 2%nat))
     (Resolver.key_of (parts !! 3%nat)) (Resolver.key_of (parts !! 4%nat)) = Resolver.Missing) ->
  Resolver.webLocResolver Page Locator locator h g type selector page overridePattern
    timeout smartAiRefresh st
  = (Throw (JsError
       (if (length parts <? 3)%nat
        then "❌ Invalid locator format: " +:+ Str.dquote +:+ selector +:+ Str.dquote
             +:+ ". Expected format: loc.(ts|json).<page>.<field>"
        else "❌ Unknown locator source type " +:+ Str.dquote
             +:+ Resolver.key_of (parts !! 1%nat) +:+ Str.dquote
             +:+ ". Use loc. or locator.")), st).
Proof.
  intros parts Hloc Hjson Hbare Hts.
  destruct (loc_not_prefixed selector Hloc) as [Hp Hc].
  unfold Resolver.webLocResolver. rewrite Hp, Hc, Hloc.
  rewrite andb_false_r. unfold Resolver.resolve_resource. fold parts.
  destruct (length parts <? 3)%nat; [reflexivity |].
  rewrite Hjson.
  destruct (Str.startsWith "loc.ts." selector).
  - rewrite (Hts eq_refl), Hbare. reflexivity.
  - rewrite Hbare. reflexivity.
Qed.

End ResolverFacts.

Lemma webLocResolver_loc_missing_throws_witness :
  Resolver.webLocResolver unit string selector_handle no_crypto ts_globals
    "button" "loc.ts.login.form.user" tt None None EmptyString fresh_state
  = (Throw (JsError ("❌ Unknown locator source type " +:+ Str.dquote +:+ "ts"
                     +:+ Str.dquote +:+ ". Use loc. or locator.")), fresh_state).
Proof.
  apply (webLocResolver_loc_missing_throws unit string selector_handle no_crypto
           ts_globals "button" "loc.ts.login.form.user" tt None None EmptyString
           fresh_state).
  - reflexivity.
  - reflexivity.
  - reflexivity.
  - intros _. reflexivity.
Defined.

(** C1 fails as stated on both halves: a bare reference with no entry
    throws, with nothing registered at all, where falling through would
    have reached the default locator; and an explicit [loc.ts.] reference
    with no entry returns a handle when the bare reading of the same
    selector finds one. *)
Lemma webLocResolver_loc_missing_counterexample :
  fst (Resolver.webLocResolver unit string selector_handle no_crypto no_globals
         "button" "loc.login.form.user" tt None None EmptyString fresh_state)
    = Throw (JsError ("❌ Unknown locator source type " +:+ Str.dquote +:+ "login"
                      +:+ Str.dquote +:+ ". Use loc. or locator.")) /\
  fst (Resolver.resolve_delegated unit string selector_handle no_globals
         "button" "loc.login.form.user" tt None None EmptyString fresh_state)
    = Ok (Some "loc.login.form.user") /\
  Resolver.loc_lookup unit string ts_globals "f" "p" "x" = Resolver.Missing /\
  fst (Resolver.webLocResolver unit string selector_handle no_crypto ts_globals
         "button" "loc.ts.f.p.x" tt None None EmptyString fresh_state)
    = Ok (Some "found").
Proof. vm_compute. repeat split. Qed.

Section EscapeHatch.

Variables Page Locator : Type.
Variable locator : Page -> string -> Locator.

(** C3, as amended.  For a selector that no earlier strategy claims (no
    engine prefix, no raw-selector shape, no [loc.] reference), an override
    pattern that reads [-no-check-], in any letter case, makes the resolver
    return [undefined] without consulting the configuration, the engines
    or the driver; the state is left as it was.  A selector that an earlier
    strategy claims (prefixed, raw or [loc.]) is resolved or rejected by
    that strategy before the escape hatch is looked at: whatever the
    override pattern, the call does what it does without one. *)
Theorem webLocResolver_no_check
  (h : Vars.Host) (g : Resolver.Globals Page Locator) (type selector : string)
  (page : Page) (overridePattern : string) (timeout : option jsnum)
  (smartAiRefresh : string) (st : State) :
  (plain_selector selector = true ->
   Str.toLowerCase overridePattern = "-no-check-" ->
   Resolver.webLocResolver Page Locator locator h g type selector page
     (Some overridePattern) timeout smartAiRefresh st
   = (Ok None, st)) /\
  (plain_selector selector = false ->
   Resolver.webLocResolver Page Locator locator h g type selector page
     (Some overridePattern) timeout smartAiRefresh st
   = Resolver.webLocResolver Page Locator locator h g type selector page
       None timeout smartAiRefresh st).
Proof.
  unfold plain_selector, Resolver.webLocResolver.
  destruct (Resolver.isPlaywrightPrefixed selector);
    [split; [discriminate | reflexivity] |].
  destruct (Resolver.isPlaywrightChainedPrefixed selector);
    [split; [discriminate | reflexivity] |].
  destruct (Resolver.isXPath selector || Resolver.isCSS selector
            || Resolver.isChained selector);
    destruct (Resolver.isResourceLocator selector); cbn [negb andb];
    try (split; [discriminate | reflexivity]).
  split; [| discriminate]. intros _ Htoken. rewrite Htoken.
  destruct overridePattern; [discriminate |]. reflexivity.
Qed.

End EscapeHatch.

Lemma webLocResolver_no_check_witness :
  Resolver.webLocResolver unit string selector_handle no_crypto no_globals
    "button" "Submit" tt (Some "-NO-CHECK-") None EmptyString fresh_state
  = (Ok None, fresh_state) /\
  Resolver.webLocResolver unit string selector_handle no_crypto login_globals
    "button" "loc.login.form.submit" tt (Some "-no-check-") None EmptyString fresh_state
  = Resolver.webLocResolver unit string selector_handle no_crypto login_globals
      "button" "loc.login.form.submit" tt None None EmptyString fresh_state.
Proof.
  split.
  - exact (proj1 (webLocResolver_no_check unit string selector_handle no_crypto
                    no_globals "button" "Submit" tt "-NO-CHECK-" None EmptyString
                    fresh_state) eq_refl eq_refl).
  - exact (proj2 (webLocResolver_no_check unit string selector_handle no_crypto
                    login_globals "button" "loc.login.form.submit" tt "-no-check-"
                    None EmptyString fresh_state) eq_refl).
Defined.

(** C3 fails as stated: with the override pattern [-no-check-], a prefixed
    selector and a raw selector still produce a handle, and a resource
    reference with no entry still throws. *)
Lemma webLocResolver_no_check_counterexample :
  fst (Resolver.webLocResolver unit string selector_handle no_crypto no_globals
         "button" "xpath=//div" tt (Some "-no-check-") None EmptyString fresh_state)
    = Ok (Some "//div") /\
  fst (Resolver.webLocResolver unit string selector_handle no_crypto no_globals
         "button" "#submit" tt (Some "-no-check-") None EmptyString fresh_state)
    = Ok (Some "#submit") /\
  fst (Resolver.webLocResolver unit string selector_handle no_crypto no_globals
         "button" "loc.login.form.user" tt (Some "-no-check-") None EmptyString
         fresh_state)
    = Throw (JsError ("❌ Unknown locator source type " +:+ Str.dquote +:+ "login"
                      +:+ Str.dquote +:+ ". Use loc. or locator.")).
Proof. vm_compute. repeat split. Qed.

(** ** Waiting for a text *)

Lemma startsWith_app (x b : string) : Str.startsWith x (x +:+ b) = true.
Proof.
  induction x as [| c x IH]; [destruct b; reflexivity |].
  change (String c x +:+ b) with (String c (x +:+ b)).
  cbn [Str.startsWith]. rewrite Ascii.eqb_refl. exact IH.
Qed.

Lemma includes_head (x b : string) : Str.includes x (x +:+ b) = true.
Proof.
  destruct (x +:+ b) eqn:E; cbn [Str.includes]; rewrite <- E, startsWith_app; reflexivity.
Qed.

Lemma includes_app (a x s : string) :
  Str.includes x s = true -> Str.includes x (a +:+ s) = true.
Proof.
  intros H. induction a as [| c a IH]; [exact H |].
  change (String c a +:+ s) with (String c (a +:+ s)).
  cbn [Str.includes]. rewrite IH. apply orb_true_r.
Qed.

Lemma now_at_instant (t : Z) (st : State) : now (at_instant t st) = t.
Proof. reflexivity. Qed.

Lemma at_instant_twice (t t' : Z) (st : State) :
  at_instant t (at_instant t' st) = at_instant t st.
Proof. reflexivity. Qed.

Section WaitFacts.

Variables Page Locator : Type.
Variable locator : Page -> string -> Locator.
Variable w : Wait.World Page Locator.
Variable handle : Locator.
Variables (start z : Z) (expectedText : string) (partialMatch ignoreCase : bool).

Local Abbreviation read t := (Wait.innerText Page Locator w handle t).
Local Abbreviation hit text :=
  (Wait.matches Page Locator w partialMatch ignoreCase expectedText (Str.trim text)).
Local Abbreviation loop fuel last st :=
  (Wait.poll Page Locator w fuel (Some handle) start (Int z) expectedText
     partialMatch ignoreCase last st).

(** One turn of the loop. *)
Lemma poll_step (fuel : nat) (last : string) (st : State) :
  loop (S fuel) last st =
    if (now st - start <? z)%Z then
      match fst (read (now st)) with
      | Ok text =>
          if hit text
          then (Ok (Some (true, Str.trim text)),
                at_instant (now st + Z.of_N (snd (read (now st)))) st)
          else loop fuel (Str.trim text) (at_instant (next_poll w handle (now st)) st)
      | Throw e => (Throw e, at_instant (now st + Z.of_N (snd (read (now st)))) st)
      end
    else (Ok (Some (false, last)), st).
Proof.
  cbn [Wait.poll]. unfold bind at 1, get at 1. cbn [Wait.less_than].
  destruct (now st - start <? z)%Z; [| reflexivity].
  unfold next_poll. destruct (read (now st)) as [[text | e] d]; cbn [fst snd].
  - unfold bind, Wait.sleep, get, set_now, modify, Vars.lift, ret, at_instant. cbn.
    destruct (hit text); reflexivity.
  - reflexivity.
Qed.

Lemma next_poll_later (c : Z) : (c + 300 <= next_poll w handle c)%Z.
Proof. unfold next_poll. lia. Qed.

Lemma poll_instant_later (i : nat) (c : Z) :
  (c + 300 * Z.of_nat i <= poll_instant w handle c i)%Z.
Proof.
  revert c. induction i as [| i IH]; intros c; cbn [poll_instant]; [lia |].
  pose proof (IH (next_poll w handle c)). pose proof (next_poll_later c). lia.
Qed.

Hypothesis reads_settle : forall t, exists text, fst (read t) = Ok text.

(** A poll that starts before the deadline and reads a matching text ends
    the loop with [found] set, at that poll or at an earlier one. *)
Lemma poll_finds (i : nat) :
  forall (fuel : nat) (last : string) (st : State),
    (i < fuel)%nat ->
    (poll_instant w handle (now st) i - start < z)%Z ->
    (exists text, observed w handle (now st) i = Ok text /\ hit text = true) ->
    exists actual st', loop fuel last st = (Ok (Some (true, actual)), st').
Proof.
  induction i as [| i IH]; intros fuel last st Hfuel Hbefore (text & Hread & Hhit);
    (destruct fuel as [| fuel]; [lia |]); rewrite poll_step.
  - cbn [poll_instant] in Hbefore. unfold observed in Hread. cbn [poll_instant] in Hread.
    rewrite (proj2 (Z.ltb_lt _ _) Hbefore), Hread, Hhit. eauto.
  - pose proof (poll_instant_later (S i) (now st)) as Hlater.
    rewrite (proj2 (Z.ltb_lt (now st - start) z)) by lia.
    destruct (reads_settle (now st)) as (first & ->).
    destruct (hit first); [eauto |].
    apply IH; [lia | exact Hbefore | exists text; split; assumption].
Qed.

(** When no poll that starts before the deadline reads a matching text,
    the loop ends with [found] unset at the first poll instant that is not
    before the deadline; [lastActual] is the trimmed text of the poll
    before it. *)
Lemma poll_times_out (fuel : nat) :
  forall (last : string) (st : State),
    (0 < fuel)%nat ->
    (z - (now st - start) <= 300 * (Z.of_nat fuel - 1))%Z ->
    (forall i text,
        (poll_instant w handle (now st) i - start < z)%Z ->
        observed w handle (now st) i = Ok text -> hit text = false) ->
    exists n,
      (z <= poll_instant w handle (now st) n - start)%Z /\
      (forall j, (j < n)%nat -> (poll_instant w handle (now st) j - start < z)%Z) /\
      loop fuel last st =
        (Ok (Some (false, last_text w handle (now st) n last)),
         at_instant (poll_instant w handle (now st) n) st).
Proof.
  induction fuel as [| fuel IH]; intros last st Hpos Hfuel Hmiss; [lia |].
  rewrite poll_step. destruct (Z.ltb_spec (now st - start) z) as [Hlt | Hge].
  - destruct (reads_settle (now st)) as (text & Hread). rewrite Hread.
    rewrite (Hmiss 0%nat text Hlt Hread).
    pose proof (next_poll_later (now st)) as Hnext.
    destruct (IH (Str.trim text) (at_instant (next_poll w handle (now st)) st))
      as (n & Hdead & Hlive & Hloop).
    + lia.
    + rewrite now_at_instant. lia.
    + rewrite now_at_instant. intros i later. exact (Hmiss (S i) later).
    + rewrite now_at_instant in Hdead, Hlive, Hloop. rewrite at_instant_twice in Hloop.
      exists (S n). cbn [poll_instant]. split; [exact Hdead |]. split.
      * intros [| j] Hj; cbn [poll_instant]; [exact Hlt | apply Hlive; lia].
      * rewrite Hloop. f_equal. f_equal. f_equal. f_equal.
        destruct n as [| n]; cbn [last_text].
        -- unfold observed. cbn [poll_instant]. rewrite Hread. reflexivity.
        -- unfold observed. cbn [poll_instant].
           destruct (reads_settle (poll_instant w handle (next_poll w handle (now st)) n))
             as (later & ->).
           reflexivity.
  - exists 0%nat. cbn [poll_instant last_text]. split; [lia |]. split; [intros j Hj; lia |].
    destruct st; reflexivity.
Qed.

End WaitFacts.

Lemma getConfigValue_stored (k v : string) (ifEmpty : bool) (st : State) :
  obj_get (process_env st) (override_name (Str.trim k)) = None ->
  storedVars st !! ("config." +:+ Str.trim k) = Some v ->
  Vars.getConfigValue k ifEmpty st = (Ok (JStr v), st).
Proof.
  intros Henv Hst. unfold Vars.getConfigValue, bind, get.
  unfold override_name in Henv. rewrite Henv.
  unfold obj_get. rewrite Hst. reflexivity.
Qed.

Section WaitContract.

Variables Page Locator : Type.
Variable locator : Page -> string -> Locator.
Variables (h : Vars.Host) (g : Resolver.Globals Page Locator).
Variable w : Wait.World Page Locator.

(** The Cucumber world, when there is one, accepts every attachment. *)
Hypothesis attach_callable :
  Wait.world_attach Page Locator w <> Resolver.NotCallable.
Hypothesis attach_accepts :
  forall attach, Wait.world_attach Page Locator w = Resolver.Callable attach ->
                 forall body mimeType, attach body mimeType = Ok tt.

Lemma attachLog_returns (message mimeType : string) (st : State) :
  exists st', Wait.attachLog Page Locator w message mimeType st = (Ok tt, st').
Proof.
  unfold Wait.attachLog. destruct (Str.is_empty message).
  { unfold console_warn, modify. eauto. }
  unfold bind, get. destruct (Wait.is_runner "cucumber" st).
  - destruct (Wait.world_attach Page Locator w) as [| | attach] eqn:E.
    + unfold console_warn, modify. eauto.
    + congruence.
    + unfold Vars.lift. rewrite (attach_accepts attach eq_refl). eauto.
  - destruct (Wait.is_runner "playwright" st); unfold ret, console_warn, modify; eauto.
Qed.

Lemma processScreenshot_returns (page : Page) (shouldTake : bool) (text : option string)
  (fullPage : bool) (st : State) :
  Wait.page_screenshot Page Locator w page fullPage = Ok tt ->
  exists st', Wait.processScreenshot Page Locator w (Some page) shouldTake text
                (Some fullPage) None st
              = (Ok tt, st').
Proof.
  intros Hshot. unfold Wait.processScreenshot. cbv zeta.
  destruct shouldTake; cbn [negb]; [| unfold ret; eauto].
  unfold bind at 1, Vars.lift at 1. rewrite Hshot.
  unfold try_catch.
  match goal with |- context [match ?m st with _ => _ end] => destruct (m st) as [[[] | e] st'] end.
  - eauto.
  - unfold console_warn, modify. eauto.
Qed.

(** C9, as amended: with the action timeout taken from the configuration, a
    location that resolves to a handle whose reads settle, a Cucumber world
    that accepts its attachments and a driver that takes its screenshots,
    the call returns normally as soon as some poll that starts before the
    deadline reads the expected text; and when no poll that starts before
    the deadline reads it, the call throws, at the first poll instant that
    is not before the deadline, the error whose message carries the timeout
    and the trimmed text of the last poll.  The fuel covers one poll per
    300 ms of the timeout. *)
Theorem waitForTextAtLocation_polling_contract
  (fuel : nat) (page : Page) (field : string + Locator) (expectedText : string)
  (options : Wait.Options) (configured : string) (z : Z) (handle : Locator)
  (st st1 : State) :
  let partialMatch := Wait.default (Wait.partialMatch options) false in
  let ignoreCase := Wait.default (Wait.ignoreCase options) true in
  let outcome :=
    fst (Wait.waitForTextAtLocation Page Locator locator h g w fuel (Some page) field
           expectedText options st) in
  let hit text :=
    Wait.matches Page Locator w partialMatch ignoreCase expectedText (Str.trim text) in
  Wait.actionTimeout options = None ->
  obj_get (process_env st) "PLAYQ__testExecution__actionTimeout" = None ->
  storedVars st !! "config.testExecution.actionTimeout" = Some configured ->
  Number configured = Int z ->
  Wait.target_of_field Page Locator locator h g page field (Wait.pattern options) (Int z) st
    = (Ok (Some handle), st1) ->
  (forall t, exists text, fst (Wait.innerText Page Locator w handle t) = Ok text) ->
  (forall fullPage, Wait.page_screenshot Page Locator w page fullPage = Ok tt) ->
  (0 < fuel)%nat ->
  (z <= 300 * (Z.of_nat fuel - 1))%Z ->
  ((exists i text,
      (poll_instant w handle (now st1) i - now st1 < z)%Z /\
      observed w handle (now st1) i = Ok text /\ hit text = true) ->
   outcome = Ok (Some tt)) /\
  ((forall i text,
       (poll_instant w handle (now st1) i - now st1 < z)%Z ->
       observed w handle (now st1) i = Ok text -> hit text = false) ->
   exists n,
     let lastActual := last_text w handle (now st1) n EmptyString in
     let msg := Wait.timeout_message Page Locator h w field expectedText (Int z) lastActual in
     (z <= poll_instant w handle (now st1) n - now st1)%Z /\
     (forall j, (j < n)%nat -> (poll_instant w handle (now st1) j - now st1 < z)%Z) /\
     outcome = Throw (JsError msg) /\
     Str.includes (Z_text z) msg = true /\
     Str.includes lastActual msg = true).
Proof.
  intros partialMatch ignoreCase outcome hit Hopt Henv Hcfg Hnum Htarget Hsettle Hshot
    Hpos Hfuel.
  assert (Hrun : forall found lastActual st2,
            Wait.poll Page Locator w fuel (Some handle) (now st1) (Int z) expectedText
              partialMatch ignoreCase EmptyString st1 = (Ok (Some (found, lastActual)), st2) ->
            outcome =
              if negb found
              then Throw (JsError (Wait.timeout_message Page Locator h w field expectedText
                                     (Int z) lastActual))
              else Ok (Some tt)).
  { intros found lastActual st2 Hpoll. subst outcome.
    unfold Wait.waitForTextAtLocation. rewrite Hopt. unfold bind at 1 2.
    rewrite (getConfigValue_stored "testExecution.actionTimeout" configured false st Henv Hcfg).
    unfold ret at 1. cbn [ToNumber]. rewrite Hnum.
    unfold Wait.doWaitForTextAtLocation. unfold bind at 1.
    fold partialMatch ignoreCase. rewrite Htarget.
    unfold bind at 1, get at 1. unfold bind at 1. rewrite Hpoll.
    destruct found; cbn [negb].
    - unfold bind at 1.
      destruct (attachLog_returns
                  (Wait.success_message Page Locator w field expectedText)
                  "text/plain" st2) as (st3 & ->).
      unfold bind at 1.
      match goal with
      | |- context [Wait.processScreenshot _ _ _ (Some ?p) ?b ?t (Some ?f) None st3] =>
          destruct (processScreenshot_returns p b t f st3 (Hshot f)) as (st4 & ->)
      end.
      reflexivity.
    - unfold bind at 1.
      destruct (attachLog_returns
                  (Wait.timeout_message Page Locator h w field expectedText (Int z)
                     lastActual) "text/plain" st2) as (st3 & ->).
      reflexivity. }
  split.
  - intros (i & text & Hbefore & Hobs & Hhit).
    pose proof (poll_instant_later Page Locator w handle i (now st1)) as Hlater.
    destruct (poll_finds Page Locator w handle (now st1) z expectedText partialMatch
                ignoreCase Hsettle i fuel EmptyString st1) as (actual & st2 & Hpoll).
    + lia.
    + exact Hbefore.
    + exists text. split; assumption.
    + rewrite (Hrun true actual st2 Hpoll). reflexivity.
  - intros Hmiss.
    destruct (poll_times_out Page Locator w handle (now st1) z expectedText partialMatch
                ignoreCase Hsettle fuel EmptyString st1 Hpos) as (n & Hdead & Hlive & Hpoll).
    + lia.
    + exact Hmiss.
    + exists n. cbv zeta. split; [exact Hdead |]. split; [exact Hlive |].
      rewrite (Hrun false _ _ Hpoll). split; [reflexivity |].
      unfold Wait.timeout_message. cbn [Vars.Number_text]. split.
      * do 9 apply includes_app. apply includes_head.
      * do 12 apply includes_app. apply includes_head.
Qed.

End WaitContract.

Lemma waitForTextAtLocation_polling_contract_witness :
  fst (Wait.waitForTextAtLocation unit string selector_handle no_crypto no_globals
         (page_world 1200) 100 (Some tt) (inl "h1") "Welcome" partial_match
         configured_state) = Ok (Some tt) /\
  exists n,
    fst (Wait.waitForTextAtLocation unit string selector_handle no_crypto no_globals
           stuck_world 100 (Some tt) (inl "h1") "Welcome" partial_match
           configured_state)
    = Throw (JsError (Wait.timeout_message unit string no_crypto stuck_world (inl "h1")
                        "Welcome" (Int 5000)
                        (last_text stuck_world "h1" (now resolved_state) n EmptyString))).
Proof.
  split.
  - apply (waitForTextAtLocation_polling_contract unit string selector_handle no_crypto
             no_globals (page_world 1200) ltac:(discriminate) ltac:(discriminate)
             100 tt (inl "h1") "Welcome" partial_match
             "5000" 5000 "h1" configured_state resolved_state).
    + reflexivity.
    + reflexivity.
    + reflexivity.
    + reflexivity.
    + reflexivity.
    + intros t. eexists. reflexivity.
    + intros fullPage. reflexivity.
    + lia.
    + lia.
    + exists 4%nat, "Welcome back". repeat split.
  - destruct (proj2 (waitForTextAtLocation_polling_contract unit string selector_handle
                       no_crypto no_globals stuck_world
                       ltac:(discriminate) ltac:(discriminate)
                       100 tt (inl "h1") "Welcome"
                       partial_match "5000" 5000 "h1" configured_state resolved_state
                       eq_refl eq_refl eq_refl eq_refl eq_refl
                       (fun t => ex_intro _ "Loading" eq_refl)
                       (fun fullPage => eq_refl)
                       ltac:(lia) ltac:(lia)))
      as (n & _ & _ & Hthrow & _).
    + intros i text _ Hread. injection Hread as <-. reflexivity.
    + exists n. exact Hthrow.
Defined.

(** C9 fails as stated: the expected text is at the location 4900 ms after
    the start, before the timeout of 5000 ms elapses, and stays there; the
    polls at 0, 300, ..., 4800 ms read [Loading], the next loop test is at
    5100 ms, and the call throws the timeout error. *)
Lemma waitForTextAtLocation_polling_contract_counterexample :
  now resolved_state = 0%Z /\
  fst (Wait.innerText unit string (page_world 4900) "h1" 4900) = Ok "Welcome back" /\
  Wait.matches unit string (page_world 4900) true true "Welcome"
    (Str.trim "Welcome back") = true /\
  fst (Wait.waitForTextAtLocation unit string selector_handle no_crypto no_globals
         (page_world 4900) 100 (Some tt) (inl "h1") "Welcome" partial_match
         configured_state)
    = Throw (JsError ("❌ Text " +:+ Str.dquote +:+ "Welcome" +:+ Str.dquote
                      +:+ " did not appear at location " +:+ Str.dquote +:+ "h1"
                      +:+ Str.dquote +:+ " within 5000ms. Last actual: "
                      +:+ Str.dquote +:+ "Loading" +:+ Str.dquote)) /\
  now (snd (Wait.waitForTextAtLocation unit string selector_handle no_crypto no_globals
              (page_world 4900) 100 (Some tt) (inl "h1") "Welcome" partial_match
              configured_state)) = 5100%Z.
Proof. vm_compute. repeat split. Qed.

(** * Further properties of the variable store *)

(** ** Placeholders in context *)

Lemma length_app (a b : string) :
  String.length (a +:+ b) = (String.length a + String.length b)%nat.
Proof.
  induction a as [| c a IH]; [reflexivity |].
  change (String c a +:+ b) with (String c (a +:+ b)).
  cbn [String.length]. rewrite IH. reflexivity.
Qed.

Lemma placeholder_at_none (s : string) :
  Str.startsWith "#{" s = false -> Vars.placeholder_at s = None.
Proof. intros H. unfold Vars.placeholder_at, Str.guard. rewrite H. reflexivity. Qed.

Lemma scan_empty {A} (fuel : nat) (m : string -> option (A * string)) :
  Str.scan fuel m EmptyString = [].
Proof. destruct fuel; reflexivity. Qed.

Lemma scan_hit {A} (m : string -> option (A * string)) (fuel : nat)
  (s : string) (x : A) (rest : string) :
  m s = Some (x, rest) -> s <> EmptyString ->
  Str.scan (S fuel) m s = inr x :: Str.scan fuel m rest.
Proof.
  intros Hm Hs. destruct s; [congruence |]. cbn [Str.scan]. rewrite Hm. reflexivity.
Qed.

(** The text before the first placeholder is copied. *)
Lemma substitute_prefix (h : Vars.Host) (rest : string) :
  Str.startsWith "{" rest = false ->
  forall (pre : string) (fuel fuel' : nat) (st : State),
    Str.includes "#{" pre = false ->
    (String.length (pre +:+ rest) <= fuel)%nat ->
    (String.length rest <= fuel')%nat ->
    Vars.substitute h (Str.scan fuel Vars.placeholder_at (pre +:+ rest)) st =
      (out <- Vars.substitute h (Str.scan fuel' Vars.placeholder_at rest) ;;
       ret (pre +:+ out)) st.
Proof.
  intros Hrest. induction pre as [| c pre IH]; intros fuel fuel' st Hno Hf Hf'.
  - change (EmptyString +:+ rest) with rest in *.
    rewrite (scan_fuel _ placeholder_at_consuming fuel fuel' rest Hf Hf').
    unfold bind, ret.
    destruct (Vars.substitute h _ st) as [[out | e] st']; reflexivity.
  - cbn [Str.includes] in Hno. apply orb_false_iff in Hno as [Hhead Hno].
    change (String c pre +:+ rest) with (String c (pre +:+ rest)) in *.
    cbn [String.length] in Hf. destruct fuel as [| fuel]; [lia |].
    cbn [Str.scan]. rewrite placeholder_at_none.
    + cbn [Vars.substitute]. unfold bind at 1.
      rewrite (IH fuel fuel' st Hno) by lia.
      unfold bind, ret.
      destruct (Vars.substitute h _ st) as [[out | e] st']; reflexivity.
    + cbn [Str.startsWith] in Hhead |- *.
      destruct (Ascii.eqb "#" c); [| reflexivity]. cbn [andb] in Hhead |- *.
      destruct pre as [| d pre]; [| exact Hhead].
      change (EmptyString +:+ rest) with rest. destruct rest as [| r rest]; [reflexivity |].
      cbn [Str.startsWith] in Hrest |- *. rewrite andb_true_r in *. exact Hrest.
Qed.

(** X1: an input in which [#{] does not occur is returned as it is, and
    the state is left as it was. *)
Theorem replaceVariables_no_placeholder (h : Vars.Host) (input : string) (st : State) :
  Str.includes "#{" input = false ->
  Vars.replaceVariables h input st = (Ok input, st).
Proof.
  intros Hno. unfold Vars.replaceVariables.
  pose proof (substitute_prefix h EmptyString eq_refl input (String.length input) 0 st Hno)
    as H.
  rewrite append_empty in H. rewrite H; [| lia | cbn; lia].
  cbn. unfold ret. rewrite append_empty. reflexivity.
Qed.

Lemma replaceVariables_no_placeholder_witness :
  Vars.replaceVariables no_crypto "//div[@id='main'] # {x}" fresh_state
  = (Ok "//div[@id='main'] # {x}", fresh_state).
Proof.
  apply (replaceVariables_no_placeholder no_crypto "//div[@id='main'] # {x}" fresh_state).
  reflexivity.
Defined.

(** X2: a placeholder in context.  When [#{] does not occur before it, the
    text before a placeholder is copied, the placeholder is replaced by
    what the callback answers for its expression, and the rest of the
    input is substituted in the state the callback leaves. *)
Theorem replaceVariables_around_placeholder
  (h : Vars.Host) (pre varName post : string) (st : State) :
  Str.includes "#{" pre = false ->
  varName <> EmptyString ->
  Str.includes "}" varName = false ->
  Vars.replaceVariables h (pre +:+ "#{" +:+ varName +:+ "}" +:+ post) st =
    (text <- Vars.resolve h varName ;;
     out <- Vars.replaceVariables h post ;;
     ret (pre +:+ text +:+ out)) st.
Proof.
  intros Hpre Hne Hno. unfold Vars.replaceVariables at 1.
  etransitivity.
  { apply (substitute_prefix h ("#{" +:+ varName +:+ "}" +:+ post) eq_refl pre _
             (S (S (String.length (varName +:+ "}" +:+ post)))) st Hpre);
      [lia | reflexivity]. }
  rewrite (scan_hit _ _ _ varName post (placeholder_at_braces varName post Hne Hno))
    by discriminate.
  rewrite (scan_fuel _ placeholder_at_consuming _ (String.length post) post);
    [| rewrite !length_app; cbn; lia | lia].
  cbn [Vars.substitute]. unfold Vars.replaceVariables, bind, ret.
  destruct (Vars.resolve h varName st) as [[text | e] st1]; [| reflexivity].
  destruct (Vars.substitute h _ st1) as [[out | e] st2]; reflexivity.
Qed.

Lemma replaceVariables_around_placeholder_witness :
  Vars.replaceVariables no_crypto ("Hello " +:+ "#{" +:+ "user" +:+ "}" +:+ ", bye")
    (mkState {[ "user" := "Ann" ]} ∅ ∅ NoFile None [] 0)
  = (text <- Vars.resolve no_crypto "user" ;;
     out <- Vars.replaceVariables no_crypto ", bye" ;;
     ret ("Hello " +:+ text +:+ out))
      (mkState {[ "user" := "Ann" ]} ∅ ∅ NoFile None [] 0).
Proof.
  apply (replaceVariables_around_placeholder no_crypto "Hello " "user" ", bye").
  - reflexivity.
  - discriminate.
  - reflexivity.
Defined.

(** ** The warning is logged at most once, whatever the operations *)

Lemma app_inv_head (a x y : string) : a +:+ x = a +:+ y -> x = y.
Proof.
  induction a as [| c a IH]; [trivial |].
  change (String c a +:+ x) with (String c (a +:+ x)).
  change (String c a +:+ y) with (String c (a +:+ y)).
  intros [= H]. exact (IH H).
Qed.

Lemma app_inv_last (c : ascii) (x y : string) :
  x +:+ String c EmptyString = y +:+ String c EmptyString -> x = y.
Proof.
  revert y. induction x as [| a x IH]; intros [| b y];
    try change (String a x +:+ String c EmptyString)
          with (String a (x +:+ String c EmptyString));
    try change (String b y +:+ String c EmptyString)
          with (String b (y +:+ String c EmptyString));
    change (EmptyString +:+ String c EmptyString) with (String c EmptyString).
  - trivial.
  - intros [= _ H]. destruct y; discriminate H.
  - intros [= _ H]. destruct x; discriminate H.
  - intros [= -> H]. f_equal. exact (IH y H).
Qed.

Lemma warn_not_found_inj (k t : string) :
  Vars.warn_not_found k = Vars.warn_not_found t -> k = t.
Proof.
  unfold Vars.warn_not_found. intros [= H].
  apply app_inv_head in H. exact (app_inv_last _ _ _ H).
Qed.

Lemma warn_empty_key_other (t : string) : Vars.warn_empty_key <> Vars.warn_not_found t.
Proof. unfold Vars.warn_empty_key, Vars.warn_not_found. intros [=]. Qed.

Lemma missing_warnings_cons (t : string) (args : list string) (st : State) :
  missing_warnings t (snd (console_warn args st)) =
    ((if decide (args = Vars.warn_not_found t) then 1 else 0) + missing_warnings t st)%nat.
Proof.
  unfold missing_warnings, console_warn, modify. cbn [snd warnings].
  destruct (decide (args = Vars.warn_not_found t)) as [E | E].
  - rewrite filter_cons_True by exact E. reflexivity.
  - rewrite filter_cons_False by exact E. reflexivity.
Qed.

Lemma warned_once_ext (st st' : State) :
  warnings st' = warnings st ->
  loggedMissingKeys st ⊆ loggedMissingKeys st' ->
  warned_once st -> warned_once st'.
Proof.
  intros Hw Hl Hinv t. destruct (Hinv t) as [Hle Hin].
  unfold missing_warnings in *. rewrite Hw. split; [exact Hle |].
  intros Hpos. apply Hl, Hin, Hpos.
Qed.

Lemma keeps_ret {A} (a : A) : keeps_warned_once (ret a).
Proof. intros st H. exact H. Qed.

Lemma keeps_throw {A} (e : Error) : keeps_warned_once (@throw A e).
Proof. intros st H. exact H. Qed.

Lemma keeps_lift {A} (r : Result A) : keeps_warned_once (Vars.lift r).
Proof. intros st H. exact H. Qed.

Lemma keeps_bind {A B} (m : M A) (k : A -> M B) :
  keeps_warned_once m -> (forall a, keeps_warned_once (k a)) ->
  keeps_warned_once (bind m k).
Proof.
  intros Hm Hk st H. unfold bind. specialize (Hm st H).
  destruct (m st) as [[a | e] st']; cbn [snd] in *; [apply Hk, Hm | exact Hm].
Qed.

Lemma keeps_get {B} (k : State -> M B) :
  (forall st, warned_once st -> warned_once (snd (k st st))) ->
  keeps_warned_once (bind get k).
Proof. intros Hk st H. unfold bind, get. apply Hk, H. Qed.

Lemma keeps_try_catch {A} (m : M A) (handler : Error -> M A) :
  keeps_warned_once m -> (forall e, keeps_warned_once (handler e)) ->
  keeps_warned_once (try_catch m handler).
Proof.
  intros Hm Hh st H. unfold try_catch. specialize (Hm st H).
  destruct (m st) as [[a | e] st']; cbn [snd] in *; [exact Hm | apply Hh, Hm].
Qed.

(** A warning of another kind changes no count. *)
Lemma keeps_console_warn (args : list string) :
  (forall t, args <> Vars.warn_not_found t) -> keeps_warned_once (console_warn args).
Proof.
  intros Hother st Hinv t. destruct (Hinv t) as [Hle Hin].
  rewrite missing_warnings_cons.
  destruct (decide (args = Vars.warn_not_found t)) as [E | _]; [destruct (Hother t E) |].
  split; [exact Hle | exact Hin].
Qed.

Lemma keeps_set_storedVars (o : gmap string string) : keeps_warned_once (set_storedVars o).
Proof. intros st. apply warned_once_ext; reflexivity. Qed.

Lemma keeps_set_var_static_json (f : StaticFile) : keeps_warned_once (set_var_static_json f).
Proof. intros st. apply warned_once_ext; reflexivity. Qed.

Lemma keeps_record (k : string) (st : State) :
  warned_once st ->
  warned_once (snd (set_loggedMissingKeys ({[ k ]} ∪ loggedMissingKeys st) st)).
Proof. apply warned_once_ext; [reflexivity | cbn; set_solver]. Qed.

(** The first miss of a key that is not recorded: one warning, and the key
    is recorded with it. *)
Lemma keeps_first_miss (k : string) (st : State) :
  k ∉ loggedMissingKeys st ->
  warned_once st ->
  warned_once
    (snd ((console_warn (Vars.warn_not_found k) ;;;
           set_loggedMissingKeys ({[ k ]} ∪ loggedMissingKeys st)) st)).
Proof.
  intros Hfresh Hinv t. destruct (Hinv t) as [Hle Hin].
  unfold bind. cbn [console_warn modify set_loggedMissingKeys snd fst].
  change (missing_warnings t _)
    with (missing_warnings t (snd (console_warn (Vars.warn_not_found k) st))).
  rewrite missing_warnings_cons. cbn [loggedMissingKeys].
  destruct (decide (Vars.warn_not_found k = Vars.warn_not_found t)) as [E | _].
  - apply warn_not_found_inj in E. subst t.
    assert (missing_warnings k st = 0%nat) as ->.
    { destruct (missing_warnings k st); [reflexivity |]. destruct Hfresh. apply Hin. lia. }
    split; [lia | intros _; set_solver].
  - split; [exact Hle | intros Hpos; specialize (Hin Hpos); set_solver].
Qed.

Lemma getValue_keeps (key : string) (ifEmpty : bool) :
  keeps_warned_once (Vars.getValue key ifEmpty).
Proof.
  unfold Vars.getValue. destruct (Str.is_empty key).
  { apply keeps_bind; [| intros; apply keeps_ret].
    apply keeps_console_warn. intros t E. exact (warn_empty_key_other t E). }
  destruct (Str.startsWith "env." (Str.trim key)).
  - apply keeps_get. intros st H.
    destruct (obj_get (process_env st) _) as [v |]; [destruct (truthy v) |]; exact H.
  - apply keeps_get. intros st H.
    destruct (obj_get (storedVars st) _) as [v |]; [exact H |].
    destruct (negb ifEmpty && negb (bool_decide (Str.trim key ∈ loggedMissingKeys st)))
      eqn:Hc.
    + apply andb_true_iff in Hc as [_ Hc]. apply negb_true_iff in Hc.
      apply bool_decide_eq_false in Hc.
      pose proof (keeps_first_miss (Str.trim key) st Hc H) as Hstep.
      unfold bind in *. cbn in *. exact Hstep.
    + exact H.
Qed.

Lemma getConfigValue_keeps (key : string) (ifEmpty : bool) :
  keeps_warned_once (Vars.getConfigValue key ifEmpty).
Proof.
  assert (Hlookup : keeps_warned_once
            (st <- get ;;
             match obj_get (storedVars st) ("config." +:+ Str.trim key) with
             | Some v => ret v
             | None =>
                 if negb (bool_decide ("config." +:+ Str.trim key ∈ loggedMissingKeys st))
                 then set_loggedMissingKeys
                        ({[ "config." +:+ Str.trim key ]} ∪ loggedMissingKeys st) ;;;
                      (if ifEmpty then ret (JStr EmptyString)
                       else ret (JStr ("config." +:+ Str.trim key)))
                 else ret (JStr ("config." +:+ Str.trim key))
             end)).
  { apply keeps_get. intros st H.
    destruct (obj_get (storedVars st) _); [exact H |].
    destruct (negb _); [| exact H].
    unfold bind. cbn [set_loggedMissingKeys modify].
    destruct ifEmpty; apply (keeps_record _ st H). }
  unfold Vars.getConfigValue. apply keeps_get. intros st H.
  destruct (obj_get (process_env st) _) as [v |]; [destruct (truthy v) |];
    try exact H; apply Hlookup, H.
Qed.

Lemma setValue_keeps (key value : string) : keeps_warned_once (Vars.setValue key value).
Proof.
  unfold Vars.setValue. apply keeps_get. intros st H.
  apply keeps_bind; [apply keeps_set_storedVars | | exact H]. intros _.
  destruct (Str.startsWith "var.static." key); [| apply keeps_ret].
  unfold Vars.updateVarStaticJson. apply keeps_get. intros st' H'.
  apply keeps_bind; [| | exact H'].
  - destruct (var_static_json st') as [| reason | data | assign]; try apply keeps_ret.
    + apply keeps_bind; [| intros; apply keeps_ret].
      apply keeps_console_warn. intros t. unfold Vars.warn_not_found. discriminate.
    + intros st0 H0. exact H0.
  - intros data. destruct (fs_write_fails st');
      [apply keeps_throw | apply keeps_set_var_static_json].
Qed.

Lemma resolve_keeps (h : Vars.Host) (varName : string) :
  keeps_warned_once (Vars.resolve h varName).
Proof.
  assert (Hdec : forall kind text,
            keeps_warned_once
              (try_catch (Vars.lift (Vars.decrypt h text))
                 (fun error =>
                    console_warn [kind; message error] ;;; ret varName))).
  { intros kind text. apply keeps_try_catch; [apply keeps_lift |]. intros e.
    apply keeps_bind; [| intros; apply keeps_ret].
    apply keeps_console_warn. intros t. unfold Vars.warn_not_found. discriminate. }
  unfold Vars.resolve.
  destruct (Str.startsWith "pwd." varName); [apply Hdec |].
  destruct (Str.startsWith "enc." varName); [apply Hdec |].
  destruct (Str.endsWith ".(toNumber)" varName);
    (apply keeps_bind; [apply getValue_keeps | intros; apply keeps_ret]).
Qed.

Lemma replaceVariables_keeps (h : Vars.Host) (input : string) :
  keeps_warned_once (Vars.replaceVariables h input).
Proof.
  unfold Vars.replaceVariables.
  induction (Str.scan _ _ input) as [| [c | varName] rest IH]; cbn [Vars.substitute].
  - apply keeps_ret.
  - apply keeps_bind; [exact IH | intros; apply keeps_ret].
  - apply keeps_bind; [apply resolve_keeps |]. intros text.
    apply keeps_bind; [exact IH | intros; apply keeps_ret].
Qed.

Lemma run_ops_keeps (h : Vars.Host) (ops : list StoreOp) (st : State) :
  warned_once st -> warned_once (run_ops h ops st).
Proof.
  unfold run_ops. revert st. induction ops as [| op ops IH]; intros st H; [exact H |].
  cbn [fold_left]. apply IH. destruct op; cbn [run_op].
  - apply getValue_keeps, H.
  - apply getConfigValue_keeps, H.
  - apply setValue_keeps, H.
  - apply replaceVariables_keeps, H.
Qed.

(** X3: in a process that starts with nothing logged, whatever sequence of
    [getValue], [getConfigValue], [setValue] and [replaceVariables] calls
    runs, with whatever arguments, the missing-variable warning of any one
    key is logged at most once. *)
Theorem missing_warning_at_most_once (h : Vars.Host) (ops : list StoreOp) (t : string) :
  (missing_warnings t (run_ops h ops fresh_state) <= 1)%nat.
Proof.
  apply (run_ops_keeps h ops fresh_state).
  intros k. cbn. split; [lia | intros Hpos; lia].
Qed.

(** ** Existence checks, and what a write leaves alone *)

(** X4: an existence check ([ifEmpty] set) on a key that is not empty logs
    nothing and changes nothing; it answers the empty string for a key
    that is no property of the store, and also for a key whose stored
    value is the key itself. *)
Theorem getValue_existence_check (key : string) (st : State) :
  key <> EmptyString ->
  snd (Vars.getValue key true st) = st /\
  (Str.startsWith "env." (Str.trim key) = false ->
   (obj_in (Str.trim key) (storedVars st) = false \/
    storedVars st !! Str.trim key = Some (Str.trim key)) ->
   fst (Vars.getValue key true st) = Ok (JStr EmptyString)).
Proof.
  intros Hne. unfold Vars.getValue.
  destruct key as [| c key']; [congruence |]. cbn [Str.is_empty].
  set (t := Str.trim (String c key')).
  destruct (Str.startsWith "env." t); unfold bind, get.
  - split; [| discriminate].
    destruct (obj_get (process_env st) _) as [v |]; [destruct (truthy v) |]; reflexivity.
  - split.
    + destruct (obj_get (storedVars st) t); reflexivity.
    + intros _ [Habsent | Hself].
      * rewrite (obj_get_absent _ _ Habsent). reflexivity.
      * unfold obj_get. rewrite Hself. cbn. rewrite String.eqb_refl. reflexivity.
Qed.

Lemma getValue_existence_check_witness :
  Vars.getValue " user " true (mkState {[ "user" := "user" ]} ∅ ∅ NoFile None [] 0)
  = (Ok (JStr EmptyString), mkState {[ "user" := "user" ]} ∅ ∅ NoFile None [] 0).
Proof.
  destruct (getValue_existence_check " user "
              (mkState {[ "user" := "user" ]} ∅ ∅ NoFile None [] 0)) as [Hst Hval].
  - discriminate.
  - apply injective_projections; [apply Hval | exact Hst].
    + reflexivity.
    + right. reflexivity.
Defined.

Lemma obj_get_set_other (o : gmap string string) (k v k' : string) :
  k' <> k -> obj_get (obj_set o k v) k' = obj_get o k'.
Proof.
  intros Hne. unfold obj_set, obj_get.
  destruct (String.eqb k "__proto__"); [reflexivity |].
  rewrite lookup_insert_ne by congruence. reflexivity.
Qed.

Lemma setValue_frame (k v : string) (st : State) :
  process_env (snd (Vars.setValue k v st)) = process_env st /\
  loggedMissingKeys (snd (Vars.setValue k v st)) = loggedMissingKeys st /\
  fs_write_fails (snd (Vars.setValue k v st)) = fs_write_fails st /\
  now (snd (Vars.setValue k v st)) = now st.
Proof.
  unfold Vars.setValue, Vars.updateVarStaticJson, bind, get, set_storedVars,
    set_var_static_json, console_warn, modify, throw, ret.
  destruct (Str.startsWith "var.static." k); [| repeat split].
  cbv beta iota. cbn [var_static_json fs_write_fails].
  destruct (var_static_json st) as [| reason | data | assign];
    try destruct (assign (Str.slice 11 k) v);
    destruct (fs_write_fails st); repeat split.
Qed.

(** What [getValue] answers depends on the property of the store under
    the trimmed key and on the environment only. *)
Lemma getValue_answer_ext (key : string) (ifEmpty : bool) (st1 st2 : State) :
  obj_get (storedVars st1) (Str.trim key) = obj_get (storedVars st2) (Str.trim key) ->
  process_env st1 = process_env st2 ->
  fst (Vars.getValue key ifEmpty st1) = fst (Vars.getValue key ifEmpty st2).
Proof.
  intros Hst Henv. unfold Vars.getValue.
  destruct (Str.is_empty key); [reflexivity |].
  destruct (Str.startsWith "env." (Str.trim key)); unfold bind, get.
  - rewrite Henv.
    destruct (obj_get (process_env st2) _) as [v |]; [destruct (truthy v) |]; reflexivity.
  - rewrite Hst. destruct (obj_get (storedVars st2) _) as [v |]; [reflexivity |].
    destruct (negb ifEmpty && negb (bool_decide (_ ∈ loggedMissingKeys st1)));
      destruct (negb ifEmpty && negb (bool_decide (_ ∈ loggedMissingKeys st2)));
      reflexivity.
Qed.

(** X5: writing a key does not change what [getValue] answers for any key
    whose trimmed form is another one, even when persisting the write
    throws. *)
Theorem setValue_other_keys (k v key : string) (ifEmpty : bool) (st : State) :
  Str.trim key <> k ->
  fst (Vars.getValue key ifEmpty (snd (Vars.setValue k v st)))
  = fst (Vars.getValue key ifEmpty st).
Proof.
  intros Hne. apply getValue_answer_ext.
  - rewrite setValue_storedVars. apply obj_get_set_other, Hne.
  - apply setValue_frame.
Qed.

Lemma setValue_other_keys_witness :
  fst (Vars.getValue " a " false
         (snd (Vars.setValue "var.static.b" "2"
                 (mkState {[ "a" := "1" ]} ∅ ∅ (Unparsable "Unexpected end") None [] 0))))
  = fst (Vars.getValue " a " false
           (mkState {[ "a" := "1" ]} ∅ ∅ (Unparsable "Unexpected end") None [] 0)).
Proof.
  apply (setValue_other_keys "var.static.b" "2" " a " false). discriminate.
Defined.

(** X6: writing [var.static.<name>] when the file system accepts the write.
    When [var.static.json] holds an object of strings, the call returns
    normally and leaves the file holding the previous entries and [name]
    with the new value; a file that was absent, or present but unparsable,
    is replaced by one that holds this entry alone.  When the file holds
    any other JSON value, the call does what the assignment to that value
    does: it throws the error of the assignment and leaves the file as it
    was (a TypeError when the file holds [null]), or it returns normally
    and the file holds what the assignment made of the value. *)
Theorem setValue_persists (name value : string) (st : State) :
  fs_write_fails st = None ->
  let after := Vars.setValue ("var.static." +:+ name) value st in
  match var_static_json st with
  | ParsedOther assign =>
      match assign name value with
      | Ok file => fst after = Ok tt /\ var_static_json (snd after) = file
      | Throw e =>
          fst after = Throw e /\ var_static_json (snd after) = var_static_json st
      end
  | file =>
      fst after = Ok tt /\
      var_static_json (snd after)
      = Parsed (obj_set (match file with
                         | Parsed data => data
                         | _ => ∅
                         end) name value)
  end.
Proof.
  intros Hfs after. subst after.
  unfold Vars.setValue.
  change (Str.startsWith "var.static." ("var.static." +:+ name)) with true.
  change (Str.slice 11 ("var.static." +:+ name)) with name.
  unfold Vars.updateVarStaticJson, bind, get, set_storedVars, set_var_static_json,
    console_warn, modify, throw, ret.
  cbv beta iota. cbn [var_static_json fs_write_fails].
  destruct (var_static_json st) as [| reason | data | assign];
    cbv beta iota; cbn [var_static_json fs_write_fails].
  4: destruct (assign name value) as [file | e].
  all: cbv beta iota; cbn [var_static_json fs_write_fails];
    try rewrite Hfs; split; reflexivity.
Qed.

Lemma setValue_persists_witness :
  (let after := Vars.setValue ("var.static." +:+ "centre.code") "0042"
                  (mkState ∅ ∅ ∅ (Parsed {[ "user" := "ann" ]}) None [] 0) in
   fst after = Ok tt /\
   var_static_json (snd after)
   = Parsed (obj_set {[ "user" := "ann" ]} "centre.code" "0042")) /\
  (let after := Vars.setValue ("var.static." +:+ "user") "ann"
                  (mkState ∅ ∅ ∅ null_file None [] 0) in
   fst after = Throw (TypeError "Cannot read properties of null (reading 'user')") /\
   var_static_json (snd after) = null_file).
Proof.
  split.
  - exact (setValue_persists "centre.code" "0042"
             (mkState ∅ ∅ ∅ (Parsed {[ "user" := "ann" ]}) None [] 0) eq_refl).
  - exact (setValue_persists "user" "ann" (mkState ∅ ∅ ∅ null_file None [] 0) eq_refl).
Defined.

(** ** What [parseLooseJson] can return *)

Lemma guard_head {A} (p : ascii) (pat' : string) (c : ascii) (r : string)
  (k : string -> option A) (x : A) :
  Str.guard (String p pat') (String c r) k = Some x -> c = p.
Proof.
  unfold Str.guard. cbn [Str.startsWith].
  destruct (Ascii.eqb_spec p c) as [-> | _]; [reflexivity | discriminate].
Qed.

Lemma braced_skip (c : ascii) (s : string) :
  skippable c = true -> braced (String c s) <-> braced s.
Proof.
  intros H. unfold braced. cbn [Str.span]. rewrite H.
  destruct (Str.span skippable s) as [a b]. reflexivity.
Qed.

Lemma braced_stop (c : ascii) (s : string) :
  skippable c = false -> braced (String c s) <-> c = "{"%char.
Proof.
  intros H. unfold braced. cbn [Str.span]. rewrite H. cbn [snd Str.startsWith].
  rewrite andb_true_r. rewrite Ascii.eqb_eq. split; congruence.
Qed.

Lemma braced_head (x : string) (t : string) :
  Str.startsWith "{" x = true -> braced (x +:+ t).
Proof.
  destruct x as [| x0 x]; [discriminate |]. cbn [Str.startsWith].
  rewrite andb_true_r. intros H. apply Ascii.eqb_eq in H. subst x0.
  change (String "{" x +:+ t) with (String "{" (x +:+ t)).
  apply braced_stop; reflexivity.
Qed.

Lemma space_lead_skippable (c : ascii) :
  Str.is_space_lead c = true -> skippable c = true /\ c <> "{"%char.
Proof.
  unfold Str.is_space_lead, skippable, Str.is_space1. cbv zeta. intros H.
  split; [| intros ->; discriminate].
  repeat (apply orb_true_iff in H as [H | H]); apply N.eqb_eq in H; rewrite H; reflexivity.
Qed.

Lemma space2_skippable (c1 c2 : ascii) :
  Str.is_space2 c1 c2 = true -> skippable c2 = true.
Proof.
  unfold Str.is_space2, skippable, Str.is_space1. cbv zeta. intros H.
  apply andb_true_iff in H as [_ H]. apply N.eqb_eq in H. rewrite H. reflexivity.
Qed.

Lemma space3_skippable (c1 c2 c3 : ascii) :
  Str.is_space3 c1 c2 c3 = true -> skippable c2 = true /\ skippable c3 = true.
Proof.
  unfold Str.is_space3, skippable. cbv zeta. intros H.
  assert (128 <= Str.code c2 /\ 128 <= Str.code c3)%N as [H2 H3].
  { repeat first [rewrite orb_true_iff in H | rewrite andb_true_iff in H
                  | rewrite N.eqb_eq in H | rewrite N.leb_le in H].
    lia. }
  apply N.leb_le in H2, H3. rewrite H2, H3, !orb_true_r. split; reflexivity.
Qed.

(** A text that starts with the brace once trimmed is braced: white space
    is made of skippable bytes. *)
Lemma trimStart_braced (s : string) :
  Str.startsWith "{" (Str.trimStart s) = true -> braced s.
Proof.
  remember (String.length s) as n eqn:Hn. revert s Hn.
  induction n as [n IH] using lt_wf_ind. intros s Hn.
  destruct s as [| c1 r1]; [discriminate |].
  cbn [String.length] in Hn.
  unfold Str.trimStart. cbn [Str.span_white].
  assert (Hstop : Str.startsWith "{" (String c1 r1) = true -> braced (String c1 r1)).
  { intros H. cbn [Str.startsWith] in H. rewrite andb_true_r in H. apply Ascii.eqb_eq in H.
    subst c1. apply braced_stop; reflexivity. }
  destruct (Str.is_space1 c1) eqn:S1.
  - destruct (Str.span_white r1) as [a b] eqn:E. cbn [snd]. intros H.
    apply braced_skip; [unfold skippable; rewrite S1; reflexivity |].
    apply (IH (String.length r1)); [lia | reflexivity |].
    unfold Str.trimStart. rewrite E. exact H.
  - destruct (Str.is_space_lead c1) eqn:L; [| exact Hstop].
    destruct (space_lead_skippable c1 L) as [K1 N1].
    destruct r1 as [| c2 r2]; [exact Hstop |].
    cbn [String.length] in Hn.
    destruct (Str.is_space2 c1 c2) eqn:S2.
    + destruct (Str.span_white r2) as [a b] eqn:E. cbn [snd]. intros H.
      apply braced_skip; [exact K1 |].
      apply braced_skip; [exact (space2_skippable c1 c2 S2) |].
      apply (IH (String.length r2)); [lia | reflexivity |].
      unfold Str.trimStart. rewrite E. exact H.
    + destruct r2 as [| c3 r3]; [exact Hstop |].
      cbn [String.length] in Hn.
      destruct (Str.is_space3 c1 c2 c3) eqn:S3; [| exact Hstop].
      destruct (space3_skippable c1 c2 c3 S3) as [K2 K3].
      destruct (Str.span_white r3) as [a b] eqn:E. cbn [snd]. intros H.
      apply braced_skip; [exact K1 |].
      apply braced_skip; [exact K2 |].
      apply braced_skip; [exact K3 |].
      apply (IH (String.length r3)); [lia | reflexivity |].
      unfold Str.trimStart. rewrite E. exact H.
Qed.

(** A rewrite pass whose pattern cannot start on a skippable byte, and
    which at an opening brace puts a text that starts with the brace, keeps
    the text braced. *)
Lemma unscan_braced (m : string -> option (string * string)) :
  (forall c r x rest, m (String c r) = Some (x, rest) ->
                      skippable c = false /\
                      (c = "{"%char -> Str.startsWith "{" x = true)) ->
  forall (s : string) (fuel : nat),
    (String.length s <= fuel)%nat ->
    braced s -> braced (Str.unscan (Str.scan fuel m s)).
Proof.
  intros Hm s. induction s as [| c s IH]; intros fuel Hf Hb; [discriminate |].
  cbn [String.length] in Hf. destruct fuel as [| fuel]; [lia |].
  cbn [Str.scan].
  destruct (m (String c s)) as [[x rest] |] eqn:E.
  - destruct (Hm _ _ _ _ E) as [Hsp Hx].
    apply (braced_stop c s Hsp) in Hb.
    cbn [Str.unscan]. apply braced_head, Hx, Hb.
  - cbn [Str.unscan]. destruct (skippable c) eqn:K.
    + apply (braced_skip c _ K). apply IH; [lia |]. apply (braced_skip c s K), Hb.
    + apply (braced_stop c _ K). apply (braced_stop c s K), Hb.
Qed.

Lemma replaceAll_braced (m : string -> option (string * string)) (s : string) :
  (forall c r x rest, m (String c r) = Some (x, rest) ->
                      skippable c = false /\
                      (c = "{"%char -> Str.startsWith "{" x = true)) ->
  braced s -> braced (Str.replaceAll m s).
Proof. intros Hm Hb. apply unscan_braced; [exact Hm | lia | exact Hb]. Qed.

Lemma single_quoted_head c r x rest :
  Vars.single_quoted_at (String c r) = Some (x, rest) ->
  skippable c = false /\ (c = "{"%char -> Str.startsWith "{" x = true).
Proof.
  intros E. apply guard_head in E. subst c. split; [reflexivity | discriminate].
Qed.

Lemma literal_head word replacement c r x rest :
  Vars.literal_at word replacement (String c r) = Some (x, rest) ->
  skippable c = false /\ (c = "{"%char -> Str.startsWith "{" x = true).
Proof.
  intros E. apply guard_head in E. subst c. split; [reflexivity | discriminate].
Qed.

Lemma trailing_comma_head c r x rest :
  Vars.trailing_comma_at (String c r) = Some (x, rest) ->
  skippable c = false /\ (c = "{"%char -> Str.startsWith "{" x = true).
Proof.
  intros E. apply guard_head in E. subst c. split; [reflexivity | discriminate].
Qed.

Lemma bare_key_head c r x rest :
  Vars.bare_key_at (String c r) = Some (x, rest) ->
  skippable c = false /\ (c = "{"%char -> Str.startsWith "{" x = true).
Proof.
  unfold Vars.bare_key_at.
  destruct (Ascii.eqb_spec c "{") as [-> | Hc].
  - cbn [orb]. destruct (Str.span_white r) as [w r1].
    destruct (Str.span Str.is_word r1) as [name r2].
    destruct (Str.is_empty name); [discriminate |].
    destruct (Str.span_white r2) as [w' r3].
    unfold Str.guard. destruct (Str.startsWith ":" r3); [| discriminate].
    intros [= <- _]. split; reflexivity.
  - cbn [orb]. destruct (Ascii.eqb_spec c ",") as [-> | _]; [| discriminate].
    intros _. split; [reflexivity | congruence].
Qed.

Lemma locator_at_head c r x :
  Vars.locator_at (String c r) = Some x ->
  skippable c = false /\ c <> "{"%char.
Proof.
  unfold Vars.locator_at, Vars.opt_quote.
  destruct (Ascii.eqb_spec c (ascii_of_nat 34)) as [-> | _];
    [intros _; split; [reflexivity | discriminate] |].
  destruct (Ascii.eqb_spec c (ascii_of_nat 39)) as [-> | _];
    [intros _; split; [reflexivity | discriminate] |].
  cbn [orb]. intros E. apply guard_head in E. subst c.
  split; [reflexivity | discriminate].
Qed.

Lemma mask_braced (s : string) :
  forall (fuel index : nat),
    (String.length s <= fuel)%nat ->
    braced s ->
    braced (fst (Vars.mask
                   (Str.scan fuel
                      (fun s => match Vars.locator_at s with
                                | Some (p1, p2, rest) => Some ((p1, p2), rest)
                                | None => None
                                end) s) index)).
Proof.
  induction s as [| c s IH]; intros fuel index Hf Hb; [discriminate |].
  cbn [String.length] in Hf. destruct fuel as [| fuel]; [lia |].
  cbn [Str.scan].
  destruct (Vars.locator_at (String c s)) as [[[p1 p2] rest] |] eqn:E.
  - destruct (locator_at_head _ _ _ E) as [Hsp Hc].
    apply (braced_stop c s Hsp) in Hb. congruence.
  - cbn [Vars.mask]. specialize (IH fuel index).
    destruct (Vars.mask _ index) as [text values]. cbn [fst] in *.
    destruct (skippable c) eqn:K.
    + apply (braced_skip c _ K). apply IH; [lia |]. apply (braced_skip c s K), Hb.
    + apply (braced_stop c _ K). apply (braced_stop c s K), Hb.
Qed.

Lemma find_braced (p0 : ascii) (pat' : string) (s : string) :
  skippable p0 = false -> p0 <> "{"%char ->
  forall before after t,
    braced s ->
    Str.find (String p0 pat') s = Some (before, after) ->
    braced (before +:+ t).
Proof.
  intros Hsp Hp. induction s as [| c s IH]; intros before after t Hb; [discriminate |].
  cbn [Str.find].
  destruct (Str.startsWith (String p0 pat') (String c s)) eqn:E.
  - cbn [Str.startsWith] in E. apply andb_true_iff in E as [E _].
    apply Ascii.eqb_eq in E. subst c.
    apply (braced_stop p0 s Hsp) in Hb. congruence.
  - destruct (Str.find (String p0 pat') s) as [[b a] |] eqn:F; [| discriminate].
    intros [= <- <-].
    change (String c b +:+ t) with (String c (b +:+ t)).
    destruct (skippable c) eqn:K.
    + apply (braced_skip c _ K). apply (IH b a t); [| reflexivity].
      apply (braced_skip c s K), Hb.
    + apply (braced_stop c _ K). apply (braced_stop c s K), Hb.
Qed.

Lemma restore_braced (values : list string) :
  forall (index : nat) (s : string),
    braced s -> braced (Vars.restore values index s).
Proof.
  induction values as [| value values IH]; intros index s Hb; [exact Hb |].
  cbn [Vars.restore]. apply IH. unfold Str.replaceFirst.
  destruct (Str.find (Vars.placeholder_name index) s) as [[before after] |] eqn:F;
    [| exact Hb].
  change (Vars.placeholder_name index)
    with (String "_" ("_LOCATOR_PLACEHOLDER_" +:+ Z_text (Z.of_nat index) +:+ "__")) in F.
  eapply find_braced; [| | exact Hb | exact F]; [reflexivity | discriminate].
Qed.

Lemma trimEnd_head (s : string) :
  Str.startsWith "{" (Str.trimEnd s) = true -> Str.startsWith "{" s = true.
Proof.
  destruct s as [| c s]; [discriminate |]. cbn [Str.trimEnd]. cbv zeta.
  destruct (Str.is_white (String c (Str.trimEnd s))); [discriminate |].
  cbn [Str.startsWith]. rewrite !andb_true_r. exact (fun H => H).
Qed.

Lemma wrap_braced (str : string) : braced (Vars.wrap str).
Proof.
  unfold Vars.wrap.
  destruct (Str.startsWith "{" (Str.trim str)) eqn:E.
  - cbn [negb orb].
    destruct (negb (Str.endsWith "}" (Str.trim str)));
      [apply (braced_head "{"); reflexivity |].
    apply trimStart_braced, trimEnd_head. exact E.
  - apply (braced_head "{"); reflexivity.
Qed.

Lemma loose_to_strict_braced (str : string) : braced (Vars.loose_to_strict str).
Proof.
  unfold Vars.loose_to_strict, Vars.mask_locators.
  pose proof (mask_braced (Vars.wrap str) (String.length (Vars.wrap str)) 0
                (le_n _) (wrap_braced str)) as H.
  destruct (Vars.mask _ 0) as [maskedStr values]. cbn [fst] in H.
  apply restore_braced. unfold Vars.normalize, Vars.requote.
  apply replaceAll_braced; [exact trailing_comma_head |].
  apply replaceAll_braced; [apply literal_head |].
  apply replaceAll_braced; [apply literal_head |].
  apply replaceAll_braced; [apply literal_head |].
  apply replaceAll_braced; [exact bare_key_head |].
  apply replaceAll_braced; [exact single_quoted_head |].
  exact H.
Qed.

Lemma json_space_skippable (c : ascii) :
  Vars.is_json_space c = true -> skippable c = true.
Proof.
  unfold Vars.is_json_space, skippable, Str.is_space1. cbv zeta. intros H.
  repeat (apply orb_true_iff in H as [H | H]); apply N.eqb_eq in H; rewrite H; reflexivity.
Qed.

(** The first character that is not JSON white space of a braced text is
    the brace, or a byte that white space can hold and that JSON refuses. *)
Lemma skip_ws_braced (text : string) :
  braced text ->
  exists c r, Vars.skip_ws text = String c r /\
              (c = "{"%char \/
               (skippable c = true /\ Vars.is_json_space c = false)).
Proof.
  unfold Vars.skip_ws.
  induction text as [| c text IH]; intros Hb; [discriminate |].
  cbn [Str.span].
  destruct (Vars.is_json_space c) eqn:J.
  - apply (braced_skip c text (json_space_skippable _ J)) in Hb.
    destruct (IH Hb) as (c' & r & E & H).
    destruct (Str.span Vars.is_json_space text) as [a b]. cbn [snd] in *.
    exists c', r. split; assumption.
  - cbn [snd]. exists c, text. split; [reflexivity |].
    destruct (skippable c) eqn:S.
    + right. split; [reflexivity | exact J].
    + left. apply (braced_stop c text S), Hb.
Qed.

Lemma json_value_braced (fuel : nat) (text : string) (v : Vars.json) (rest : string) :
  braced text ->
  Vars.json_value fuel text = Some (v, rest) ->
  exists props, v = Vars.JObject props.
Proof.
  intros Hb. destruct (skip_ws_braced text Hb) as (c & r & E & H).
  destruct fuel as [| fuel]; [discriminate |].
  cbn [Vars.json_value]. cbv zeta. rewrite E.
  destruct H as [-> | [Hs Hj]].
  - cbn. destruct (Vars.skip_ws r) as [| d r']; [discriminate |].
    destruct (Ascii.eqb d "}"); [intros [= <- _]; eexists; reflexivity |].
    destruct (Vars.json_member _ r) as [[[k v0] r1] |]; [| discriminate].
    destruct (Vars.json_members _ _ r1 _) as [[ps rest'] |]; [| discriminate].
    intros [= <- _]. eexists; reflexivity.
  - destruct c as [[] [] [] [] [] [] [] []];
      vm_compute in Hs; vm_compute in Hj; try discriminate; cbn; discriminate.
Qed.

(** X7: [parseLooseJson] returns an object or throws an error whose message
    quotes the input: whatever the options string is, the caller never
    gets an array, a string, a number, a boolean or null. *)
Theorem parseLooseJson_object_or_error (h : Vars.Host) (str : string) :
  match Vars.parseLooseJson h str with
  | Ok value => exists props, value = Vars.JObject props
  | Throw e => Str.includes str (message e) = true
  end.
Proof.
  unfold Vars.parseLooseJson.
  destruct (Str.is_empty str || Str.is_empty (Str.trim str)
            || String.eqb (Str.trim str) (Str.dquote +:+ Str.dquote));
    [eexists; reflexivity |].
  cbv zeta. unfold Vars.JSON_parse.
  destruct (Vars.json_value _ (Vars.loose_to_strict str)) as [[v rest] |] eqn:E.
  - destruct (Str.is_empty (Vars.skip_ws rest)).
    + exact (json_value_braced _ _ _ _ (loose_to_strict_braced str) E).
    + cbn [message]. do 2 apply includes_app. apply includes_head.
  - cbn [message]. do 2 apply includes_app. apply includes_head.
Qed.

(** ** Selectors handed to the driver *)

Lemma includes_startsWith (p s : string) :
  Str.includes p s = false -> Str.startsWith p s = false.
Proof. destruct s; cbn [Str.includes]; intros H; apply orb_false_iff in H as [H _]; exact H. Qed.

Lemma includes_tail (p : string) (c : ascii) (s : string) :
  Str.includes p (String c s) = false -> Str.includes p s = false.
Proof. cbn [Str.includes]. intros H. apply orb_false_iff in H as [_ H]. exact H. Qed.

(** A pass whose pattern starts with a character that the text does not
    contain leaves the text as it is. *)
Lemma unscan_absent (p0 : ascii) (pat' : string) (k : string -> option (string * string))
  (s : string) :
  Str.includes (String p0 EmptyString) s = false ->
  forall fuel : nat,
    (String.length s <= fuel)%nat ->
    Str.unscan (Str.scan fuel (fun t => Str.guard (String p0 pat') t k) s) = s.
Proof.
  induction s as [| c s IH]; intros Hno fuel Hf; [rewrite scan_empty; reflexivity |].
  cbn [String.length] in Hf. destruct fuel as [| fuel]; [lia |].
  cbn [Str.scan]. unfold Str.guard at 1.
  pose proof (includes_startsWith _ _ Hno) as Hhead.
  cbn [Str.startsWith] in Hhead |- *. rewrite andb_true_r in Hhead. rewrite Hhead.
  cbn [andb Str.unscan]. f_equal. apply IH; [exact (includes_tail _ _ _ Hno) | lia].
Qed.

Lemma first_prefix_hit (p : string) (ps : list string) (r s : string) :
  Str.startsWith p s = true ->
  Resolver.first_prefix (p :: ps) r s = r +:+ Str.slice (String.length p) s.
Proof.
  intros H. unfold Resolver.first_prefix, Resolver.replace_prefix.
  cbn [omap list_omap]. rewrite H. reflexivity.
Qed.

Lemma first_prefix_miss (p : string) (ps : list string) (r s : string) :
  Str.startsWith p s = false ->
  Resolver.first_prefix (p :: ps) r s = Resolver.first_prefix ps r s.
Proof.
  intros H. unfold Resolver.first_prefix, Resolver.replace_prefix.
  cbn [omap list_omap]. rewrite H. reflexivity.
Qed.

Lemma unescape_slashes_absent (body : string) :
  Str.includes Str.backslash body = false ->
  Str.replaceAll
    (fun s => Str.guard (Str.backslash +:+ "/") s (fun rest => Some ("/", rest))) body
  = body.
Proof.
  intros Hno. unfold Str.replaceAll.
  exact (unscan_absent (ascii_of_nat 92) "/" _ body Hno _ (le_n _)).
Qed.

Lemma rawSelector_of_prefixed_body (prefix body : string) :
  In prefix ["xpath="; "xpath ="; "css="; "css ="] ->
  Str.includes Str.backslash body = false ->
  Resolver.isPlaywrightPrefixed (prefix +:+ body) = true /\
  Resolver.rawSelector_of_prefixed (prefix +:+ body) = body.
Proof.
  intros Hin Hno. pose proof (includes_startsWith _ _ Hno) as Hs.
  unfold Resolver.rawSelector_of_prefixed. cbv zeta.
  cbn [In] in Hin. destruct Hin as [<- | [<- | [<- | [<- | []]]]].
  all: split; [reflexivity |].
  all: match goal with
       | |- context [Resolver.first_prefix ?ps "xpath=" ?sel] =>
           assert (H1 : Resolver.first_prefix ps "xpath=" sel = sel)
             by (repeat first [ rewrite first_prefix_miss by reflexivity
                              | rewrite first_prefix_miss by exact Hs ];
                 reflexivity);
           rewrite H1; clear H1
       end.
  all: match goal with
       | |- context [Resolver.first_prefix ?ps EmptyString ?sel] =>
           assert (H2 : Resolver.first_prefix ps EmptyString sel = body)
             by (repeat first [ rewrite first_prefix_hit by reflexivity
                              | rewrite first_prefix_miss by reflexivity ];
                 reflexivity);
           rewrite H2; clear H2
       end.
  all: exact (unescape_slashes_absent body Hno).
Qed.

(** X8: a selector made of an engine prefix ([xpath=], [css=] or [chain=],
    with or without a space before the equals sign) and a body without a
    backslash is resolved to the driver's locator for the body alone,
    whatever the name space, the engines and the configuration are; the
    state is not touched. *)
Theorem webLocResolver_prefixed_body {Page Locator : Type}
  (locator : Page -> string -> Locator) (h : Vars.Host)
  (g : Resolver.Globals Page Locator) (type prefix body : string) (page : Page)
  (overridePattern : option string) (timeout : option jsnum) (smartAiRefresh : string)
  (st : State) :
  In prefix ["xpath="; "xpath ="; "css="; "css ="; "chain="; "chain ="] ->
  Str.includes Str.backslash body = false ->
  Resolver.webLocResolver Page Locator locator h g type (prefix +:+ body) page
    overridePattern timeout smartAiRefresh st
  = (Ok (Some (locator page body)), st).
Proof.
  intros Hin Hno. unfold Resolver.webLocResolver. cbv zeta.
  cbn [In] in Hin.
  destruct Hin as [<- | [<- | [<- | [<- | Hchain]]]].
  1-4: match goal with
       | |- context [Resolver.isPlaywrightPrefixed (?p +:+ ?b)] =>
           destruct (rawSelector_of_prefixed_body p b) as [-> ->];
             [cbn [In]; tauto | exact Hno | reflexivity]
       end.
  destruct Hchain as [<- | [<- | []]].
  - change (Resolver.isPlaywrightPrefixed ("chain=" +:+ body)) with false.
    change (Resolver.isPlaywrightChainedPrefixed ("chain=" +:+ body)) with true.
    cbv iota. rewrite first_prefix_hit by reflexivity. reflexivity.
  - change (Resolver.isPlaywrightPrefixed ("chain =" +:+ body)) with false.
    change (Resolver.isPlaywrightChainedPrefixed ("chain =" +:+ body)) with true.
    cbv iota. rewrite first_prefix_miss by reflexivity.
    rewrite first_prefix_hit by reflexivity. reflexivity.
Qed.

Lemma webLocResolver_prefixed_body_witness :
  Resolver.webLocResolver unit string selector_handle no_crypto no_globals "click"
    ("xpath =" +:+ "//button[@id='go']") tt None None EmptyString fresh_state
  = (Ok (Some "//button[@id='go']"), fresh_state).
Proof.
  apply (webLocResolver_prefixed_body selector_handle no_crypto no_globals "click"
           "xpath =" "//button[@id='go']" tt None None EmptyString fresh_state).
  - cbn [In]. tauto.
  - reflexivity.
Defined.

(** ** The two spellings of an entry of the name space *)

Lemma not_includes_head (sep c : ascii) (s : string) :
  Str.includes (String sep EmptyString) (String c s) = false ->
  Ascii.eqb c sep = false /\ Str.includes (String sep EmptyString) s = false.
Proof.
  intros H. split; [| exact (includes_tail _ _ _ H)].
  apply includes_startsWith in H. cbn [Str.startsWith] in H.
  rewrite andb_true_r in H. rewrite Ascii.eqb_sym. exact H.
Qed.

Lemma split_whole (sep : ascii) (s : string) :
  Str.includes (String sep EmptyString) s = false -> Str.split sep s = [s].
Proof.
  induction s as [| c s IH]; intros H; [reflexivity |].
  apply not_includes_head in H as [Hc Hs].
  cbn [Str.split]. rewrite Hc, (IH Hs). reflexivity.
Qed.

Lemma split_segment (sep : ascii) (a b : string) :
  Str.includes (String sep EmptyString) a = false ->
  Str.split sep (a +:+ String sep b) = a :: Str.split sep b.
Proof.
  induction a as [| c a IH]; intros H.
  - change (EmptyString +:+ String sep b) with (String sep b).
    cbn [Str.split]. rewrite Ascii.eqb_refl. reflexivity.
  - apply not_includes_head in H as [Hc Ha].
    change (String c a +:+ String sep b) with (String c (a +:+ String sep b)).
    cbn [Str.split]. rewrite Hc, (IH Ha). reflexivity.
Qed.

(** A text that starts with the segment [w] and a dot has [w] as its first
    segment. *)
Lemma startsWith_segment (w : string) :
  Str.includes "." w = false ->
  forall f rest : string,
    Str.includes "." f = false ->
    Str.startsWith (w +:+ ".") (f +:+ String "." rest) = true -> f = w.
Proof.
  induction w as [| a w IH]; intros Hw f rest Hf H.
  - destruct f as [| c f]; [reflexivity |].
    apply not_includes_head in Hf as [Hc _].
    change (String c f +:+ String "." rest) with (String c (f +:+ String "." rest)) in H.
    change (EmptyString +:+ ".") with "." in H.
    cbn [Str.startsWith] in H. rewrite andb_true_r, Ascii.eqb_sym, Hc in H. discriminate.
  - apply not_includes_head in Hw as [Ha Hw].
    change (String a w +:+ ".") with (String a (w +:+ ".")) in H.
    destruct f as [| c f].
    + change (EmptyString +:+ String "." rest) with (String "." rest) in H.
      cbn [Str.startsWith] in H. apply andb_true_iff in H as [H _].
      rewrite H in Ha. discriminate.
    + apply not_includes_head in Hf as [_ Hf].
      change (String c f +:+ String "." rest) with (String c (f +:+ String "." rest)) in H.
      cbn [Str.startsWith] in H. apply andb_true_iff in H as [Hac H].
      apply Ascii.eqb_eq in Hac. subst c. f_equal. exact (IH Hw f rest Hf H).
Qed.

(** X9: an entry [file.page.field] of the name space, with a file name
    other than [ts] and [json] and no dot inside the three names, is
    reached by the explicit spelling [loc.ts.file.page.field] and by the
    bare spelling [loc.file.page.field] alike: both calls are the call of
    the registered leaf on the page. *)
Theorem webLocResolver_loc_spellings {Page Locator : Type}
  (locator : Page -> string -> Locator) (h : Vars.Host)
  (g : Resolver.Globals Page Locator) (type file pageName field : string) (page : Page)
  (overridePattern : option string) (timeout : option jsnum) (smartAiRefresh : string)
  (st : State) :
  Str.includes "." file = false ->
  Str.includes "." pageName = false ->
  Str.includes "." field = false ->
  file <> "ts" -> file <> "json" ->
  Resolver.loc_lookup Page Locator g file pageName field <> Resolver.Missing ->
  let entry := file +:+ "." +:+ pageName +:+ "." +:+ field in
  let call :=
    Resolver.call_leaf Page Locator
      (Resolver.loc_lookup Page Locator g file pageName field) page st in
  Resolver.webLocResolver Page Locator locator h g type ("loc.ts." +:+ entry) page
    overridePattern timeout smartAiRefresh st = call /\
  Resolver.webLocResolver Page Locator locator h g type ("loc." +:+ entry) page
    overridePattern timeout smartAiRefresh st = call.
Proof.
  intros Hf Hp Hx Hts Hjson Hleaf entry call.
  assert (Hparts : Str.split "." entry = [file; pageName; field]).
  { unfold entry.
    change (file +:+ "." +:+ pageName +:+ "." +:+ field)
      with (file +:+ String "." (pageName +:+ String "." field)).
    rewrite (split_segment _ _ _ Hf), (split_segment _ _ _ Hp), (split_whole _ _ Hx).
    reflexivity. }
  assert (Hnot : forall w, Str.includes "." w = false -> file <> w ->
                           Str.startsWith (w +:+ ".") entry = false).
  { intros w Hw Hne. destruct (Str.startsWith (w +:+ ".") entry) eqn:E; [| reflexivity].
    exfalso. apply Hne. exact (startsWith_segment w Hw file _ Hf E). }
  split; unfold Resolver.webLocResolver; cbv zeta.
  - destruct (loc_not_prefixed ("loc.ts." +:+ entry) eq_refl) as [-> ->].
    change (Resolver.isResourceLocator ("loc.ts." +:+ entry)) with true.
    rewrite andb_false_r. unfold Resolver.resolve_resource. cbv zeta.
    change (Str.split "." ("loc.ts." +:+ entry))
      with ("loc" :: "ts" :: Str.split "." entry).
    rewrite Hparts.
    change (Str.startsWith "loc.json." ("loc.ts." +:+ entry)) with false.
    change (Str.startsWith "loc.ts." ("loc.ts." +:+ entry)) with true.
    cbn [length Nat.ltb Nat.leb lookup list_lookup Resolver.key_of].
    unfold call.
    destruct (Resolver.loc_lookup Page Locator g file pageName field);
      [congruence | reflexivity | reflexivity].
  - destruct (loc_not_prefixed ("loc." +:+ entry) eq_refl) as [-> ->].
    change (Resolver.isResourceLocator ("loc." +:+ entry)) with true.
    rewrite andb_false_r. unfold Resolver.resolve_resource. cbv zeta.
    change (Str.split "." ("loc." +:+ entry)) with ("loc" :: Str.split "." entry).
    rewrite Hparts.
    change (Str.startsWith "loc.json." ("loc." +:+ entry))
      with (Str.startsWith ("json" +:+ ".") entry).
    change (Str.startsWith "loc.ts." ("loc." +:+ entry))
      with (Str.startsWith ("ts" +:+ ".") entry).
    rewrite (Hnot "json" eq_refl Hjson), (Hnot "ts" eq_refl Hts).
    cbn [length Nat.ltb Nat.leb lookup list_lookup Resolver.key_of].
    unfold call.
    destruct (Resolver.loc_lookup Page Locator g file pageName field);
      [congruence | reflexivity | reflexivity].
Qed.

Lemma webLocResolver_loc_spellings_witness :
  Resolver.webLocResolver unit string selector_handle no_crypto login_globals "click"
    "loc.ts.login.form.submit" tt None None EmptyString fresh_state
  = (Ok (Some "#submit"), fresh_state) /\
  Resolver.webLocResolver unit string selector_handle no_crypto login_globals "click"
    "loc.login.form.submit" tt None None EmptyString fresh_state
  = (Ok (Some "#submit"), fresh_state).
Proof.
  exact (webLocResolver_loc_spellings selector_handle no_crypto login_globals "click"
           "login" "form" "submit" tt None None EmptyString fresh_state
           eq_refl eq_refl eq_refl ltac:(discriminate) ltac:(discriminate)
           ltac:(discriminate)).
Defined.

(** ** Delegation without engines *)

Lemma getConfigValue_returns (key : string) (ifEmpty : bool) (st : State) :
  exists v st', Vars.getConfigValue key ifEmpty st = (Ok v, st').
Proof.
  unfold Vars.getConfigValue, bind, get, ret, set_loggedMissingKeys, modify.
  destruct (obj_get (process_env st) _) as [v |];
    [destruct (truthy v); [eauto |] |];
    (destruct (obj_get (storedVars st) _); [eauto |];
     destruct (negb _); [| eauto]; destruct ifEmpty; eauto).
Qed.

Lemma config_enabled_returns {Page Locator : Type} (key : string) (st : State) :
  exists b st', Resolver.config_enabled key st = (Ok b, st').
Proof.
  unfold Resolver.config_enabled, bind.
  destruct (getConfigValue_returns key false st) as (v & st' & ->).
  unfold ret. eauto.
Qed.

(** X10: a selector that none of the syntactic tests recognises, resolved
    without the escape hatch and with no callable engine registered, is
    resolved to the driver's locator for the selector itself, whatever the
    configuration enables: a missing engine is never fatal. *)
Theorem webLocResolver_without_engines {Page Locator : Type}
  (locator : Page -> string -> Locator) (h : Vars.Host)
  (g : Resolver.Globals Page Locator) (type selector : string) (page : Page)
  (overridePattern : option string) (timeout : option jsnum) (smartAiRefresh : string)
  (st : State) :
  plain_selector selector = true ->
  (forall p, overridePattern = Some p -> Str.toLowerCase p <> "-no-check-") ->
  (forall engine, Resolver.smartAi Page Locator g <> Resolver.Callable engine) ->
  (forall engine, Resolver.patternIq Page Locator g <> Resolver.Callable engine) ->
  (forall engine, Resolver.nested_patternIq Page Locator g <> Resolver.Callable engine) ->
  fst (Resolver.webLocResolver Page Locator locator h g type selector page
         overridePattern timeout smartAiRefresh st)
  = Ok (Some (locator page selector)).
Proof.
  intros Hplain Hover Hsmart Hpattern Hnested.
  unfold plain_selector in Hplain.
  repeat (apply andb_true_iff in Hplain as [Hplain ?]).
  repeat match goal with H : negb _ = true |- _ => apply negb_true_iff in H end.
  unfold Resolver.webLocResolver. cbv zeta.
  repeat match goal with H : _ = false |- _ => rewrite H end.
  cbn [andb].
  assert (Hno : match overridePattern with
                | Some p => negb (Str.is_empty p) && String.eqb (Str.toLowerCase p) "-no-check-"
                | None => false
                end = false).
  { destruct overridePattern as [p |]; [| reflexivity].
    destruct (String.eqb_spec (Str.toLowerCase p) "-no-check-") as [E | _];
      [destruct (Hover p eq_refl E) | apply andb_false_r]. }
  rewrite Hno. unfold Resolver.resolve_delegated. cbv zeta.
  assert (Hpat : forall st1,
    fst ((isPatternEnabled <- Resolver.config_enabled "patternIq.enable" ;;
          if isPatternEnabled then
            match
              match Resolver.patternIq Page Locator g with
              | Resolver.Missing => Resolver.nested_patternIq Page Locator g
              | engine => engine
              end
            with
            | Resolver.Callable engine => engine page type selector overridePattern timeout
            | _ => console_warn Resolver.warn_patternIq ;;;
                   ret (Some (locator page selector))
            end
          else ret (Some (locator page selector))) st1)
    = Ok (Some (locator page selector))).
  { intros st1. unfold bind at 1.
    destruct (@config_enabled_returns Page Locator "patternIq.enable" st1) as (b & st2 & ->).
    destruct b; [| reflexivity].
    destruct (Resolver.patternIq Page Locator g) as [| | engine] eqn:E.
    - destruct (Resolver.nested_patternIq Page Locator g) as [| | engine] eqn:E';
        [reflexivity | reflexivity | destruct (Hnested engine eq_refl)].
    - reflexivity.
    - destruct (Hpattern engine eq_refl). }
  unfold bind at 1.
  destruct (@config_enabled_returns Page Locator "smartAi.enable" st) as (b & st1 & ->).
  destruct b; [| apply Hpat].
  destruct (Resolver.smartAi Page Locator g) as [| | engine] eqn:E.
  - unfold bind at 1, console_warn at 1, modify at 1. apply Hpat.
  - unfold bind at 1, console_warn at 1, modify at 1. apply Hpat.
  - destruct (Hsmart engine eq_refl).
Qed.

Lemma webLocResolver_without_engines_witness :
  fst (Resolver.webLocResolver unit string selector_handle no_crypto no_globals "click"
         "Sign in" tt (Some "login") None EmptyString engines_enabled_state)
  = Ok (Some "Sign in").
Proof.
  apply (webLocResolver_without_engines selector_handle no_crypto no_globals "click"
           "Sign in" tt (Some "login") None EmptyString engines_enabled_state).
  - reflexivity.
  - intros p [= <-]. discriminate.
  - intros engine. discriminate.
  - intros engine. discriminate.
  - intros engine. discriminate.
Defined.

(** ** A wait without a timeout *)

(** X11: when the options give no [actionTimeout] and the configuration has
    no [testExecution.actionTimeout], in the store or in the environment,
    the timeout is [NaN]: the wait on a handle throws the timeout error at
    once, with [NaN] as the timeout and the empty text as the last one,
    whatever the element shows; no default applies. *)
Theorem waitForTextAtLocation_unconfigured_timeout {Page Locator : Type}
  (locator : Page -> string -> Locator) (h : Vars.Host)
  (g : Resolver.Globals Page Locator) (w : Wait.World Page Locator) (fuel : nat)
  (page : Page) (handle : Locator) (expectedText : string) (options : Wait.Options)
  (st : State) :
  Wait.world_attach Page Locator w <> Resolver.NotCallable ->
  (forall attach, Wait.world_attach Page Locator w = Resolver.Callable attach ->
                  forall body mimeType, attach body mimeType = Ok tt) ->
  Wait.actionTimeout options = None ->
  obj_get (process_env st) (override_name "testExecution.actionTimeout") = None ->
  obj_get (storedVars st) "config.testExecution.actionTimeout" = None ->
  (0 < fuel)%nat ->
  fst (Wait.waitForTextAtLocation Page Locator locator h g w fuel (Some page)
         (inr handle) expectedText options st)
  = Throw (JsError (Wait.timeout_message Page Locator h w (inr handle) expectedText NaN
                      EmptyString)).
Proof.
  intros Hcallable Haccepts Hopt Henv Hstored Hfuel.
  unfold Wait.waitForTextAtLocation. rewrite Hopt.
  pose proof (getConfigValue_miss_literal "testExecution.actionTimeout" st Henv Hstored)
    as Hmiss.
  destruct (getConfigValue_returns "testExecution.actionTimeout" false st)
    as (v & st1 & Hget).
  rewrite Hget in Hmiss. cbn [fst] in Hmiss. injection Hmiss as ->.
  unfold bind at 1. unfold bind at 1. rewrite Hget. unfold ret at 1.
  change (ToNumber (JStr ("config." +:+ Str.trim "testExecution.actionTimeout")))
    with NaN.
  unfold Wait.doWaitForTextAtLocation, Wait.target_of_field.
  unfold bind at 1, ret at 1. unfold bind at 1, get at 1. unfold bind at 1.
  destruct fuel as [| fuel]; [lia |].
  cbn [Wait.poll]. unfold bind at 1, get at 1. cbn [Wait.less_than]. unfold ret at 1.
  cbn [negb]. unfold bind at 1.
  destruct (attachLog_returns Page Locator w Hcallable Haccepts
              (Wait.timeout_message Page Locator h w (inr handle) expectedText NaN
                 EmptyString) "text/plain" st1) as (st2 & ->).
  reflexivity.
Qed.

Lemma waitForTextAtLocation_unconfigured_timeout_witness :
  fst (Wait.waitForTextAtLocation unit string selector_handle no_crypto no_globals
         (page_world 0) 100 (Some tt) (inr "h1") "Welcome" partial_match fresh_state)
  = Throw (JsError (Wait.timeout_message unit string no_crypto (page_world 0) (inr "h1")
                      "Welcome" NaN EmptyString)).
Proof.
  apply (waitForTextAtLocation_unconfigured_timeout selector_handle no_crypto no_globals
           (page_world 0) 100 tt "h1" "Welcome" partial_match fresh_state).
  - discriminate.
  - discriminate.
  - reflexivity.
  - reflexivity.
  - reflexivity.
  - lia.
Defined.

(** ** Reading never writes *)

Lemma same_store_refl (st : State) : same_store st st.
Proof. repeat split. Qed.

Lemma same_store_trans (st1 st2 st3 : State) :
  same_store st1 st2 -> same_store st2 st3 -> same_store st1 st3.
Proof.
  unfold same_store. intros (A1 & B1 & C1 & D1 & E1) (A2 & B2 & C2 & D2 & E2).
  repeat split; congruence.
Qed.

Lemma read_only_ret {A} (a : A) : read_only (ret a).
Proof. intros st. apply same_store_refl. Qed.

Lemma read_only_throw {A} (e : Error) : read_only (@throw A e).
Proof. intros st. apply same_store_refl. Qed.

Lemma read_only_lift {A} (r : Result A) : read_only (Vars.lift r).
Proof. intros st. apply same_store_refl. Qed.

Lemma read_only_bind {A B} (m : M A) (k : A -> M B) :
  read_only m -> (forall a, read_only (k a)) -> read_only (bind m k).
Proof.
  intros Hm Hk st. unfold bind. specialize (Hm st).
  destruct (m st) as [[a | e] st']; cbn [snd] in *;
    [exact (same_store_trans _ _ _ Hm (Hk a st')) | exact Hm].
Qed.

Lemma read_only_get {B} (k : State -> M B) :
  (forall st, same_store st (snd (k st st))) -> read_only (bind get k).
Proof. intros Hk st. unfold bind, get. apply Hk. Qed.

Lemma read_only_try_catch {A} (m : M A) (handler : Error -> M A) :
  read_only m -> (forall e, read_only (handler e)) -> read_only (try_catch m handler).
Proof.
  intros Hm Hh st. unfold try_catch. specialize (Hm st).
  destruct (m st) as [[a | e] st']; cbn [snd] in *;
    [exact Hm | exact (same_store_trans _ _ _ Hm (Hh e st'))].
Qed.

Lemma read_only_console_warn (args : list string) : read_only (console_warn args).
Proof. intros st. repeat split. Qed.

Lemma read_only_record (keys : gset string) : read_only (set_loggedMissingKeys keys).
Proof. intros st. repeat split. Qed.

Lemma getValue_read_only (key : string) (ifEmpty : bool) :
  read_only (Vars.getValue key ifEmpty).
Proof.
  unfold Vars.getValue. destruct (Str.is_empty key).
  { apply read_only_bind; [apply read_only_console_warn | intros; apply read_only_ret]. }
  destruct (Str.startsWith "env." (Str.trim key)); apply read_only_get; intros st.
  - destruct (obj_get (process_env st) _) as [v |]; [destruct (truthy v) |];
      apply same_store_refl.
  - destruct (obj_get (storedVars st) _) as [v |]; [apply same_store_refl |].
    apply read_only_bind; [| intros; apply read_only_ret].
    destruct (negb ifEmpty && _); [| apply read_only_ret].
    apply read_only_bind; [apply read_only_console_warn | intros; apply read_only_record].
Qed.

Lemma getConfigValue_read_only (key : string) (ifEmpty : bool) :
  read_only (Vars.getConfigValue key ifEmpty).
Proof.
  unfold Vars.getConfigValue. cbv zeta. apply read_only_get. intros st.
  assert (Hlookup : forall st0, same_store st0 (snd ((
            st <- get ;;
            match obj_get (storedVars st) ("config." +:+ Str.trim key) with
            | Some v => ret v
            | None =>
                if negb (bool_decide ("config." +:+ Str.trim key ∈ loggedMissingKeys st))
                then set_loggedMissingKeys
                       ({[ "config." +:+ Str.trim key ]} ∪ loggedMissingKeys st) ;;;
                     (if ifEmpty then ret (JStr EmptyString)
                      else ret (JStr ("config." +:+ Str.trim key)))
                else ret (JStr ("config." +:+ Str.trim key))
            end) st0))).
  { apply read_only_get. intros st0.
    destruct (obj_get (storedVars st0) _); [apply same_store_refl |].
    destruct (negb _); [| apply same_store_refl].
    apply read_only_bind; [apply read_only_record |].
    intros _. destruct ifEmpty; apply read_only_ret. }
  destruct (obj_get (process_env st) _) as [v |]; [destruct (truthy v) |];
    try apply same_store_refl; apply Hlookup.
Qed.

Lemma resolve_read_only (h : Vars.Host) (varName : string) :
  read_only (Vars.resolve h varName).
Proof.
  assert (Hdec : forall kind text,
            read_only
              (try_catch (Vars.lift (Vars.decrypt h text))
                 (fun error =>
                    console_warn [kind; message error] ;;; ret varName))).
  { intros kind text. apply read_only_try_catch; [apply read_only_lift |]. intros e.
    apply read_only_bind; [apply read_only_console_warn | intros; apply read_only_ret]. }
  unfold Vars.resolve.
  destruct (Str.startsWith "pwd." varName); [apply Hdec |].
  destruct (Str.startsWith "enc." varName); [apply Hdec |].
  destruct (Str.endsWith ".(toNumber)" varName);
    (apply read_only_bind; [apply getValue_read_only | intros; apply read_only_ret]).
Qed.

Lemma replaceVariables_read_only (h : Vars.Host) (input : string) :
  read_only (Vars.replaceVariables h input).
Proof.
  unfold Vars.replaceVariables.
  induction (Str.scan _ _ input) as [| [c | varName] rest IH]; cbn [Vars.substitute].
  - apply read_only_ret.
  - apply read_only_bind; [exact IH | intros; apply read_only_ret].
  - apply read_only_bind; [apply resolve_read_only |]. intros text.
    apply read_only_bind; [exact IH | intros; apply read_only_ret].
Qed.

(** X12: [getValue], [getConfigValue] and [replaceVariables] write no
    variable: whatever their arguments and whatever they answer, the stored
    variables, the environment and the persisted file are left as they
    were; only the log and the record of missing keys can change. *)
Theorem reads_write_nothing (h : Vars.Host) (key input : string) (ifEmpty : bool) :
  read_only (Vars.getValue key ifEmpty) /\
  read_only (Vars.getConfigValue key ifEmpty) /\
  read_only (Vars.replaceVariables h input).
Proof.
  split; [apply getValue_read_only |].
  split; [apply getConfigValue_read_only | apply replaceVariables_read_only].
Qed.

(** ** Screenshots and the report *)

(** X13: whether [processScreenshot] throws depends on the page and on
    the capture alone.  It returns normally when no screenshot is asked
    for.  Asked for one, it throws [Page not initialized for screenshot]
    when it is given no page; given a page, it captures the element when
    a selector is passed and the page, in full unless told otherwise, when
    none is: it returns normally when the driver takes the capture and
    throws the driver's error otherwise.  A report that refuses the
    attachment never fails the step. *)
Theorem processScreenshot_outcome {Page Locator : Type} (w : Wait.World Page Locator)
  (page : option Page) (shouldTake : bool) (text : option string)
  (fullPage : option bool) (selector : option Locator) (st : State) :
  fst (Wait.processScreenshot Page Locator w page shouldTake text fullPage selector st)
  = if shouldTake
    then match page with
         | None => Throw (JsError "Page not initialized for screenshot")
         | Some page =>
             match match selector with
                   | Some handle => Wait.locator_screenshot Page Locator w handle
                   | None =>
                       Wait.page_screenshot Page Locator w page
                         (match fullPage with Some b => b | None => true end)
                   end
             with
             | Ok _ => Ok tt
             | Throw e => Throw e
             end
         end
    else Ok tt.
Proof.
  unfold Wait.processScreenshot. cbv zeta.
  destruct shouldTake; cbn [negb]; [| reflexivity].
  destruct page as [page |]; [| reflexivity].
  unfold bind at 1, Vars.lift at 1.
  destruct (match selector with
            | Some handle => Wait.locator_screenshot Page Locator w handle
            | None => Wait.page_screenshot Page Locator w page _
            end) as [[] | e]; [| reflexivity].
  unfold try_catch.
  match goal with
  | |- context [match ?m st with _ => _ end] => destruct (m st) as [[[] | e] st']
  end; reflexivity.
Qed.

(** ** The browser type *)

(** X14: with no browser type configured, in the store or in the
    environment, [invokeBrowser] throws: the lookup answers the name of the
    missing key, which is truthy, so the [chromium] fallback does not
    apply. *)
Theorem invokeBrowser_unconfigured (st : State) :
  obj_get (process_env st) (override_name "browser.browserType") = None ->
  obj_get (storedVars st) "config.browser.browserType" = None ->
  fst (Browser.invokeBrowser st) = Throw (JsError "Please set the proper browser!").
Proof.
  intros Henv Hstored.
  pose proof (getConfigValue_miss_literal "browser.browserType" st Henv Hstored) as Hmiss.
  unfold Browser.invokeBrowser, bind.
  destruct (Vars.getConfigValue "browser.browserType" false st) as [[v | e] st'];
    cbn [fst] in Hmiss; [| discriminate].
  injection Hmiss as ->. reflexivity.
Qed.

Lemma invokeBrowser_unconfigured_witness :
  fst (Browser.invokeBrowser fresh_state) = Throw (JsError "Please set the proper browser!").
Proof. apply (invokeBrowser_unconfigured fresh_state); reflexivity. Defined.

(** ** Storing and reading back *)

Lemma setValue_returns (k v : string) (st : State) :
  Str.startsWith "var.static." k = false \/ writable st ->
  fst (Vars.setValue k v st) = Ok tt.
Proof.
  intros H.
  unfold Vars.setValue, Vars.updateVarStaticJson, bind, get, set_storedVars,
    set_var_static_json, console_warn, modify, throw, ret.
  destruct (Str.startsWith "var.static." k); [| reflexivity].
  destruct H as [H | [H Hfile]]; [discriminate |].
  cbv beta iota. cbn [var_static_json fs_write_fails]. rewrite H.
  destruct (var_static_json st); [reflexivity .. | discriminate].
Qed.

Lemma setValue_writable (k v : string) (st : State) :
  writable st -> writable (snd (Vars.setValue k v st)).
Proof.
  intros [H Hfile]. unfold writable.
  unfold Vars.setValue, Vars.updateVarStaticJson, bind, get, set_storedVars,
    set_var_static_json, console_warn, modify, throw, ret.
  destruct (Str.startsWith "var.static." k); [| split; assumption].
  cbv beta iota. cbn [var_static_json fs_write_fails]. rewrite H.
  destruct (var_static_json st); [split; reflexivity .. | discriminate].
Qed.

(** X15: [storeValue] followed by [getValue] of the same name answers the
    value with its placeholders resolved, for a name that is not empty,
    carries no surrounding white space, does not start with [env.] and is
    not [__proto__]; a name under [var.static.] needs a file system that
    accepts the write and a [var.static.json] that, when it exists and
    parses, holds an object of strings. *)
Theorem storeValue_round_trip (h : Vars.Host) (value varName : string) (st : State) :
  varName <> EmptyString ->
  Str.trim varName = varName ->
  Str.startsWith "env." varName = false ->
  varName <> "__proto__" ->
  Str.startsWith "var.static." varName = false \/ writable st ->
  exists resolved,
    fst (Vars.replaceVariables h value st) = Ok resolved /\
    fst (Common.storeValue h value varName None st) = Ok tt /\
    fst (Vars.getValue varName false (snd (Common.storeValue h value varName None st)))
    = Ok (JStr resolved).
Proof.
  intros Hne Htrim Henv Hproto Hfs.
  pose proof (replaceVariables_read_only h value st) as Hro.
  unfold Vars.replaceVariables in *.
  destruct (substitute_returns h (Str.scan (String.length value) Vars.placeholder_at value) st)
    as (resolved & st1 & Hrep).
  rewrite Hrep in Hro. cbn [snd] in Hro. destruct Hro as (_ & _ & Hfile1 & Hfs1 & _).
  assert (Hstore : Common.storeValue h value varName None st
                   = Vars.setValue varName resolved st1).
  { unfold Common.storeValue. unfold bind at 1, ret at 1.
    rewrite Htrim. destruct varName as [| c name]; [congruence |].
    cbn [String.length Nat.eqb]. unfold bind, Vars.replaceVariables.
    rewrite Hrep. reflexivity. }
  rewrite Hstore, Hrep. exists resolved. split; [reflexivity |]. split.
  - apply setValue_returns. unfold writable. rewrite Hfs1, Hfile1. exact Hfs.
  - rewrite (getValue_stored varName resolved); [reflexivity | exact Hne | |].
    + rewrite Htrim. exact Henv.
    + rewrite Htrim, setValue_storedVars. unfold obj_set.
      destruct (String.eqb_spec varName "__proto__") as [E | _]; [congruence |].
      apply lookup_insert_eq.
Qed.

Lemma storeValue_round_trip_witness :
  exists resolved,
    fst (Vars.replaceVariables no_crypto "Hello #{config.testExecution.actionTimeout}!"
           configured_state) = Ok resolved /\
    fst (Common.storeValue no_crypto "Hello #{config.testExecution.actionTimeout}!"
           "var.greeting" None configured_state) = Ok tt /\
    fst (Vars.getValue "var.greeting" false
           (snd (Common.storeValue no_crypto "Hello #{config.testExecution.actionTimeout}!"
                   "var.greeting" None configured_state)))
    = Ok (JStr resolved).
Proof.
  apply (storeValue_round_trip no_crypto "Hello #{config.testExecution.actionTimeout}!"
           "var.greeting" configured_state).
  - discriminate.
  - reflexivity.
  - reflexivity.
  - discriminate.
  - left. reflexivity.
Defined.

(** ** Identifiers *)

Local Abbreviation clean_at :=
  (fun s : string => match s with
                     | String c rest => if Str.is_word c then None else Some ("_", rest)
                     | EmptyString => None
                     end).

Local Abbreviation all_word s := (forallb Str.is_word (list_ascii_of_string s) = true).

Lemma cleaned_all_word (s : string) :
  forall fuel : nat, all_word (Str.unscan (Str.scan fuel clean_at s)).
Proof.
  induction s as [| c s IH]; intros [| fuel]; try reflexivity.
  cbn [Str.scan]. destruct (Str.is_word c) eqn:E; cbn [Str.unscan].
  - cbn [list_ascii_of_string forallb]. rewrite E. apply IH.
  - change ("_" +:+ Str.unscan (Str.scan fuel clean_at s))
      with (String "_" (Str.unscan (Str.scan fuel clean_at s))).
    cbn [list_ascii_of_string forallb]. apply IH.
Qed.

Lemma cleaned_word_text (s : string) :
  all_word s ->
  forall fuel : nat, (String.length s <= fuel)%nat ->
                     Str.unscan (Str.scan fuel clean_at s) = s.
Proof.
  induction s as [| c s IH]; intros Hw fuel Hf; [rewrite scan_empty; reflexivity |].
  cbn [String.length] in Hf. destruct fuel as [| fuel]; [lia |].
  cbn [list_ascii_of_string forallb] in Hw. apply andb_true_iff in Hw as [Hc Hw].
  cbn [Str.scan]. rewrite Hc. cbn [Str.unscan]. f_equal. apply IH; [exact Hw | lia].
Qed.

Lemma cleaned_not_empty (c : ascii) (s : string) (fuel : nat) :
  Str.unscan (Str.scan (S fuel) clean_at (String c s)) <> EmptyString.
Proof.
  cbn [Str.scan]. destruct (Str.is_word c); cbn [Str.unscan]; discriminate.
Qed.

Lemma safeIdent_of_identifier (name : string) :
  is_identifier name = true -> OpenApi.safeIdent name = name.
Proof.
  unfold is_identifier. intros H. apply andb_true_iff in H as [Hhead Hw].
  unfold OpenApi.safeIdent, Str.replaceAll. cbv zeta.
  rewrite (cleaned_word_text name Hw _ (le_n _)).
  destruct name as [| c name]; [reflexivity |].
  apply negb_true_iff in Hhead. rewrite Hhead. reflexivity.
Qed.

Lemma safeIdent_is_identifier (name : string) :
  name <> EmptyString -> is_identifier (OpenApi.safeIdent name) = true.
Proof.
  intros Hne. destruct name as [| c name]; [congruence |].
  unfold OpenApi.safeIdent, Str.replaceAll. cbv zeta. cbn [String.length].
  pose proof (cleaned_all_word (String c name) (S (String.length name))) as Hw.
  pose proof (cleaned_not_empty c name (String.length name)) as Hcl.
  destruct (Str.unscan _) as [| d cleaned]; [congruence |].
  unfold is_identifier. destruct (Str.is_digit d) eqn:E.
  - change ("_" +:+ String d cleaned) with (String "_" (String d cleaned)).
    cbn [list_ascii_of_string forallb] in Hw |- *. rewrite Hw. reflexivity.
  - rewrite E, Hw. reflexivity.
Qed.

(** X16: [safeIdent] of a name that is not empty is made of word characters
    and does not start with a digit, and [safeIdent] leaves such a name as
    it is; so cleaning twice is cleaning once. *)
Theorem safeIdent_identifier (name : string) :
  name <> EmptyString ->
  is_identifier (OpenApi.safeIdent name) = true /\
  OpenApi.safeIdent (OpenApi.safeIdent name) = OpenApi.safeIdent name.
Proof.
  intros Hne. pose proof (safeIdent_is_identifier name Hne) as H.
  split; [exact H | exact (safeIdent_of_identifier _ H)].
Qed.

Lemma safeIdent_identifier_witness :
  is_identifier (OpenApi.safeIdent "2fa-code") = true /\
  OpenApi.safeIdent (OpenApi.safeIdent "2fa-code") = OpenApi.safeIdent "2fa-code".
Proof. apply (safeIdent_identifier "2fa-code"). discriminate. Defined.

(** ** Default entries *)

Lemma trimStart_length (s : string) :
  Str.trimStart s = s \/ (String.length (Str.trimStart s) < String.length s)%nat.
Proof.
  remember (String.length s) as n eqn:Hn. revert s Hn.
  induction n as [n IH] using lt_wf_ind. intros s Hn. subst n.
  assert (Hstep : forall r : string,
            (String.length r < String.length s)%nat ->
            (String.length (snd (Str.span_white r)) < String.length s)%nat).
  { intros r Hr. destruct (IH (String.length r) ltac:(lia) r eq_refl) as [E | Hlt];
      unfold Str.trimStart in *; [rewrite E; exact Hr | lia]. }
  destruct s as [| c1 r1]; [left; reflexivity |].
  unfold Str.trimStart. cbn [Str.span_white].
  destruct (Str.is_space1 c1).
  { right. specialize (Hstep r1 ltac:(cbn [String.length]; lia)).
    destruct (Str.span_white r1) as [a b]. exact Hstep. }
  destruct (Str.is_space_lead c1); [| left; reflexivity].
  destruct r1 as [| c2 r2]; [left; reflexivity |].
  destruct (Str.is_space2 c1 c2).
  { right. specialize (Hstep r2 ltac:(cbn [String.length]; lia)).
    destruct (Str.span_white r2) as [a b]. exact Hstep. }
  destruct r2 as [| c3 r3]; [left; reflexivity |].
  destruct (Str.is_space3 c1 c2 c3); [| left; reflexivity].
  right. specialize (Hstep r3 ltac:(cbn [String.length]; lia)).
  destruct (Str.span_white r3) as [a b]. exact Hstep.
Qed.

Lemma trimEnd_length (s : string) :
  (String.length (Str.trimEnd s) <= String.length s)%nat.
Proof.
  induction s as [| c s IH]; [reflexivity |].
  cbn [Str.trimEnd]. cbv zeta.
  destruct (Str.is_white (String c (Str.trimEnd s))); cbn [String.length]; lia.
Qed.

(** A trimmed name stays trimmed behind the [env.] prefix. *)
Lemma trim_env_prefix (name : string) :
  Str.trim name = name -> Str.trim ("env." +:+ name) = "env." +:+ name.
Proof.
  unfold Str.trim. intros H.
  assert (Hstart : Str.trimStart name = name).
  { destruct (trimStart_length name) as [E | Hlt]; [exact E |].
    pose proof (trimEnd_length (Str.trimStart name)) as Hle. rewrite H in Hle. lia. }
  rewrite Hstart in H.
  change (Str.trimStart ("env." +:+ name)) with ("env." +:+ name).
  change (Str.trimEnd ("env." +:+ name)) with ("env." +:+ Str.trimEnd name).
  rewrite H. reflexivity.
Qed.

Lemma obj_get_own (o : gmap string string) (k : string) :
  inherited k = false ->
  obj_get o k = match o !! k with Some v => Some (JStr v) | None => None end.
Proof. intros H. unfold obj_get. rewrite H. reflexivity. Qed.

Lemma pick_choice (name value : string) (st : State) :
  name <> EmptyString -> Str.trim name = name ->
  Str.startsWith "env." name = false -> inherited name = false ->
  Defaults.pick name value st = (Ok (JStr (default_choice st name value)), st).
Proof.
  intros Hne Htrim Henv Hinh.
  assert (Hread : forall ifEmpty,
            Vars.getValue ("env." +:+ name) ifEmpty st
            = match process_env st !! name with
              | Some e => if Str.is_empty e
                          then (Ok (JStr (if ifEmpty then EmptyString else "env." +:+ name)), st)
                          else (Ok (JStr e), st)
              | None => (Ok (JStr (if ifEmpty then EmptyString else "env." +:+ name)), st)
              end).
  { intros ifEmpty. unfold Vars.getValue.
    change (Str.is_empty ("env." +:+ name)) with false. cbv iota zeta.
    rewrite (trim_env_prefix name Htrim).
    change (Str.startsWith "env." ("env." +:+ name)) with true. cbv iota.
    change (Str.slice 4 ("env." +:+ name)) with name.
    unfold bind, get. rewrite (obj_get_own _ _ Hinh).
    destruct (process_env st !! name) as [e |]; [| reflexivity].
    cbn [truthy]. destruct (Str.is_empty e); reflexivity. }
  assert (Hstored : forall ifEmpty,
            Vars.getValue name ifEmpty st
            = match storedVars st !! name with
              | Some s => (Ok (JStr (if ifEmpty && String.eqb s name then EmptyString else s)),
                           st)
              | None => Vars.getValue name ifEmpty st
              end).
  { intros ifEmpty. destruct (storedVars st !! name) as [s |] eqn:E; [| reflexivity].
    unfold Vars.getValue. destruct name as [| c name']; [congruence |].
    cbn [Str.is_empty]. cbv zeta. rewrite Htrim, Henv.
    unfold bind, get, obj_get, ret. rewrite E.
    destruct (ifEmpty && String.eqb s (String c name')); reflexivity. }
  assert (Habsent : storedVars st !! name = None ->
                    Vars.getValue name true st = (Ok (JStr EmptyString), st)).
  { intros E. unfold Vars.getValue. destruct name as [| c name']; [congruence |].
    cbn [Str.is_empty]. cbv zeta. rewrite Htrim, Henv.
    unfold bind, get. rewrite (obj_get_own _ _ Hinh), E. reflexivity. }
  assert (Hstore :
    (stored <- Vars.getValue name true ;;
     if truthy stored then Vars.getValue name false else ret (JStr value)) st
    = (Ok (JStr match storedVars st !! name with
                | Some s => if Str.is_empty s || String.eqb s name then value else s
                | None => value
                end), st)).
  { unfold bind at 1. destruct (storedVars st !! name) as [s |] eqn:E.
    - rewrite (Hstored true). cbn [andb].
      destruct (String.eqb s name) eqn:Es.
      + cbn [truthy Str.is_empty negb]. rewrite orb_true_r. reflexivity.
      + cbn [truthy]. rewrite orb_false_r. destruct (Str.is_empty s); cbn [negb].
        * reflexivity.
        * rewrite (Hstored false). reflexivity.
    - rewrite (Habsent eq_refl). reflexivity. }
  unfold Defaults.pick, default_choice. cbv zeta. unfold bind at 1. rewrite (Hread true).
  destruct (process_env st !! name) as [e |] eqn:E.
  - destruct (Str.is_empty e) eqn:Ee.
    + cbn [truthy Str.is_empty negb]. exact Hstore.
    + cbn [truthy]. rewrite Ee. cbn [negb]. rewrite (Hread false). reflexivity.
  - cbn [truthy Str.is_empty negb]. exact Hstore.
Qed.

Lemma default_choice_ext (st st' : State) (name value : string) :
  process_env st' = process_env st ->
  storedVars st' !! name = storedVars st !! name ->
  default_choice st' name value = default_choice st name value.
Proof. intros He Hs. unfold default_choice. rewrite He, Hs. reflexivity. Qed.

Lemma inherited_proto (name : string) : inherited name = false -> name <> "__proto__".
Proof. intros H ->. discriminate. Qed.

Lemma forEach_choices (items : list (string * string)) :
  forall st : State,
    NoDup (map fst items) ->
    Forall (default_name st) (map fst items) ->
    exists st',
      Defaults.forEach items st = (Ok (Some tt), st') /\
      process_env st' = process_env st /\
      (forall name value, In (name, value) items ->
                          storedVars st' !! name = Some (default_choice st name value)) /\
      (forall k, ~ In k (map fst items) -> storedVars st' !! k = storedVars st !! k).
Proof.
  induction items as [| [name value] rest IH]; intros st Hnd Hok.
  - exists st. do 2 (split; [reflexivity |]). split; [intros ? ? [] | reflexivity].
  - cbn [map fst] in Hnd, Hok. apply NoDup_cons in Hnd as [Hfresh Hnd].
    rewrite list_elem_of_In in Hfresh.
    apply Forall_cons in Hok as [Hname Hok].
    destruct Hname as (Hne & Htrim & Henv & Hinh & Hfs).
    cbn [Defaults.forEach]. unfold bind at 1.
    rewrite (pick_choice name value st Hne Htrim Henv Hinh).
    set (choice := default_choice st name value).
    unfold bind at 1. unfold Defaults.store. unfold bind at 1.
    pose proof (setValue_returns name choice st Hfs) as Hret.
    pose proof (setValue_storedVars name choice st) as Hvars.
    destruct (setValue_frame name choice st) as (Henv2 & _ & _ & _).
    pose proof (setValue_writable name choice st) as Hfs2.
    destruct (Vars.setValue name choice st) as [r st2]. cbn [fst snd] in *. subst r.
    unfold ret at 1.
    unfold obj_set in Hvars.
    destruct (String.eqb_spec name "__proto__") as [E | _];
      [destruct (inherited_proto name Hinh E) |].
    destruct (IH st2 Hnd) as (st' & Hrun & Henv' & Hin & Hout).
    { eapply Forall_impl; [exact Hok |]. intros n (A & B & C & D & F).
      do 4 (split; [assumption |]). destruct F as [F | F]; [left; exact F |].
      right. apply Hfs2, F. }
    exists st'. split; [exact Hrun |].
    split; [congruence |]. split.
    + intros n v [[= <- <-] | Hmem].
      * rewrite (Hout name Hfresh), Hvars. apply lookup_insert_eq.
      * rewrite (Hin n v Hmem). f_equal. apply default_choice_ext; [exact Henv2 |].
        rewrite Hvars. apply lookup_insert_ne. intros ->.
        apply Hfresh. apply (in_map fst) in Hmem. exact Hmem.
    + intros k Hk. cbn [map fst In] in Hk.
      rewrite (Hout k) by tauto. rewrite Hvars. apply lookup_insert_ne. tauto.
Qed.

(** X17: [loadDefaults] over entries with distinct plain names returns
    normally and gives each name the environment variable of that name
    when it is set and not empty, else the value already stored when there
    is one that is neither empty nor the name itself, else the default of
    the entry; the environment and every other variable are left as they
    were. *)
Theorem loadDefaults_precedence (items : list (string * string)) (st : State) :
  NoDup (map fst items) ->
  Forall (default_name st) (map fst items) ->
  let after := Defaults.loadDefaults (Defaults.Entries items) st in
  fst after = Ok (Some tt) /\
  process_env (snd after) = process_env st /\
  (forall name value, In (name, value) items ->
                      storedVars (snd after) !! name
                      = Some (default_choice st name value)) /\
  (forall k, ~ In k (map fst items) ->
             storedVars (snd after) !! k = storedVars st !! k).
Proof.
  intros Hnd Hok after.
  destruct (forEach_choices items st Hnd Hok) as (st' & Hrun & Henv & Hin & Hout).
  unfold after, Defaults.loadDefaults, try_catch. rewrite Hrun. cbn [fst snd].
  repeat split; assumption.
Qed.

Lemma loadDefaults_precedence_witness :
  let after :=
    Defaults.loadDefaults
      (Defaults.Entries [("browser", "chromium"); ("timeout", "30"); ("locale", "en");
                         ("retries", "2")])
      defaults_state in
  fst after = Ok (Some tt) /\
  storedVars (snd after) !! "browser" = Some "firefox" /\
  storedVars (snd after) !! "timeout" = Some "45" /\
  storedVars (snd after) !! "locale" = Some "en" /\
  storedVars (snd after) !! "retries" = Some "2".
Proof.
  destruct (loadDefaults_precedence
              [("browser", "chromium"); ("timeout", "30"); ("locale", "en"); ("retries", "2")]
              defaults_state) as (Hret & _ & Hin & _).
  - repeat (apply NoDup_cons; split;
            [rewrite list_elem_of_In; cbn; intuition discriminate |]). apply NoDup_nil_2.
  - repeat (apply Forall_cons; split;
            [repeat split; try discriminate; try reflexivity; left; reflexivity |]).
    apply Forall_nil_2.
  - cbv zeta. split; [exact Hret |].
    split; [apply (Hin "browser" "chromium"); cbn; tauto |].
    split; [apply (Hin "timeout" "30"); cbn; tauto |].
    split; [apply (Hin "locale" "en"); cbn; tauto |].
    apply (Hin "retries" "2"); cbn; tauto.
Defined.

Lemma startsWith_slice (p s : string) :
  Str.startsWith p s = true -> s = p +:+ Str.slice (String.length p) s.
Proof.
  revert s. induction p as [| a p IH]; intros s H; [reflexivity |].
  destruct s as [| c s]; [discriminate |]. cbn [Str.startsWith] in H.
  apply andb_true_iff in H as [Hc H]. apply Ascii.eqb_eq in Hc. subst c.
  change (String a p +:+ Str.slice (String.length (String a p)) (String a s))
    with (String a (p +:+ Str.slice (String.length p) s)).
  f_equal. exact (IH s H).
Qed.

Lemma setValue_write_fails (name value : string) (error : Error) (st : State) :
  Str.startsWith "var.static." name = true ->
  fs_write_fails st = Some error ->
  (exists e, fst (Vars.setValue name value st) = Throw e) /\
  var_static_json (snd (Vars.setValue name value st)) = var_static_json st.
Proof.
  intros Hvs Hfs.
  unfold Vars.setValue, Vars.updateVarStaticJson, bind, get, set_storedVars,
    set_var_static_json, console_warn, modify, throw, ret.
  rewrite Hvs. cbv beta iota. cbn [var_static_json fs_write_fails]. rewrite Hfs.
  destruct (var_static_json st) as [| reason | data | assign];
    try destruct (assign (Str.slice 11 name) value);
    split; try reflexivity; eexists; reflexivity.
Qed.

(** X18: when the file system refuses the write of a default entry under
    [var.static.], [loadDefaults] still returns normally; the entry is in
    the store and not in the file, and none of the entries after it is
    looked at. *)
Theorem loadDefaults_failed_write (name value : string) (rest : list (string * string))
  (error : Error) (st : State) :
  Str.trim name = name ->
  Str.startsWith "var.static." name = true ->
  fs_write_fails st = Some error ->
  let after := Defaults.loadDefaults (Defaults.Entries ((name, value) :: rest)) st in
  fst after = Ok (Some tt) /\
  storedVars (snd after) = <[name := default_choice st name value]> (storedVars st) /\
  var_static_json (snd after) = var_static_json st.
Proof.
  intros Htrim Hvs Hfs after.
  pose proof (startsWith_slice _ _ Hvs) as Hhead.
  assert (Hne : name <> EmptyString) by (rewrite Hhead; discriminate).
  assert (Henv : Str.startsWith "env." name = false) by (rewrite Hhead; reflexivity).
  assert (Hinh : inherited name = false) by (rewrite Hhead; reflexivity).
  clear Hhead.
  set (choice := default_choice st name value).
  destruct (setValue_write_fails name choice error st Hvs Hfs) as [[e Hthrow] Hfile].
  pose proof (setValue_storedVars name choice st) as Hvars.
  assert (Hrun : Defaults.forEach ((name, value) :: rest) st
                 = (Throw e, snd (Vars.setValue name choice st))).
  { cbn [Defaults.forEach]. unfold bind at 1.
    rewrite (pick_choice name value st Hne Htrim Henv Hinh). fold choice.
    unfold bind at 1, Defaults.store. unfold bind at 1.
    destruct (Vars.setValue name choice st) as [r st2]. cbn [fst snd] in *. subst r.
    reflexivity. }
  unfold after, Defaults.loadDefaults, try_catch. rewrite Hrun.
  unfold bind, console_warn, modify, ret. cbn [fst snd storedVars var_static_json].
  split; [reflexivity |]. split; [| exact Hfile].
  rewrite Hvars. unfold obj_set.
  destruct (String.eqb_spec name "__proto__") as [E | _]; [| reflexivity].
  destruct (inherited_proto name Hinh E).
Qed.

Lemma loadDefaults_failed_write_witness :
  let st := mkState ∅ ∅ ∅ NoFile (Some (JsError "EACCES")) [] 0 in
  let after :=
    Defaults.loadDefaults
      (Defaults.Entries [("var.static.user", "guest"); ("browser", "chromium")]) st in
  fst after = Ok (Some tt) /\
  storedVars (snd after)
  = <[ "var.static.user" := default_choice st "var.static.user" "guest" ]> (storedVars st) /\
  var_static_json (snd after) = var_static_json st.
Proof.
  exact (loadDefaults_failed_write "var.static.user" "guest" [("browser", "chromium")]
           (JsError "EACCES") (mkState ∅ ∅ ∅ NoFile (Some (JsError "EACCES")) [] 0)
           eq_refl eq_refl eq_refl).
Defined.

(** ** Flattening a configuration *)

Lemma json_nested_ind (P : Vars.json -> Prop) :
  P Vars.JNull ->
  (forall b, P (Vars.JBool b)) ->
  (forall n, P (Vars.JNumber n)) ->
  (forall s, P (Vars.JString s)) ->
  (forall elements, Forall P elements -> P (Vars.JArray elements)) ->
  (forall props, Forall (fun p => P (snd p)) props -> P (Vars.JObject props)) ->
  forall v, P v.
Proof.
  intros HNull HBool HNumber HString HArray HObject.
  fix IH 1. intros [| b | n | s | elements | props].
  - exact HNull.
  - apply HBool.
  - apply HNumber.
  - apply HString.
  - apply HArray. induction elements as [| e elements IHl]; constructor;
      [apply IH | exact IHl].
  - apply HObject. induction props as [| [k x] props IHl]; constructor;
      [apply IH | exact IHl].
Qed.

Lemma append_assoc (a b c : string) : (a +:+ b) +:+ c = a +:+ (b +:+ c).
Proof.
  induction a as [| x a IH]; [reflexivity |].
  change ((String x a +:+ b) +:+ c) with (String x ((a +:+ b) +:+ c)).
  change (String x a +:+ (b +:+ c)) with (String x (a +:+ (b +:+ c))).
  rewrite IH. reflexivity.
Qed.

Lemma startsWith_prefix (a b s : string) :
  Str.startsWith (a +:+ b) s = true -> Str.startsWith a s = true.
Proof.
  revert s. induction a as [| x a IH]; intros s H; [destruct s; reflexivity |].
  change (String x a +:+ b) with (String x (a +:+ b)) in H.
  destruct s as [| c s]; [discriminate |]. cbn [Str.startsWith] in H |- *.
  apply andb_true_iff in H as [Hc H]. rewrite Hc. exact (IH s H).
Qed.



Lemma merge_into_lookup (parts : list (string * gmap string string)) :
  forall (entries : gmap string string) (k x : string),
    foldl (fun entries part => snd part ∪ entries) entries parts !! k = Some x ->
    entries !! k = Some x \/ exists part, In part parts /\ snd part !! k = Some x.
Proof.
  induction parts as [| part parts IH]; intros entries k x H; [left; exact H |].
  cbn [foldl] in H. apply IH in H as [H | (q & Hin & Hq)].
  - apply lookup_union_Some_raw in H as [H | [_ H]].
    + right. exists part. split; [left; reflexivity | exact H].
    + left. exact H.
  - right. exists q. split; [right; exact Hin | exact Hq].
Qed.

Lemma merge_all_lookup (parts : list (string * gmap string string)) (k x : string) :
  Flatten.merge_all parts !! k = Some x ->
  exists part, In part parts /\ snd part !! k = Some x.
Proof.
  intros H. apply merge_into_lookup in H as [H | H]; [| exact H].
  rewrite lookup_empty in H. discriminate.
Qed.


Lemma insert_by_index_In {X} (n : N) (p : string * X) (l : list (N * (string * X)))
  (q : N * (string * X)) :
  In q (Flatten.insert_by_index n p l) <-> q = (n, p) \/ In q l.
Proof.
  induction l as [| [m r] l IH]; cbn [Flatten.insert_by_index In].
  - intuition congruence.
  - destruct (n <? m)%N; cbn [In]; rewrite ?IH; intuition congruence.
Qed.

Lemma for_in_In {X} (props : list (string * X)) (p : string * X) :
  In p (Flatten.for_in props) <-> In p props.
Proof.
  unfold Flatten.for_in. rewrite in_app_iff, in_map_iff.
  induction props as [| q props IH]; cbn [Flatten.indexed Flatten.named In].
  - split; [intros [(x & _ & []) | []] | intros []].
  - destruct (Flatten.array_index (fst q)) as [n |].
    + split.
      * intros [(x & Hx & Hin) | Hin].
        -- apply insert_by_index_In in Hin as [-> | Hin]; [left; exact Hx |].
           right. apply IH. left. exists x. split; assumption.
        -- right. apply IH. right. exact Hin.
      * intros [<- | Hin].
        -- left. exists (n, q). split; [reflexivity |].
           apply insert_by_index_In. left. reflexivity.
        -- apply IH in Hin as [(x & Hx & Hin) | Hin]; [| right; exact Hin].
           left. exists x. split; [exact Hx |]. apply insert_by_index_In. right. exact Hin.
    + cbn [In]. rewrite <- IH. tauto.
Qed.

(** The keys one round of the loop adds under [fullKey] are [fullKey]
    itself or continue it with a dot; those of a nested object continue
    it. *)
Lemma entry_keys (h : Vars.Host) (v : Vars.json) :
  forall fullKey k x : string,
    Flatten.entry h v fullKey !! k = Some x ->
    (is_object v = false /\ k = fullKey /\ x = setting_text h v) \/
    (is_object v = true /\ Str.startsWith (fullKey +:+ ".") k = true).
Proof.
  induction v as [| b | n | s | elements _ | props IHprops] using json_nested_ind;
    intros fullKey k x H; cbn [Flatten.entry] in H.
  1-5: left; apply lookup_singleton_Some in H as [<- <-]; repeat split.
  right. split; [reflexivity |].
  apply merge_all_lookup in H as (part & Hin & Hk).
  apply for_in_In, in_map_iff in Hin as (p & <- & Hp). cbn [snd] in Hk.
  pose proof (proj1 (List.Forall_forall _ _) IHprops p Hp _ _ _ Hk) as [(_ & -> & _) | [_ Hs]].
  - rewrite <- append_assoc. apply startsWith_app.
  - rewrite !append_assoc in Hs. rewrite <- append_assoc in Hs.
    exact (startsWith_prefix _ _ _ Hs).
Qed.

(** X19: every key of [flattenConfig(obj, prefix)] starts with the prefix
    and a dot, whatever the data is. *)
Theorem flattenConfig_namespaced (h : Vars.Host) (obj : Vars.json) (prefix k x : string) :
  Flatten.flattenConfig h obj prefix !! k = Some x ->
  Str.startsWith (prefix +:+ ".") k = true.
Proof.
  assert (Hentry : forall v fullKey,
            Str.startsWith (prefix +:+ ".") fullKey = true ->
            Flatten.entry h v fullKey !! k = Some x ->
            Str.startsWith (prefix +:+ ".") k = true).
  { intros v fullKey Hfull Hk.
    apply entry_keys in Hk as [(_ & -> & _) | [_ Hs]]; [exact Hfull |].
    apply startsWith_slice in Hfull. rewrite Hfull, append_assoc in Hs.
    exact (startsWith_prefix _ _ _ Hs). }
  destruct obj as [| b | n | s | elements | props]; cbn [Flatten.flattenConfig];
    try (rewrite lookup_empty; discriminate).
  - intros H. apply merge_all_lookup in H as (part & Hin & Hk).
    apply list_elem_of_In, elem_of_lookup_imap in Hin as (i & c & -> & _).
    cbn [snd] in Hk. apply lookup_singleton_Some in Hk as [<- _].
    rewrite <- append_assoc. apply startsWith_app.
  - intros H. apply merge_all_lookup in H as (part & Hin & Hk).
    apply list_elem_of_In, elem_of_lookup_imap in Hin as (i & v & -> & _).
    cbn [snd] in Hk. apply (Hentry v _) in Hk; [exact Hk |].
    rewrite <- append_assoc. apply startsWith_app.
  - intros H. apply entry_keys in H as [(Hobj & _) | [_ Hs]]; [discriminate | exact Hs].
Qed.

Lemma flattenConfig_namespaced_witness :
  Str.startsWith ("config" +:+ ".") "config.browser.headless" = true.
Proof.
  apply (flattenConfig_namespaced no_crypto sample_config "config"
           "config.browser.headless" "false").
  vm_compute. reflexivity.
Defined.









(** ** Locators kept in JSON files *)

(** X21: the selector [loc.json.file.page.field], for names without a dot
    and a field of the file that holds a text that is not empty, is
    resolved to the driver's locator for that text with its placeholders
    replaced; the name space and the engines are not consulted. *)
Theorem webLocResolver_json_entry {Page Locator : Type}
  (locator : Page -> string -> Locator) (h : Vars.Host)
  (g : Resolver.Globals Page Locator) (type file pageName field : string) (page : Page)
  (overridePattern : option string) (timeout : option jsnum) (smartAiRefresh : string)
  (table : gmap string (gmap string string)) (pageObj : gmap string string)
  (locatorString : string) (st : State) :
  Str.includes "." file = false ->
  Str.includes "." pageName = false ->
  Str.includes "." field = false ->
  Resolver.json_locators Page Locator g file = Some table ->
  table !! pageName = Some pageObj ->
  pageObj !! field = Some locatorString ->
  locatorString <> EmptyString ->
  Resolver.webLocResolver Page Locator locator h g type
    ("loc.json." +:+ file +:+ "." +:+ pageName +:+ "." +:+ field) page
    overridePattern timeout smartAiRefresh st
  = (sel <- Vars.replaceVariables h locatorString ;; ret (Some (locator page sel))) st.
Proof.
  intros Hf Hp Hx Hfile Hpage Hfield Hne.
  set (entry := file +:+ "." +:+ pageName +:+ "." +:+ field).
  assert (Hparts : Str.split "." entry = [file; pageName; field]).
  { unfold entry.
    change (file +:+ "." +:+ pageName +:+ "." +:+ field)
      with (file +:+ String "." (pageName +:+ String "." field)).
    rewrite (split_segment _ _ _ Hf), (split_segment _ _ _ Hp), (split_whole _ _ Hx).
    reflexivity. }
  unfold Resolver.webLocResolver. cbv zeta.
  destruct (loc_not_prefixed ("loc.json." +:+ entry) eq_refl) as [-> ->].
  change (Resolver.isResourceLocator ("loc.json." +:+ entry)) with true.
  rewrite andb_false_r. unfold Resolver.resolve_resource. cbv zeta.
  change (Str.split "." ("loc.json." +:+ entry))
    with ("loc" :: "json" :: Str.split "." entry).
  rewrite Hparts.
  change (Str.startsWith "loc.json." ("loc.json." +:+ entry)) with true.
  cbn [length Nat.ltb Nat.leb lookup list_lookup Resolver.key_of].
  rewrite Hfile, Hpage, Hfield.
  destruct locatorString as [| c text]; [congruence | reflexivity].
Qed.

Lemma webLocResolver_json_entry_witness :
  fst (Resolver.webLocResolver unit string selector_handle no_crypto json_globals "click"
         "loc.json.login.form.submit" tt None None EmptyString configured_state)
  = Ok (Some "#submit-5000").
Proof.
  exact (f_equal fst
           (webLocResolver_json_entry selector_handle no_crypto json_globals "click"
              "login" "form" "submit" tt None None EmptyString
              {[ "form" := {[ "submit" := "#submit-#{config.testExecution.actionTimeout}" ]} ]}
              {[ "submit" := "#submit-#{config.testExecution.actionTimeout}" ]}
              "#submit-#{config.testExecution.actionTimeout}" configured_state
              eq_refl eq_refl eq_refl eq_refl eq_refl eq_refl ltac:(discriminate))).
Defined.
